(** * The render orchestration core of the Objaverse 3D video generator

    A shallow embedding of [shared/renderer.py], [shared/objects.py], the
    geometry gate of [shared/blender_render.py] and the task generators under
    [tasks/], followed by the properties of the orchestration core.

    Python exceptions are values of [exn]; a computation that may raise
    returns a [result].  Code that touches the job's output directory, the
    process-wide random generator or the renderer subprocess runs in the
    state-and-exception monad [M] over a [world]. *)

From stdpp Require Import gmap strings list fin_maps.
From Stdlib Require Import ZArith QArith Lia DecimalString DecimalNat.

Open Scope string_scope.
Open Scope Z_scope.

(** ** Python base: exceptions, results, strings *)

Module Py.

(** The exception classes the modelled code raises or lets escape. *)
Inductive exn :=
| FileNotFoundError
| IsADirectoryError
| PermissionError
| UnicodeDecodeError
| ValueError
| IndexError
| TypeError
| KeyboardInterrupt.

Inductive result (A : Type) :=
| Ok (a : A)
| Raise (e : exn).
Arguments Ok {A} a.
Arguments Raise {A} e.

Definition is_ok {A} (r : result A) : bool :=
  match r with Ok _ => true | Raise _ => false end.

(** [pat in s] on Python strings: [pat] occurs as a contiguous substring. *)
Fixpoint contains (pat s : string) : bool :=
  String.prefix pat s ||
  match s with
  | EmptyString => false
  | String _ s' => contains pat s'
  end.

(** [s.endswith(suffix)]. *)
Definition endswith (s suffix : string) : bool :=
  (String.length suffix <=? String.length s)%nat &&
  String.eqb suffix
    (String.substring (String.length s - String.length suffix)
                      (String.length suffix) s).

(** Truthiness of a Python string. *)
Definition truthy (s : string) : bool :=
  match s with EmptyString => false | _ => true end.

(** [range(m)] for an [int] bound: empty when [m <= 0]. *)
Definition range (m : Z) : list Z := Z.of_nat <$> seq 0 (Z.to_nat m).

(** The [random] module: the generator's output is a tape of raw draws
    and a read position; [randbelow n] consumes one draw. *)
Record Rng := MkRng { tape : nat -> nat; cursor : nat }.

Definition randbelow (n : nat) (g : Rng) : nat * Rng :=
  ((tape g (cursor g) mod n)%nat, MkRng (tape g) (S (cursor g))).

(** Selection without replacement, as [random.sample] performs it: each of
    the [k] draws picks a position of the remaining pool and removes it. *)
Fixpoint sample_loop {A} (pool : list A) (k : nat) (g : Rng) : list A * Rng :=
  match k with
  | O => ([], g)
  | S k' =>
      let '(j, g') := randbelow (length pool) g in
      match pool !! j with
      | Some x =>
          let '(xs, g'') := sample_loop (delete j pool) k' g' in
          (x :: xs, g'')
      | None => ([], g')
      end
  end.

(** [random.sample(population, k)]: [ValueError] unless
    [0 <= k <= len(population)]. *)
Definition sample {A} (population : list A) (k : Z) (g : Rng)
  : result (list A) * Rng :=
  if decide (0 <= k <= Z.of_nat (length population))
  then let '(xs, g') := sample_loop population (Z.to_nat k) g in (Ok xs, g')
  else (Raise ValueError, g).

(** [random.choice(seq)]: [IndexError] on an empty sequence. *)
Definition choice {A} (l : list A) (g : Rng) : result A * Rng :=
  match l with
  | [] => (Raise IndexError, g)
  | _ =>
      let '(j, g') := randbelow (length l) g in
      match l !! j with
      | Some x => (Ok x, g')
      | None => (Raise IndexError, g')
      end
  end.

End Py.
Export Py.

(** ** shared/renderer.py *)

Module Renderer.

(** One entry of the job's output directory as [Path.stat] sees it. *)
Record entry := Entry { is_dir : bool; st_size : Z }.

(** The output directory: entry name to entry.  A directory that does not
    exist lists as the empty map ([glob] yields nothing, [exists] is false). *)
Abbreviation dir := (gmap string entry).

(** How [subprocess.run] ends: the process exited with a return code and a
    captured standard output, the timeout expired, launching or decoding
    raised some other [Exception], or the call was interrupted by an
    exception that is not an [Exception] ([KeyboardInterrupt]). *)
Inductive run_outcome :=
| Completed (returncode : Z) (stdout : string)
| TimeoutExpired
| OtherException
| Interrupted.

Definition interrupted (o : run_outcome) : bool :=
  match o with Interrupted => true | _ => false end.

(** What [json.dumps] raises on a value, if anything.  The text it returns
    goes into the command line, which the model carries as the value
    itself. *)
Class Serialisable (A : Type) := json_error : A -> option exn.

(** [find_blender]: the explicit path when it exists, else the first
    existing candidate; [path_exists] is [Path(p).exists()] and [which] the
    answer of [shutil.which("blender")]. *)
Definition find_blender (path_exists : string -> bool) (which : option string)
    (blender_path : option string) : result string :=
  let usable (c : option string) : bool :=
    match c with
    | Some p => truthy p && path_exists p
    | None => false
    end in
  if usable blender_path then
    match blender_path with Some p => Ok p | None => Raise FileNotFoundError end
  else
    let candidates :=
      [ Some "/tmp/blender-3.6.0-linux-x64/blender";
        Some "/usr/local/bin/blender";
        Some "/usr/bin/blender";
        which ] in
    match filter (fun c => usable c = true) candidates with
    | Some p :: _ => Ok p
    | _ => Raise FileNotFoundError
    end.

Section WithConfig.

(** The job configuration is serialised and passed to the subprocess. *)
Context {task_config : Type} `{!Serialisable task_config}.

(** The arguments of one subprocess launch. *)
Record invocation := Invocation {
  inv_blender : string;
  inv_config : task_config;
  inv_objects : list string;
  inv_output_dir : string;
  inv_timeout : Z;
}.

(** The renderer is opaque: the [n]-th launch, with its arguments and the
    directory it finds, ends in some outcome and leaves some directory. *)
Definition subprocess := nat -> invocation -> dir -> run_outcome * dir.

Record world := World {
  fs : dir;
  rng : Rng;
  calls : list invocation;
}.

Definition M (A : Type) : Type := world -> result A * world.

Definition ret {A} (a : A) : M A := fun w => (Ok a, w).
Definition raise {A} (e : exn) : M A := fun w => (Raise e, w).
Definition bind {A B} (m : M A) (k : A -> M B) : M B :=
  fun w =>
    match m w with
    | (Ok a, w') => k a w'
    | (Raise e, w') => (Raise e, w')
    end.

Notation "x <- m ;; k" := (bind m (fun x => k))
  (at level 100, m at next level, right associativity).
Notation "m ;;; k" := (bind m (fun _ => k))
  (at level 100, right associativity).

Definition with_rng {A} (f : Rng -> result A * Rng) : M A :=
  fun w =>
    let '(r, g) := f (rng w) in
    (r, World (fs w) g (calls w)).

(** [result.returncode == 0 and "RENDER_SUCCESS" in result.stdout], with
    every [Exception] of the [try] block mapped to [False]. *)
Definition render_succeeded (o : run_outcome) : bool :=
  match o with
  | Completed returncode stdout =>
      (returncode =? 0) && contains "RENDER_SUCCESS" stdout
  | TimeoutExpired => false
  | OtherException => false
  | Interrupted => false
  end.

(** [render_video_task]: the command line is built before the [try], so
    what [json.dumps(task_config)] raises propagates and nothing is
    launched ([object_paths] is a list of strings, which [json.dumps]
    accepts); [except (subprocess.TimeoutExpired, Exception)] lets an
    interrupt through. *)
Definition render_video_task (sp : subprocess)
    (blender_path : string) (cfg : task_config) (object_paths : list string)
    (output_dir : string) (timeout : Z) : M bool :=
  fun w =>
    match json_error cfg with
    | Some e => (Raise e, w)
    | None =>
        let cmd :=
          Invocation blender_path cfg object_paths output_dir timeout in
        let '(o, fs') := sp (length (calls w)) cmd (fs w) in
        let w' := World fs' (rng w) (calls w ++ [cmd]) in
        match o with
        | Interrupted => (Raise KeyboardInterrupt, w')
        | _ => (Ok (render_succeeded o), w')
        end
    end.

(** [f.unlink()] on one entry of the output directory; unlinking a
    directory raises an [OSError], [IsADirectoryError] on Linux. *)

Definition unlink (name : string) : M unit :=
  fun w =>
    match fs w !! name with
    | None => (Raise FileNotFoundError, w)
    | Some e =>
        if is_dir e then (Raise IsADirectoryError, w)
        else (Ok tt, World (delete name (fs w)) (rng w) (calls w))
    end.

Fixpoint unlink_all (names : list string) : M unit :=
  match names with
  | [] => ret tt
  | f :: rest => unlink f ;;; unlink_all rest
  end.

(** [for f in out.glob("*"): f.unlink()]; the order in which [glob] lists
    the entries is that of [map_to_list]. *)

Definition clean : M unit :=
  fun w => unlink_all (fst <$> map_to_list (fs w)) w.

(** [video_file.exists() and video_file.stat().st_size > min_video_size]. *)
Definition video_valid (min_video_size : Z) (d : dir) : bool :=
  match d !! "ground_truth.mp4" with
  | Some e => min_video_size <? st_size e
  | None => false
  end.

Definition nonempty {A} (l : list A) : bool :=
  match l with [] => false | _ => true end.

Section Retry.

Variable sp : subprocess.
Variables (blender_path : string) (cfg : task_config).
Variables (all_objects : list string) (output_dir : string).
Variables (num_objects min_video_size max_retries timeout : Z).

(** The object list of the next attempt. *)
Definition next_objects (attempt : Z) (current_objs : list string)
  : M (list string) :=
  if (attempt <? max_retries - 1) && nonempty all_objects
  then with_rng (sample all_objects
                   (Z.min num_objects (Z.of_nat (length all_objects))))
  else ret current_objs.

(** The body of the [for attempt in range(max_retries)] loop, iterated over
    the remaining attempt numbers; [return True] leaves the loop. *)
Fixpoint retry_loop (attempts : list Z) (current_objs : list string)
  : M bool :=
  match attempts with
  | [] => ret false
  | attempt :: rest =>
      clean ;;;
      success <- render_video_task sp blender_path cfg current_objs
                   output_dir timeout ;;
      fun w =>
        if success && video_valid min_video_size (fs w)
        then ret true w
        else (objs <- next_objects attempt current_objs ;;
              retry_loop rest objs) w
  end.

End Retry.

Definition render_with_retry (sp : subprocess)
    (blender_path : string) (cfg : task_config)
    (object_paths all_objects : list string) (output_dir : string)
    (num_objects min_video_size max_retries timeout : Z) : M bool :=
  retry_loop sp blender_path cfg all_objects output_dir
    num_objects min_video_size max_retries timeout
    (range max_retries) object_paths.

End WithConfig.

Arguments invocation : clear implicits.
Arguments subprocess : clear implicits.
Arguments world : clear implicits.
Arguments M : clear implicits.

Notation "x <- m ;; k" := (bind m (fun x => k))
  (at level 100, m at next level, right associativity).
Notation "m ;;; k" := (bind m (fun _ => k))
  (at level 100, right associativity).

End Renderer.


(** ** shared/objects.py *)

Module Objects.

(** What a path of the local file system refers to: a text file, given by
    the lines iterating over it yields; a directory; a file whose bytes
    are not text in the default encoding; an entry that [open] refuses; or
    an entry whose [stat] fails with an [OSError] that [pathlib] does not
    take for absence (permission denied, name too long). *)
Inductive node :=
| File (lines : list string)
| Directory
| Undecodable
| NoOpen
| NoStat.

Abbreviation filesystem := (gmap string node).

(** [Path(p).exists()]: an absent entry is [False]; the error of a failing
    [stat] propagates. *)
Definition exists_ (disk : filesystem) (p : string) : result bool :=
  match disk !! p with
  | None => Ok false
  | Some NoStat => Raise PermissionError
  | Some _ => Ok true
  end.

(** [Path(p).exists()] answered [True]. *)
Definition path_exists (disk : filesystem) (p : string) : bool :=
  match exists_ disk p with
  | Ok b => b
  | Raise _ => false
  end.

(** [with open(path) as f: [... for line in f]]: the lines of a text
    file. *)
Definition read_lines (disk : filesystem) (p : string)
  : result (list string) :=
  match disk !! p with
  | None => Raise FileNotFoundError
  | Some (File lines) => Ok lines
  | Some Directory => Raise IsADirectoryError
  | Some Undecodable => Raise UnicodeDecodeError
  | Some NoOpen => Raise PermissionError
  | Some NoStat => Raise PermissionError
  end.

(** Strings stand for Python [str] values by their UTF-8 encoding.  ASCII
    white space as [str.isspace] classifies it. *)
Definition isspace (c : Ascii.ascii) : bool :=
  let n := Ascii.nat_of_ascii c in
  ((9 <=? n) && (n <=? 13) || (28 <=? n) && (n <=? 32))%nat.

(** The number of bytes of the white-space character [s] starts with, or
    0 when it starts with none: the ASCII ones, U+0085 and U+00A0 (C2 85,
    C2 A0), U+1680 (E1 9A 80), U+2000 to U+200A, U+2028, U+2029 and U+202F
    (E2 80 80 to 8A, A8, A9, AF), U+205F (E2 81 9F) and U+3000
    (E3 80 80). *)
Definition space_width (s : string) : nat :=
  match s with
  | EmptyString => 0
  | String a s1 =>
      if isspace a then 1
      else
        match s1 with
        | EmptyString => 0
        | String b s2 =>
            let a := Ascii.nat_of_ascii a in
            let b := Ascii.nat_of_ascii b in
            if ((a =? 194) && ((b =? 133) || (b =? 160)))%nat then 2
            else
              match s2 with
              | EmptyString => 0
              | String c _ =>
                  let c := Ascii.nat_of_ascii c in
                  if ((a =? 225) && (b =? 154) && (c =? 128)
                      || (a =? 226) && (b =? 128)
                         && ((128 <=? c) && (c <=? 138)
                             || (c =? 168) || (c =? 169) || (c =? 175))
                      || (a =? 226) && (b =? 129) && (c =? 159)
                      || (a =? 227) && (b =? 128) && (c =? 128))%nat
                  then 3 else 0
              end
        end
  end.

(** [s.lstrip()], with [skip] bytes left to drop of the white-space
    character that is being removed. *)
Fixpoint lstrip_from (skip : nat) (s : string) : string :=
  match s with
  | EmptyString => EmptyString
  | String _ s' =>
      match skip with
      | S k => lstrip_from k s'
      | O =>
          match space_width s with
          | O => s
          | S k => lstrip_from k s'
          end
      end
  end.

Definition lstrip (s : string) : string := lstrip_from 0 s.

(** [s.rstrip()]: the string up to where only white space follows. *)
Fixpoint rstrip (s : string) : string :=
  match s with
  | EmptyString => EmptyString
  | String c s' =>
      match lstrip s with
      | EmptyString => EmptyString
      | _ => String c (rstrip s')
      end
  end.

(** [line.strip()]. *)
Definition strip (s : string) : string := rstrip (lstrip s).

(** [[line.strip() for line in f if line.strip()]]. *)
Definition stripped_lines (raw : list string) : list string :=
  filter (fun l => truthy l = true) (strip <$> raw).

Section LoadObjects.

(** The local disk, the directory the package is installed in, and the
    Objaverse batch resolver ([objaverse.load_objects], which maps the
    identifiers it could resolve to local paths). *)
Variable disk : filesystem.
Variable package_dir : string.
Variable objaverse_load_objects : list string -> gmap string string.

Definition _DEFAULT_ASSETS : string :=
  package_dir +:+ "/assets/good_objects.txt".

(** [[p for p in lines if Path(p).exists()]]. *)
Fixpoint existing (lines : list string) : result (list string) :=
  match lines with
  | [] => Ok []
  | p :: rest =>
      match exists_ disk p with
      | Raise e => Raise e
      | Ok b =>
          match existing rest with
          | Raise e => Raise e
          | Ok valid => Ok (if b then p :: valid else valid)
          end
      end
  end.

(** The [for uid in lines] loop: the resolved paths that are non-empty
    and exist, in the order of the list. *)
Fixpoint resolved (uid_to_path : gmap string string) (lines : list string)
  : result (list string) :=
  match lines with
  | [] => Ok []
  | uid :: rest =>
      match uid_to_path !! uid with
      | None => resolved uid_to_path rest
      | Some p =>
          if truthy p then
            match exists_ disk p with
            | Raise e => Raise e
            | Ok b =>
                match resolved uid_to_path rest with
                | Raise e => Raise e
                | Ok valid => Ok (if b then p :: valid else valid)
                end
            end
          else resolved uid_to_path rest
      end
  end.

(** [Path(object_list) if object_list else _DEFAULT_ASSETS]. *)
Definition list_path (object_list : option string) : string :=
  match object_list with
  | Some p => if truthy p then p else _DEFAULT_ASSETS
  | None => _DEFAULT_ASSETS
  end.

(** The format test on the first entry:
    ["/" in sample or sample.endswith(".glb")]. *)
Definition is_path_format (sample : string) : bool :=
  contains "/" sample || endswith sample ".glb".

Definition load_objects (object_list : option string) : result (list string) :=
  let path := list_path object_list in
  match exists_ disk path with
  | Raise e => Raise e
  | Ok false => Raise FileNotFoundError
  | Ok true =>
      match read_lines disk path with
      | Raise e => Raise e
      | Ok raw =>
          let lines := stripped_lines raw in
          match lines with
          | [] => Raise ValueError
          | sample :: _ =>
              if is_path_format sample then
                match existing lines with
                | Raise e => Raise e
                | Ok [] => Raise FileNotFoundError
                | Ok valid => Ok valid
                end
              else
                let uid_to_path := objaverse_load_objects lines in
                match resolved uid_to_path lines with
                | Raise e => Raise e
                | Ok [] => Raise FileNotFoundError
                | Ok valid => Ok valid
                end
          end
      end
  end.

End LoadObjects.

End Objects.

(** ** shared/blender_render.py: the geometry gate of the importer *)

Module BlenderRender.

(** Coordinates are Blender floats; they are idealised here as rationals,
    so the thresholds below compare exactly. *)
Definition vec : Type := Q * Q * Q.

Definition coord (v : vec) (j : nat) : Q :=
  match j with
  | O => fst (fst v)
  | S O => snd (fst v)
  | _ => snd v
  end.

(** A scene object after import: its type tag, the world-space positions of
    its vertices ([obj.matrix_world @ v.co]), its location and its scale. *)
Record bobject := BObject {
  obj_type : string;
  vertices : list vec;
  location : vec;
  scale : vec;
}.

Definition Qltb (a b : Q) : bool := negb (Qle_bool b a).
Definition qmin (a b : Q) : Q := if Qle_bool a b then a else b.
Definition qmax (a b : Q) : Q := if Qle_bool a b then b else a.

(** [min(...)] and [max(...)] of a non-empty sequence, given by its head. *)
Definition minimum (x : Q) (xs : list Q) : Q := foldl qmin x xs.
Definition maximum (x : Q) (xs : list Q) : Q := foldl qmax x xs.

Section Importer.

(** Blender's importers: the objects selected after importing a file. *)
Variable import_scene : string -> list bobject.

Definition import_object (filepath : string) : result (list bobject) :=
  if endswith filepath ".glb" || endswith filepath ".gltf"
     || endswith filepath ".obj"
  then Ok (filter (fun o => obj_type o = "MESH") (import_scene filepath))
  else Raise ValueError.

(** [sum(len(obj.data.vertices) for obj in objects)]. *)
Definition total_verts (objects : list bobject) : nat :=
  foldr (fun o n => (length (vertices o) + n)%nat) O objects.

(** [max(dims)]: the largest side of the bounding box of the vertices. *)
Definition bbox_size (v : vec) (vs : list vec) : Q :=
  let mn j := minimum (coord v j) ((fun u => coord u j) <$> vs) in
  let mx j := maximum (coord v j) ((fun u => coord u j) <$> vs) in
  let dim j := (mx j - mn j)%Q in
  maximum (dim 0%nat) [dim 1%nat; dim 2%nat].

Definition bbox_center (v : vec) (vs : list vec) : vec :=
  let mn j := minimum (coord v j) ((fun u => coord u j) <$> vs) in
  let mx j := maximum (coord v j) ((fun u => coord u j) <$> vs) in
  let c j := ((mn j + mx j) / 2)%Q in
  (c 0%nat, c 1%nat, c 2%nat).

(** [obj.location -= center; obj.scale *= sf]. *)
Definition recenter (center : vec) (sf : Q) (o : bobject) : bobject :=
  let '(lx, ly, lz) := location o in
  let '(sx, sy, sz) := scale o in
  BObject (obj_type o) (vertices o)
    ((lx - coord center 0)%Q, (ly - coord center 1)%Q,
     (lz - coord center 2)%Q)
    ((sx * sf)%Q, (sy * sf)%Q, (sz * sf)%Q).

(** Materials do not enter the geometry and are left out. *)
Definition import_single_object (path : string) (target_size : Q)
  : result (list bobject) :=
  match import_object path with
  | Raise e => Raise e
  | Ok [] => Ok []
  | Ok objects =>
      let all_verts := objects ≫= vertices in
      if (total_verts objects <? 4)%nat then Ok []
      else
        match all_verts with
        | [] => Ok objects
        | v :: vs =>
            let size := bbox_size v vs in
            if Qltb size (1 # 1000) then Ok []
            else if Qltb 0 size then
              Ok (recenter (bbox_center v vs) (target_size / size)%Q
                    <$> objects)
            else Ok objects
        end
  end.

(** The empty object the meshes of one path are parented to. *)
Record empty_object := EmptyObject {
  e_name : string;
  e_location : vec;
  e_scale : vec;
}.

(** [f"{i}"] for an index of [enumerate]. *)
Definition decimal (i : nat) : string :=
  NilEmpty.string_of_uint (Nat.to_uint i).

(** The parent of the meshes of path [i] in [import_and_place_objects]: a
    new empty at the origin with unit scale, named after the index; when
    the meshes have vertices and their bounding box a positive size, it
    is scaled by [scales[i] / size] (1.5 for a missing scale) and moved to
    centre the meshes; it is then moved by [positions[i]] when there is
    one, whose three components are read. *)
Definition place_parent (positions : list (list Q)) (scales : list Q)
    (i : nat) (objects : list bobject) : result empty_object :=
  let name := "Object_" +:+ decimal i in
  let all_verts :=
    filter (fun o => obj_type o = "MESH") objects ≫= vertices in
  let '(loc, scl) :=
    match all_verts with
    | [] => ((0, 0, 0), (1, 1, 1))%Q
    | v :: vs =>
        let center := bbox_center v vs in
        let size := bbox_size v vs in
        if Qltb 0 size then
          let target_scale := default (3 # 2)%Q (scales !! i) in
          let sf := (target_scale / size)%Q in
          ((- coord center 0 * sf, - coord center 1 * sf,
            - coord center 2 * sf), (sf, sf, sf))%Q
        else ((0, 0, 0), (1, 1, 1))%Q
    end in
  match positions !! i with
  | None => Ok (EmptyObject name loc scl)
  | Some pos =>
      match pos with
      | x :: y :: z :: _ =>
          Ok (EmptyObject name
                (coord loc 0 + x, coord loc 1 + y, coord loc 2 + z)%Q scl)
      | _ => Raise IndexError
      end
  end.

(** The [for i, path in enumerate(object_paths)] loop from index [i] on; a
    path without meshes is skipped by [continue]. *)
Fixpoint place_from (positions : list (list Q)) (scales : list Q) (i : nat)
    (object_paths : list string)
  : result (list (empty_object * list bobject)) :=
  match object_paths with
  | [] => Ok []
  | path :: rest =>
      match import_object path with
      | Raise e => Raise e
      | Ok [] => place_from positions scales (S i) rest
      | Ok objects =>
          match place_parent positions scales i objects with
          | Raise e => Raise e
          | Ok parent =>
              match place_from positions scales (S i) rest with
              | Raise e => Raise e
              | Ok groups => Ok ((parent, objects) :: groups)
              end
          end
      end
  end.

Definition import_and_place_objects (object_paths : list string)
    (positions : list (list Q)) (scales : list Q)
  : result (list (empty_object * list bobject)) :=
  place_from positions scales 0 object_paths.

End Importer.

End BlenderRender.


(** ** tasks/: the four task generators and their registry *)

Module Tasks.
Import Renderer.

(** Values of the job-configuration dictionary handed to the renderer:
    strings, numbers and lists, and any other Python object a field of the
    configuration may hold (a [numpy] number, a set), which [json.dumps]
    rejects. *)
#[warnings="-register-all"]
Inductive value :=
| VStr (s : string)
| VInt (z : Z)
| VFloat (q : Q)
| VList (l : list value)
| VObject.

Definition dict : Type := list (string * value).

(** Whether [json.dumps] accepts a value. *)
Fixpoint serialisable (v : value) : bool :=
  match v with
  | VList l => forallb serialisable l
  | VObject => false
  | _ => true
  end.

(** [json.dumps] of a dictionary with string keys raises [TypeError] when
    it meets a value it cannot serialise. *)
#[export] Instance dict_serialisable : Serialisable dict :=
  fun d => if forallb (fun kv => serialisable (snd kv)) d
           then None else Some TypeError.

(** How [_render_one] draws the objects of the first attempt:
    [[random.choice(all_objs)]] or
    [random.sample(all_objs, min(NUM_OBJECTS, len(all_objs)))]. *)
Inductive pick := Choice | Sample.

(** What differs between the four task modules: the constant task type
    (also the default of [TaskConfig.domain]), the prompt templates, the
    number of objects, the first pick, the camera and geometry fields of
    [TaskConfig] with their defaults, and the scratch directory prefix. *)
Record task_module := TaskModule {
  task_type : string;
  PROMPTS : list string;
  NUM_OBJECTS : Z;
  first_pick : pick;
  scene_defaults : dict;
  tmp_prefix : string;
}.

Definition shape_extrapolation : task_module :=
  TaskModule "shape_extrapolation"
  [ "A camera orbits 360 degrees around a 3D object. Given the first 75% of the video (270 degrees of rotation), predict what the object looks like from the remaining unseen angles. Generate the final 25% of frames showing the back side of the object.";
    "This video shows a 3D object being viewed from a camera that rotates around it. The video captures the first three-quarters of a full orbit. Predict the next-frame sequence that completes the remaining quarter of the orbit, revealing the previously unseen side of the object.";
    "A 3D object is filmed by a camera performing a circular orbit. You are shown 75% of the rotation. Extrapolate the object's appearance for the remaining 25% of angles to complete the full 360-degree view.";
    "Watch a camera slowly orbit around a single 3D object. The video shows 270 degrees of the orbit. Your task is to predict the final 90 degrees of rotation, showing what the back of the object looks like based on the geometry and textures visible so far.";
    "A single 3D object is captured by an orbiting camera. Given the majority of the orbit as context, generate the remaining frames that complete the full rotation around the object." ]
  1 Choice
  [ ("camera_distance", VFloat (7 # 2));
    ("camera_elevation", VFloat 25);
    ("rotations", VFloat 1) ]
  "shape_extrap_".

Definition occlusion_dynamics : task_module :=
  TaskModule "occlusion_dynamics"
  [ "A camera orbits around two 3D objects. As the camera moves, one object progressively occludes the other. Given the first 75% of the video, predict how the occlusion pattern changes in the remaining frames.";
    "Two 3D objects are filmed by a camera performing a circular orbit. During the rotation, one object passes in front of the other from the camera's perspective. Predict the next frames showing how the occlusion resolves as the camera continues orbiting.";
    "Watch a camera orbit around a scene with two objects. The objects occlude each other at certain angles. Given 75% of the orbit, generate the remaining 25% showing how the objects appear and disappear behind each other.";
    "This video shows two 3D objects viewed from an orbiting camera. One object blocks the view of the other at certain angles. Predict the final quarter of the orbit, correctly handling the occlusion dynamics." ]
  2 Sample
  [ ("camera_distance", VFloat (9 # 2));
    ("camera_elevation", VFloat 20);
    ("rotations", VFloat 1);
    ("object_positions",
     VList [ VList [VFloat (4 # 5); VFloat 0; VInt 0];
             VList [VFloat (- 4 # 5); VFloat 0; VInt 0] ]);
    ("object_scales", VList [VFloat (3 # 2); VFloat (3 # 2)]) ]
  "occlusion_dyn_".

Definition depth_parallax : task_module :=
  TaskModule "depth_parallax"
  [ "A camera moves laterally across a scene containing three 3D objects at different depths. Near objects appear to move faster than far objects (parallax effect). Given the first 75% of the camera's lateral movement, predict the remaining frames.";
    "Three 3D objects are placed at different distances from the camera. The camera slides from left to right, creating a depth parallax effect. Predict the final 25% of the video based on the depth relationships observed so far.";
    "This video shows a lateral camera pan across a scene with objects at varying depths. Closer objects shift more in the frame than distant ones. Generate the remaining frames, maintaining correct parallax motion for each depth layer.";
    "Watch a camera translate sideways through a 3D scene. Objects at different distances move at different apparent speeds due to depth parallax. Predict the next frames showing the correct relative motion of near and far objects." ]
  3 Sample
  [ ("camera_distance", VFloat 3);
    ("camera_elevation", VFloat 20);
    ("lateral_range", VFloat (7 # 2));
    ("camera_forward_distance", VFloat (11 # 2));
    ("camera_height", VFloat (9 # 5));
    ("look_at", VList [VFloat (1 # 10); VFloat 1; VInt 0]);
    ("object_positions",
     VList [ VList [VFloat (- 1); VFloat (- 1 # 2); VInt 0];
             VList [VFloat (3 # 10); VFloat 1; VInt 0];
             VList [VFloat (6 # 5); VFloat (5 # 2); VInt 0] ]);
    ("object_scales",
     VList [VFloat (9 # 5); VFloat (9 # 5); VFloat (9 # 5)]) ]
  "depth_para_".

Definition zoom_consistency : task_module :=
  TaskModule "zoom_consistency"
  [ "A camera zooms steadily toward a 3D object from a fixed angle. Given the first 75% of the zoom sequence, predict the remaining frames showing the object at closer range with increasing detail.";
    "This video shows a 3D object being approached by a camera moving straight toward it. The object grows larger in the frame as the camera zooms in. Predict the final 25% of the zoom, maintaining geometric consistency.";
    "Watch a camera perform a pure zoom toward a single 3D object (no rotation). As the camera gets closer, finer details become visible. Generate the remaining frames of the zoom approach.";
    "A 3D object is filmed by a camera that moves directly toward it in a smooth zoom. Given most of the zoom sequence, predict how the object appears at the closest distance, preserving its 3D structure and proportions." ]
  1 Choice
  [ ("camera_elevation", VFloat 20);
    ("camera_azimuth", VFloat 15);
    ("start_distance", VFloat 4);
    ("end_distance", VFloat (9 # 5));
    ("camera_distance", VFloat 4) ]
  "zoom_consist_".

Definition TASK_REGISTRY : list (string * task_module) :=
  [ ("shape_extrapolation", shape_extrapolation);
    ("occlusion_dynamics", occlusion_dynamics);
    ("depth_parallax", depth_parallax);
    ("zoom_consistency", zoom_consistency) ].

Definition TASK_NAMES : list string := fst <$> TASK_REGISTRY.

Definition get_task (name : string) : result task_module :=
  match list_find (fun kv => fst kv = name) TASK_REGISTRY with
  | Some (_, (_, tm)) => Ok tm
  | None => Raise ValueError
  end.

(** [TaskConfig]: the fields every task module declares, with the camera
    and geometry fields of the module kept in declaration order in [scene];
    [num_samples] is inherited from [GenerationConfig]. *)
Record TaskConfig := MkTaskConfig {
  num_samples : Z;
  domain : string;
  image_size : Z * Z;
  fps : Z;
  duration : Q;
  scene : dict;
  workers : Z;
  blender_path : option string;
  timeout : Z;
  min_video_size : Z;
  max_retries : Z;
  object_list : option string;
}.

(** The field defaults of the module's [TaskConfig]. *)
Definition default_config (tm : task_module) (n : Z) : TaskConfig :=
  MkTaskConfig n (task_type tm) (1024, 1024) 16 4 (scene_defaults tm)
    16 None 600 50000 3 None.

Definition _build_task_config (tm : task_module) (config : TaskConfig) : dict :=
  ([ ("task_type", VStr (task_type tm));
     ("resolution", VInt (fst (image_size config)));
     ("fps", VInt (fps config));
     ("duration", VFloat (duration config)) ] ++ scene config)%list.

(** Pillow images, by how they were obtained: [Image.new(mode, size, color)]
    or [Image.open(path).convert(mode)]. *)
Inductive Image :=
| Image_new (mode : string) (size : Z * Z) (color : Z * Z * Z)
| Image_open (path : string) (mode : string).

(** [img.size], known for a synthesised image. *)
Definition size_of (img : Image) : option (Z * Z) :=
  match img with
  | Image_new _ size _ => Some size
  | Image_open _ _ => None
  end.

(** [img.getpixel((x, y))] of a synthesised image, inside its bounds. *)
Definition getpixel (img : Image) (x y : Z) : option (Z * Z * Z) :=
  match img with
  | Image_new _ (w, h) color =>
      if (0 <=? x) && (x <? w) && (0 <=? y) && (y <? h)
      then Some color else None
  | Image_open _ _ => None
  end.

(** Modelled from the spec: [TaskPair] of [core/schemas.py], which is not
    among the sources; its fields are those the spec lists, with
    [ground_truth_video] an optional reference that is absent unless given. *)
Record TaskPair := MkTaskPair {
  task_id : string;
  pair_domain : string;
  prompt : string;
  first_image : Image;
  final_image : Image;
  ground_truth_video : option string;
}.

(** [get_prompt]: [random.choice(PROMPTS)]. *)
Definition get_prompt (tm : task_module) (g : Rng) : result string * Rng :=
  choice (PROMPTS tm) g.

(** The tuple [_render_one] takes and the dictionary it returns. *)
Record job_args := JobArgs {
  a_task_id : string;
  a_blender : string;
  a_all_objs : list string;
  a_task_cfg : dict;
  a_min_sz : Z;
  a_retries : Z;
  a_timeout : Z;
  a_work_dir : string;
}.

Record job_result := JobResult {
  r_task_id : string;
  r_output_dir : string;
  r_success : bool;
}.

(** The objects of the first attempt. *)
Definition pick_objects (tm : task_module) (all_objs : list string)
  : M dict (list string) :=
  match first_pick tm with
  | Choice =>
      with_rng (fun g =>
        match choice all_objs g with
        | (Ok o, g') => (Ok [o], g')
        | (Raise e, g') => (Raise e, g')
        end)
  | Sample =>
      with_rng (sample all_objs
                  (Z.min (NUM_OBJECTS tm) (Z.of_nat (length all_objs))))
  end.

(** [_render_one] once [out.mkdir(parents=True, exist_ok=True)] has
    returned; the directory of the world is [work_dir / task_id], which
    [mkdir] leaves as it is when it exists. *)
Definition _render_one (tm : task_module) (sp : subprocess dict)
    (args : job_args) : M dict job_result :=
  let out := a_work_dir args +:+ "/" +:+ a_task_id args in
  objs <- pick_objects tm (a_all_objs args) ;;
  ok <- render_with_retry sp (a_blender args) (a_task_cfg args) objs
          (a_all_objs args) out (NUM_OBJECTS tm) (a_min_sz args)
          (a_retries args) (a_timeout args) ;;
  ret (JobResult (a_task_id args) out ok).

(** [_render_one] from its first statement: creating the job directory,
    which the file system of the worker answers by [mkdir out], and then
    the draw and the rendering above. *)
Definition _render_one_mkdir (mkdir : string -> result unit)
    (tm : task_module) (sp : subprocess dict) (args : job_args)
  : M dict job_result :=
  fun w =>
    match mkdir (a_work_dir args +:+ "/" +:+ a_task_id args) with
    | Raise e => (Raise e, w)
    | Ok _ => _render_one tm sp args w
    end.

(** The generator object; [tm] is the task module its class belongs to.
    [BaseGenerator] of [core/base_generator.py] is not among the sources
    and is taken to keep the configuration. *)
Record TaskGenerator := MkTaskGenerator {
  tm : task_module;
  config : TaskConfig;
  blender : string;
  objects : list string;
  _work_dir : string;
  _task_cfg : dict;
}.

(** [TaskGenerator.__init__]; [mkdtemp] is [tempfile.mkdtemp]. *)
Definition TaskGenerator_init (m : task_module)
    (disk : Objects.filesystem) (package_dir : string)
    (objaverse_load_objects : list string -> gmap string string)
    (which : option string) (mkdtemp : string -> string)
    (cfg : TaskConfig) : result TaskGenerator :=
  match find_blender (Objects.path_exists disk) which (blender_path cfg) with
  | Raise e => Raise e
  | Ok b =>
      match Objects.load_objects disk package_dir objaverse_load_objects
              (object_list cfg) with
      | Raise e => Raise e
      | Ok objs =>
          Ok (MkTaskGenerator m cfg b objs (mkdtemp (tmp_prefix m))
                (_build_task_config m cfg))
      end
  end.

(** [Image.open(d / name).convert("RGB")] on the job's output directory. *)
Definition open_image (d : dir) (out name : string) : result Image :=
  match d !! name with
  | None => Raise FileNotFoundError
  | Some e =>
      if is_dir e then Raise IsADirectoryError
      else Ok (Image_open (out +:+ "/" +:+ name) "RGB")
  end.

(** [_result_to_pair]; [d] is the content of [result["output_dir"]]. *)
Definition _result_to_pair (self : TaskGenerator) (result : job_result)
    (d : dir) (g : Rng) : Py.result TaskPair * Rng :=
  if negb (r_success result) then
    let blank := Image_new "RGB" (image_size (config self)) (0, 0, 0) in
    match get_prompt (tm self) g with
    | (Raise e, g') => (Raise e, g')
    | (Ok p, g') =>
        (Ok (MkTaskPair (r_task_id result) (domain (config self)) p
               blank blank None), g')
    end
  else
    let out := r_output_dir result in
    match get_prompt (tm self) g with
    | (Raise e, g') => (Raise e, g')
    | (Ok p, g') =>
        match open_image d out "first_frame.png" with
        | Raise e => (Raise e, g')
        | Ok first =>
            match open_image d out "final_frame.png" with
            | Raise e => (Raise e, g')
            | Ok final =>
                (Ok (MkTaskPair (r_task_id result) (domain (config self)) p
                       first final (Some (out +:+ "/ground_truth.mp4"))), g')
            end
        end
    end.

Definition make_args (self : TaskGenerator) (id : string) : job_args :=
  JobArgs id (blender self) (objects self) (_task_cfg self)
    (min_video_size (config self)) (max_retries (config self))
    (timeout (config self)) (_work_dir self).

(** [generate_task_pair]: one job rendered and converted in this process. *)
Definition generate_task_pair (self : TaskGenerator) (sp : subprocess dict)
    (id : string) : M dict TaskPair :=
  result <- _render_one (tm self) sp (make_args self id) ;;
  fun w =>
    let '(r, g) := _result_to_pair self result (fs w) (rng w) in
    (r, World (fs w) g (calls w)).

(** ["{i:06d}"] for [i] in a [range]. *)
Fixpoint zeros (n : nat) : string :=
  match n with
  | O => EmptyString
  | S n' => "0" +:+ zeros n'
  end.

Definition format_06d (i : nat) : string :=
  let s := NilEmpty.string_of_uint (Nat.to_uint i) in
  zeros (6 - String.length s) +:+ s.

(** [f"{self.config.domain}_{i:06d}"]. *)
Definition job_id (self : TaskGenerator) (i : nat) : string :=
  domain (config self) +:+ "_" +:+ format_06d i.

(** A worker process as one job meets it: how the renderer behaves for the
    job, and the job directory and generator state the job starts from. *)
Record worker := Worker {
  w_sp : subprocess dict;
  w_world : world dict;
}.

(** [ex.submit(_render_one, a)] for the [i]-th job: the future holds what
    [_render_one] returns or raises, and the directory the job leaves. *)
Definition submit (self : TaskGenerator) (pool : nat -> worker)
    (i : nat) (a : job_args) : result job_result * world dict :=
  _render_one (tm self) (w_sp (pool i)) a (w_world (pool i)).

(** [as_completed(futs)]: every future once, in the order the scheduling
    [sched] lets them finish. *)
Definition as_completed {A} (futs : list A) (sched : Rng) : list A :=
  fst (sample_loop futs (length futs) sched).

(** The [for fut in as_completed(futs)] loop; progress printing left out. *)
Fixpoint collect (self : TaskGenerator)
    (completed : list (result job_result * world dict))
    (pairs : list TaskPair) (ok fail : Z) (g : Rng)
  : result (list TaskPair * Z * Z) * Rng :=
  match completed with
  | [] => (Ok (pairs, ok, fail), g)
  | (Raise e, _) :: _ => (Raise e, g)
  | (Ok r, w) :: rest =>
      if r_success r then
        match _result_to_pair self r (fs w) g with
        | (Raise e, g') => (Raise e, g')
        | (Ok p, g') => collect self rest (pairs ++ [p]) (ok + 1) fail g'
        end
      else collect self rest pairs ok (fail + 1) g
  end.

(** [_parallel_render]; [ProcessPoolExecutor] raises [ValueError] unless
    [max_workers] is positive. *)
Definition _parallel_render (self : TaskGenerator) (pool : nat -> worker)
    (sched : Rng) (args_list : list job_args) (workers n : Z) (g : Rng)
  : result (list TaskPair) * Rng :=
  if decide (workers <= 0) then (Raise ValueError, g)
  else
    let futs := imap (submit self pool) args_list in
    match collect self (as_completed futs sched) [] 0 0 g with
    | (Raise e, g') => (Raise e, g')
    | (Ok (pairs, _, _), g') => (Ok pairs, g')
    end.

Definition generate_dataset (self : TaskGenerator) (pool : nat -> worker)
    (sched : Rng) (g : Rng) : result (list TaskPair) * Rng :=
  let n := num_samples (config self) in
  let workers := Z.min (workers (config self)) n in
  let args_list :=
    (fun i => make_args self (job_id self i)) <$> seq 0 (Z.to_nat n) in
  _parallel_render self pool sched args_list workers n g.

End Tasks.

(** ** Vocabulary of the properties *)

Module Spec.
Import Renderer.

(** The directory holds regular files only. *)
Definition files_only (d : dir) : Prop :=
  forall name e, d !! name = Some e -> is_dir e = false.

(** [objs] is a draw of [random.sample(all_objects, min(num_objects,
    len(all_objects)))] at some state of the generator: it has that many
    elements, taken at distinct positions of the pool. *)
Definition fresh_draw (all_objects : list string) (num_objects : Z)
    (objs : list string) : Prop :=
  let k := Z.min num_objects (Z.of_nat (length all_objects)) in
  (exists g g', sample all_objects k g = (Ok objs, g')) /\
  length objs = Z.to_nat k /\
  exists rest, (objs ++ rest)%list ≡ₚ all_objects.

(** What the [j]-th launch of a call that started in the world [w] met:
    the launches of a call are numbered from the length of the log, and
    each finds the directory as the cleaning left it, empty. *)
Definition attempt_outcome {T} (sp : subprocess T) (w : world T) (j : nat)
    (c : invocation T) : run_outcome * dir :=
  sp (length (calls w) + j)%nat c ∅.

(** The attempt passes the gate of [render_with_retry]: the launch returned
    true and left a video larger than [min_video_size]. *)
Definition accepted (min_video_size : Z) (x : run_outcome * dir) : bool :=
  render_succeeded (fst x) && video_valid min_video_size (snd x).

(** The subsets that [n] successive calls of [random.sample(pool, k)]
    return from the generator state [g], and the state they leave. *)
Fixpoint redraws (pool : list string) (k : Z) (g : Rng) (n : nat)
  : list (list string) :=
  match n with
  | O => []
  | S n' =>
      match sample pool k g with
      | (Ok objs, g') => objs :: redraws pool k g' n'
      | (Raise _, _) => []
      end
  end.

Fixpoint redrawn (pool : list string) (k : Z) (g : Rng) (n : nat) : Rng :=
  match n with
  | O => g
  | S n' => redrawn pool k (snd (sample pool k g)) n'
  end.

(** The local path that entry [line] of the object list stands for: in
    the path format the entry itself, in the identifier format the
    non-empty path the resolver maps it to, if any. *)
Definition entry_path
    (objaverse_load_objects : list string -> gmap string string)
    (lines : list string) (line : string) : option string :=
  match lines with
  | [] => None
  | sample :: _ =>
      if Objects.is_path_format sample then Some line
      else
        match objaverse_load_objects lines !! line with
        | Some p => if truthy p then Some p else None
        | None => None
        end
  end.

(** The paths [load_objects] tests for existence, in the order of the
    list. *)
Definition candidates
    (objaverse_load_objects : list string -> gmap string string)
    (lines : list string) : list string :=
  omap (entry_path objaverse_load_objects lines) lines.

(** The geometry gate of the importer: the asset at [path] imports to
    meshes with at least four vertices whose bounding box is at least
    one thousandth wide. *)
Definition non_degenerate (import_scene : string -> list BlenderRender.bobject)
    (path : string) : Prop :=
  exists objs v vs,
    BlenderRender.import_object import_scene path = Ok objs /\
    (4 <= BlenderRender.total_verts objs)%nat /\
    objs ≫= BlenderRender.vertices = v :: vs /\
    (1 # 1000 <= BlenderRender.bbox_size v vs)%Q.

(** Reading a string of decimal digits back as a number. *)
Definition decode (s : string) : option nat :=
  Nat.of_uint <$> NilEmpty.uint_of_string s.

(** Job [i] of the generator ran to the end and produced a valid video. *)
Definition job_succeeded (self : Tasks.TaskGenerator)
    (pool : nat -> Tasks.worker) (i : nat) : bool :=
  match fst (Tasks.submit self pool i
               (Tasks.make_args self (Tasks.job_id self i))) with
  | Ok r => Tasks.r_success r
  | Raise _ => false
  end.

(** The job directory holds both keyframes as regular files. *)
Definition has_frames (d : dir) : Prop :=
  exists e1 e2,
    d !! "first_frame.png" = Some e1 /\ is_dir e1 = false /\
    d !! "final_frame.png" = Some e2 /\ is_dir e2 = false.

(** The identifier a finished future contributes to the dataset, if any. *)
Definition success_id (fut : result Tasks.job_result * world Tasks.dict)
  : option string :=
  match fst fut with
  | Ok r => if Tasks.r_success r then Some (Tasks.r_task_id r) else None
  | Raise _ => None
  end.

(** The task module is one of the four of the registry. *)
Definition registered (m : Tasks.task_module) : Prop :=
  m ∈ Tasks.TASK_REGISTRY.*2.

(** The places [find_blender] looks at after the explicit path, and the
    test it applies to each: a non-empty path that exists. *)
Definition blender_candidates (which : option string) : list (option string) :=
  [ Some "/tmp/blender-3.6.0-linux-x64/blender";
    Some "/usr/local/bin/blender";
    Some "/usr/bin/blender";
    which ].

Definition usable_candidate (path_exists : string -> bool)
    (c : option string) : bool :=
  match c with
  | Some p => truthy p && path_exists p
  | None => false
  end.

(** [objs] are [k] elements taken at distinct positions of [pool]. *)
Definition draw_of (pool : list string) (k : nat) (objs : list string) : Prop :=
  length objs = k /\ exists rest, (objs ++ rest)%list ≡ₚ pool.

(** The launches a job added to the log of its worker. *)
Definition launches (self : Tasks.TaskGenerator) (pool : nat -> Tasks.worker)
    (i : nat) : list (invocation Tasks.dict) :=
  drop (length (calls (Tasks.w_world (pool i))))
    (calls (snd (Tasks.submit self pool i
                   (Tasks.make_args self (Tasks.job_id self i))))).

(** The directory job [i] of the generator renders into. *)
Definition job_dir (self : Tasks.TaskGenerator) (i : nat) : string :=
  Tasks._work_dir self +:+ "/" +:+ Tasks.job_id self i.

End Spec.

(** ** Scenarios: concrete renderers, disks and generators *)

Module Scenarios.
Import Renderer Objects BlenderRender Tasks.

Definition counting : Rng := MkRng (fun n => n) 0.
Definition constant : Rng := MkRng (fun _ => 0%nat) 0.

(** A renderer that never finishes in time. *)
Definition always_timeout {T} : subprocess T :=
  fun _ _ d => (TimeoutExpired, d).

Definition rendered (video_size : Z) (d : dir) : dir :=
  <["ground_truth.mp4" := Entry false video_size]>
    (<["first_frame.png" := Entry false 2048]>
       (<["final_frame.png" := Entry false 2048]>
          (<["metadata.json" := Entry false 256]> d))).

Definition success_output : string :=
  "Rendering video... Saving keyframes... RENDER_SUCCESS".

(** A renderer that always writes a full artifact set. *)
Definition always_good {T} : subprocess T :=
  fun _ _ d => (Completed 0 success_output, rendered 120000 d).

(** A renderer that reports success but writes a ten-byte video. *)
Definition always_undersized {T} : subprocess T :=
  fun _ _ d => (Completed 0 success_output, rendered 10 d).

(** Undersized videos on the first two launches, a full one afterwards. *)
Definition third_time_lucky {T} : subprocess T :=
  fun n _ d =>
    if (n <? 2)%nat then (Completed 0 success_output, rendered 10 d)
    else (Completed 0 success_output, rendered 120000 d).

(** A fresh job directory, and one that holds a subdirectory. *)
Definition fresh {T} : world T := World ∅ counting [].
Definition with_subdir {T} : world T :=
  World (<["frames" := Entry true 4096]> ∅) counting [].

Definition pool3 : list string :=
  ["/assets/chair.glb"; "/assets/lamp.glb"; "/assets/flat.glb"].

Definition newline : string := String (Ascii.ascii_of_nat 10) EmptyString.

(** A disk with a path-format object list naming one missing asset. *)
Definition disk_paths : filesystem :=
  <["/data/objects.txt" :=
      File [ "/assets/chair.glb" +:+ newline; newline;
             "/assets/missing.glb" +:+ newline;
             "  /assets/flat.glb " +:+ newline ]]>
    (<["/assets/chair.glb" := File []]>
       (<["/assets/flat.glb" := File []]>
          (<["/usr/bin/blender" := File []]> ∅))).

(** A disk whose object list has blank lines only, and one whose object
    list is a directory. *)
Definition disk_blank : filesystem :=
  <["/data/objects.txt" := File [" " +:+ newline; newline]]> ∅.
Definition disk_directory : filesystem :=
  <["/data/objects.txt" := Directory]> ∅.

Definition no_resolver : list string -> gmap string string := fun _ => ∅.

(** U+00A0, the no-break space, in UTF-8. *)
Definition nbsp : string :=
  String (Ascii.ascii_of_nat 194) (String (Ascii.ascii_of_nat 160) EmptyString).

(** A disk whose object list starts with a path behind a no-break space
    and goes on with an identifier. *)
Definition disk_nbsp : filesystem :=
  <["/data/objects.txt" :=
      File [ nbsp +:+ "/assets/chair.glb" +:+ newline;
             "8476c4170df24cf5bbe6967222d1a42d" +:+ nbsp +:+ newline ]]>
    (<["/assets/chair.glb" := File []]> ∅).

(** Disks whose object list is not text, and whose object list names an
    asset that cannot be examined. *)
Definition disk_binary : filesystem :=
  <["/data/objects.txt" := Undecodable]> ∅.
Definition disk_denied : filesystem :=
  <["/data/objects.txt" :=
      File [ "/assets/chair.glb" +:+ newline;
             "/private/lamp.glb" +:+ newline ]]>
    (<["/assets/chair.glb" := File []]>
       (<["/private/lamp.glb" := NoStat]> ∅)).

(** What the importer finds in the assets: a unit cube, and a single flat
    triangle. *)
Definition cube : list vec :=
  [ (0, 0, 0); (1, 0, 0); (0, 1, 0); (1, 1, 0);
    (0, 0, 1); (1, 0, 1); (0, 1, 1); (1, 1, 1) ]%Q.
Definition triangle : list vec := [ (0, 0, 0); (1, 0, 0); (0, 1, 0) ]%Q.

Definition scene_of (path : string) : list bobject :=
  if String.eqb path "/assets/flat.glb"
  then [BObject "MESH" triangle (0, 0, 0)%Q (1, 1, 1)%Q]
  else [BObject "MESH" cube (0, 0, 0)%Q (1, 1, 1)%Q].

(** A shape-extrapolation generator for [n] samples on [workers]. *)
Definition shape_generator (n workers : Z) : TaskGenerator :=
  let m := shape_extrapolation in
  let cfg :=
    MkTaskConfig n (task_type m) (1024, 1024) 16 4 (scene_defaults m)
      workers None 600 50000 3 None in
  MkTaskGenerator m cfg "/usr/bin/blender" pool3 "/tmp/shape_extrap_0"
    (_build_task_config m cfg).

(** Worker pools: every job times out; every job renders; odd jobs time
    out. *)
Definition pool_timeout : nat -> worker :=
  fun _ => Worker always_timeout fresh.
Definition pool_good : nat -> worker :=
  fun _ => Worker always_good fresh.
Definition pool_mixed : nat -> worker :=
  fun i => if Nat.even i then Worker always_good fresh
           else Worker always_timeout fresh.

(** The job configuration of a shape-extrapolation generator, and one
    whose scales hold a number [json.dumps] rejects. *)
Definition orbit_cfg : dict :=
  _build_task_config shape_extrapolation
    (default_config shape_extrapolation 1).
Definition numpy_cfg : dict :=
  (orbit_cfg ++ [("object_scales", VList [VFloat (3 # 2); VObject])])%list.

(** A renderer whose launch is interrupted from the keyboard. *)
Definition always_interrupted {T} : subprocess T :=
  fun _ _ d => (Interrupted, d).

(** A generator of the module [m] on the pool [objs]. *)
Definition generator_on (m : task_module) (objs : list string)
    (n workers : Z) : TaskGenerator :=
  let cfg :=
    MkTaskConfig n (task_type m) (1024, 1024) 16 4 (scene_defaults m)
      workers None 600 50000 3 None in
  MkTaskGenerator m cfg "/usr/bin/blender" objs "/tmp/work_0"
    (_build_task_config m cfg).

(** A resolver that knows one identifier. *)
Definition one_resolver : list string -> gmap string string :=
  fun _ => {[ "8476c4170df24cf5bbe6967222d1a42d" := "/assets/lamp.glb" ]}.

(** The assets again, with one file that holds lights and no mesh. *)
Definition scene_with_gap (path : string) : list bobject :=
  if String.eqb path "/assets/lights.glb" then [] else scene_of path.

End Scenarios.


(** * Properties of the orchestration core *)

Import Renderer Spec.

(** ** Strings *)

Lemma app_cons (c : Ascii.ascii) (s t : string) :
  String c s +:+ t = String c (s +:+ t).
Proof. reflexivity. Qed.

Lemma prefix_app (pat s : string) :
  String.prefix pat s = true <-> exists post, s = pat +:+ post.
Proof.
  revert s. induction pat as [|a pat IH]; intros s; simpl.
  - destruct s; split; eauto.
  - destruct s as [|b s]; simpl.
    + split; [discriminate | intros [post H]; discriminate].
    + destruct (Ascii.ascii_dec a b) as [->|Hne].
      * rewrite IH.
        split; intros [post H]; exists post; rewrite app_cons in *; congruence.
      * split; [discriminate|].
        intros [post H]. rewrite app_cons in H. congruence.
Qed.

(** [contains] decides the occurrence of [pat] somewhere inside [s]. *)
Lemma contains_spec (pat s : string) :
  contains pat s = true <-> exists pre post, s = pre +:+ pat +:+ post.
Proof.
  induction s as [|c s IH].
  - change (contains pat "") with (String.prefix pat "" || false).
    rewrite orb_false_r, prefix_app. split.
    + intros [post H]. exists EmptyString, post. exact H.
    + intros [pre [post H]]. destruct pre; [eauto | discriminate].
  - change (contains pat (String c s))
      with (String.prefix pat (String c s) || contains pat s).
    rewrite orb_true_iff, prefix_app, IH. split.
    + intros [[post H] | [pre [post H]]].
      * exists EmptyString, post. exact H.
      * exists (String c pre), post. rewrite app_cons. congruence.
    + intros [pre [post H]]. destruct pre as [|c' pre].
      * left. eauto.
      * right. exists pre, post. rewrite app_cons in H. congruence.
Qed.

(** ** Sampling *)

(** [sample_loop] returns [k] elements taken at distinct positions of the
    pool: what it returns, together with what it left, is the pool. *)
Lemma sample_loop_spec {A} (k : nat) (pool : list A) (g : Rng) :
  (k <= length pool)%nat ->
  length (fst (sample_loop pool k g)) = k /\
  exists rest, (fst (sample_loop pool k g) ++ rest)%list ≡ₚ pool.
Proof.
  revert pool g. induction k as [|k IH]; intros pool g Hk; simpl.
  - split; [done|]. exists pool. done.
  - assert (Hj : (tape g (cursor g) mod length pool < length pool)%nat)
      by (apply Nat.mod_upper_bound; lia).
    destruct (lookup_lt_is_Some_2 pool _ Hj) as [x Hx]. rewrite Hx.
    destruct (IH (delete (tape g (cursor g) mod length pool)%nat pool)
                (MkRng (tape g) (S (cursor g)))) as [Hlen [rest Hperm]].
    { rewrite length_delete by eauto. lia. }
    destruct (sample_loop _ k _) as [xs g'']. simpl in *.
    split; [lia|]. exists rest.
    rewrite Hperm. symmetry. by apply delete_Permutation.
Qed.

(** [random.sample] succeeds exactly on [0 <= k <= len(population)], and
    then returns [k] elements from distinct positions of the population. *)
Lemma sample_spec {A} (population : list A) (k : Z) (g : Rng) :
  0 <= k <= Z.of_nat (length population) ->
  exists xs g',
    sample population k g = (Ok xs, g') /\
    length xs = Z.to_nat k /\
    exists rest, (xs ++ rest)%list ≡ₚ population.
Proof.
  intros Hk. unfold sample. rewrite decide_True by done.
  destruct (sample_loop_spec (Z.to_nat k) population g) as [Hlen Hperm];
    [lia|].
  destruct (sample_loop population (Z.to_nat k) g) as [xs g'].
  exists xs, g'. done.
Qed.

Lemma sample_negative {A} (population : list A) (k : Z) (g : Rng) :
  k < 0 -> sample population k g = (Raise ValueError, g).
Proof. intros Hk. unfold sample. rewrite decide_False by lia. done. Qed.

(** Sampling all of a list lists it in some order. *)
Lemma sample_loop_all {A} (l : list A) (g : Rng) :
  fst (sample_loop l (length l) g) ≡ₚ l.
Proof.
  destruct (sample_loop_spec (length l) l g) as [Hlen [rest Hperm]]; [lia|].
  assert (rest = []) as ->.
  { apply Permutation_length in Hperm. rewrite length_app in Hperm.
    destruct rest; [done | simpl in Hperm; lia]. }
  by rewrite app_nil_r in Hperm.
Qed.

Section RendererFacts.

Context {T : Type} `{!Serialisable T}.
Variable sp : subprocess T.

(** ** [render_video_task] *)

(** C4 (amended): a configuration that [json.dumps] rejects makes
    [render_video_task] raise before anything is launched.  With a
    configuration it accepts, the renderer is launched once, and the call
    returns true exactly when the process exited with return code 0 and
    its standard output contains the sentinel; it returns false on a
    timeout, on any other [Exception], on a non-zero return code and on a
    missing sentinel.  It then raises only when the launch is interrupted
    by an exception that is not an [Exception]. *)
Theorem render_video_task_sentinel
    (blender_path : string) (cfg : T) (object_paths : list string)
    (output_dir : string) (timeout : Z) (w : world T) :
  let cmd := Invocation blender_path cfg object_paths output_dir timeout in
  let o := fst (sp (length (calls w)) cmd (fs w)) in
  let res :=
    render_video_task sp blender_path cfg object_paths output_dir timeout w in
  match json_error cfg with
  | Some e => res = (Raise e, w)
  | None =>
      calls (snd res) = (calls w ++ [cmd])%list /\
      (fst res = Ok true <->
         exists stdout pre post,
           o = Completed 0 stdout /\
           stdout = pre +:+ "RENDER_SUCCESS" +:+ post) /\
      (o = TimeoutExpired \/ o = OtherException -> fst res = Ok false) /\
      (forall rc stdout,
         o = Completed rc stdout -> rc <> 0 -> fst res = Ok false) /\
      (forall rc stdout,
         o = Completed rc stdout ->
         contains "RENDER_SUCCESS" stdout = false -> fst res = Ok false) /\
      (o <> Interrupted -> exists b, fst res = Ok b) /\
      (forall e, fst res = Raise e <-> o = Interrupted /\ e = KeyboardInterrupt)
  end.
Proof.
  intros cmd o res. subst res. unfold render_video_task.
  destruct (json_error cfg); [reflexivity|]. fold cmd. subst o.
  destruct (sp (length (calls w)) cmd (fs w)) as [o d]. cbv zeta.
  destruct o as [rc out| | |]; cbn [fst snd calls render_succeeded].
  - split; [reflexivity|]. split.
    { split.
      - intros [= Hb]. apply andb_true_iff in Hb as [Hrc Hc].
        apply Z.eqb_eq in Hrc as ->.
        apply contains_spec in Hc as (pre & post & ->). eauto.
      - intros (stdout & pre & post & Heq & Hs). injection Heq as -> ->.
        f_equal. apply andb_true_iff. split; [done|].
        apply contains_spec. eauto. }

    split; [intros [?|?]; discriminate|].
    split.
    { intros rc' stdout [= -> ->] Hrc.
      by destruct (Z.eqb_spec rc' 0). }
    split.
    { intros rc' stdout [= -> ->] Hc. by rewrite Hc, andb_false_r. }
    split; [eauto|].
    intros e. split; [discriminate | intros [? _]; discriminate].
  - split; [reflexivity|].
    split; [split; [discriminate | intros (? & ? & ? & ? & _); discriminate]|].
    split; [done|]. do 2 (split; [discriminate|]). split; [eauto|].
    intros e. split; [discriminate | intros [? _]; discriminate].
  - split; [reflexivity|].
    split; [split; [discriminate | intros (? & ? & ? & ? & _); discriminate]|].
    split; [done|]. do 2 (split; [discriminate|]). split; [eauto|].
    intros e. split; [discriminate | intros [? _]; discriminate].
  - split; [reflexivity|].
    split; [split; [discriminate | intros (? & ? & ? & ? & _); discriminate]|].
    split; [intros [?|?]; discriminate|].
    do 2 (split; [discriminate|]). split; [done|].
    intros e. split; [by intros [= <-] | by intros [_ ->]].
Qed.

(** ** The state touched by each step of the retry loop *)

Lemma unlink_all_frame (names : list string) (w w' : world T) r :
  unlink_all names w = (r, w') -> calls w' = calls w /\ rng w' = rng w.
Proof.
  revert w. induction names as [|f names IH]; intros w; simpl.
  - unfold ret. intros [= <- <-]. done.
  - unfold bind, unlink.
    destruct (fs w !! f) as [e|]; [|intros [= <- <-]; done].
    destruct (is_dir e); [intros [= <- <-]; done|].
    intros H. apply IH in H. exact H.
Qed.

Lemma clean_frame (w w' : world T) r :
  clean w = (r, w') -> calls w' = calls w /\ rng w' = rng w.
Proof. apply unlink_all_frame. Qed.

Lemma with_rng_frame {A} (f : Rng -> result A * Rng) (w w' : world T) r :
  with_rng f w = (r, w') -> calls w' = calls w /\ fs w' = fs w.
Proof.
  unfold with_rng. destruct (f (rng w)) as [r0 g]. intros [= <- <-]. done.
Qed.

Lemma next_objects_frame all_objects num_objects max_retries attempt
    current_objs (w w' : world T) r :
  next_objects all_objects num_objects max_retries attempt current_objs w
    = (r, w') ->
  calls w' = calls w /\ fs w' = fs w.
Proof.
  unfold next_objects.
  destruct ((attempt <? max_retries - 1) && nonempty all_objects).
  - apply with_rng_frame.
  - unfold ret. intros [= <- <-]. done.
Qed.

(** ** Cleaning the output directory *)

Lemma files_only_empty : files_only ∅.
Proof. intros name e H. rewrite lookup_empty in H. discriminate. Qed.

Lemma unlink_all_ok (names : list string) (w : world T) :
  NoDup names ->
  (forall n, n ∈ names -> exists e, fs w !! n = Some e /\ is_dir e = false) ->
  exists w',
    unlink_all names w = (Ok tt, w') /\
    calls w' = calls w /\ rng w' = rng w /\
    forall x, fs w' !! x = if decide (x ∈ names) then None else fs w !! x.
Proof.
  revert w. induction names as [|f names IH]; intros w Hnd Hin.
  - exists w. do 3 (split; [done|]).
    intros x. destruct (decide (x ∈ [])) as [Hx|]; [|done].
    by apply elem_of_nil in Hx.
  - apply NoDup_cons in Hnd as [Hf Hnd].
    destruct (Hin f) as (e & He & Hfile); [by left|].
    simpl. unfold bind at 1. unfold unlink. rewrite He, Hfile.
    destruct (IH (World (delete f (fs w)) (rng w) (calls w)) Hnd)
      as (w' & Hrun & Hcalls & Hrng & Hfs).
    { intros n Hn. simpl. rewrite lookup_delete_ne; [|set_solver].
      apply Hin. by right. }
    exists w'. do 3 (split; [done|]). intros x. rewrite Hfs. simpl.
    destruct (decide (x ∈ names)) as [Hx|Hx].
    + rewrite decide_True; [done | by right].
    + destruct (decide (x = f)) as [->|Hne].
      * rewrite decide_True by (by left). apply lookup_delete_eq.
      * rewrite decide_False by (intros [?|?]%elem_of_cons; done).
        by apply lookup_delete_ne.
Qed.

(** Cleaning a directory of regular files succeeds and empties it. *)
Lemma clean_ok (w : world T) :
  files_only (fs w) ->
  clean w = (Ok tt, World ∅ (rng w) (calls w)).
Proof.
  intros Hfiles. unfold clean.
  destruct (unlink_all_ok ((map_to_list (fs w)).*1) w)
    as (w' & Hrun & Hcalls & Hrng & Hfs).
  - apply NoDup_fst_map_to_list.
  - intros n Hn. apply list_elem_of_fmap in Hn as [[n' e] [-> Hn]].
    apply elem_of_map_to_list in Hn. exists e. split; [done|]. eauto.
  - rewrite Hrun. f_equal. destruct w' as [d g c]. simpl in *. subst.
    f_equal. apply map_eq. intros x. rewrite Hfs, lookup_empty.
    destruct (decide _) as [|Hx]; [done|].
    destruct (fs w !! x) as [e|] eqn:He; [|done]. exfalso. apply Hx.
    apply list_elem_of_fmap. exists (x, e). split; [done|].
    by apply elem_of_map_to_list.
Qed.

(** A directory that holds a subdirectory cannot be cleaned. *)
Lemma clean_raises (w : world T) name e :
  fs w !! name = Some e -> is_dir e = true ->
  exists w', clean w = (Raise IsADirectoryError, w').
Proof.
  intros He Hd. unfold clean.
  assert (Hin : name ∈ (map_to_list (fs w)).*1).
  { apply list_elem_of_fmap. exists (name, e). split; [done|].
    by apply elem_of_map_to_list. }
  assert (Hall : forall n, n ∈ (map_to_list (fs w)).*1 -> is_Some (fs w !! n)).
  { intros n Hn. apply list_elem_of_fmap in Hn as [[n' e'] [-> Hn]].
    apply elem_of_map_to_list in Hn. eauto. }
  assert (Hnd : NoDup (map_to_list (fs w)).*1)
    by apply NoDup_fst_map_to_list.
  revert Hin Hall Hnd. generalize ((map_to_list (fs w)).*1) as names.
  intros names. revert w He.
  induction names as [|f names IH]; intros w He Hin Hall Hnd.
  - by apply elem_of_nil in Hin.
  - apply NoDup_cons in Hnd as [Hf Hnd].
    simpl. unfold bind at 1. unfold unlink.
    destruct (Hall f) as [e' He']; [by left|]. rewrite He'.
    destruct (is_dir e') eqn:Hd'; [eauto|].
    apply elem_of_cons in Hin as [->|Hin]; [congruence|].
    apply IH; simpl; try done.
    + rewrite lookup_delete_ne; [done | set_solver].
    + intros n Hn. rewrite lookup_delete_ne; [|set_solver].
      apply Hall. by right.
Qed.

(** The cleaning returns exactly on a directory of regular files. *)
Lemma clean_inv (w w1 : world T) u :
  clean w = (Ok u, w1) ->
  files_only (fs w) /\ w1 = World ∅ (rng w) (calls w).
Proof.
  intros Hc.
  assert (Hfiles : files_only (fs w)).
  { intros name e He. destruct (is_dir e) eqn:Hd; [|done].
    destruct (clean_raises w name e He Hd) as [w' Hr]. congruence. }
  split; [done|]. rewrite (clean_ok w Hfiles) in Hc. congruence.
Qed.

Lemma nonempty_true {A} (l : list A) : l <> [] -> nonempty l = true.
Proof. by destruct l. Qed.

Lemma video_valid_iff (min_video_size : Z) (d : dir) :
  video_valid min_video_size d = true <->
  exists e, d !! "ground_truth.mp4" = Some e /\ min_video_size < st_size e.
Proof.
  unfold video_valid. destruct (d !! "ground_truth.mp4") as [e|].
  - rewrite Z.ltb_lt. split; [eauto|]. by intros [e' [[= <-] H]].
  - split; [discriminate | by intros [e' [? _]]].
Qed.

(** One pass through the loop body, spelled out. *)
Lemma retry_loop_step blender_path cfg all_objects output_dir
    num_objects min_video_size max_retries timeout
    attempt rest current_objs (w : world T) :
  retry_loop sp blender_path cfg all_objects output_dir num_objects
    min_video_size max_retries timeout (attempt :: rest) current_objs w
  = match clean w with
    | (Raise e, w1) => (Raise e, w1)
    | (Ok _, w1) =>
        match json_error cfg with
        | Some e => (Raise e, w1)
        | None =>
            let cmd := Invocation blender_path cfg current_objs output_dir
                         timeout in
            let '(o, d) := sp (length (calls w1)) cmd (fs w1) in
            let w2 := World d (rng w1) (calls w1 ++ [cmd]) in
            if interrupted o then (Raise KeyboardInterrupt, w2)
            else if render_succeeded o && video_valid min_video_size d
            then (Ok true, w2)
            else
              match next_objects all_objects num_objects max_retries
                      attempt current_objs w2 with
              | (Raise e, w3) => (Raise e, w3)
              | (Ok objs, w3) =>
                  retry_loop sp blender_path cfg all_objects output_dir
                    num_objects min_video_size max_retries timeout rest
                    objs w3
              end
        end
    end.
Proof.
  simpl. unfold bind at 1. destruct (clean w) as [[[]|e] w1]; [|reflexivity].
  unfold bind at 1. unfold render_video_task.
  destruct (json_error cfg); [reflexivity|].
  destruct (sp (length (calls w1)) _ (fs w1)) as [o d].
  destruct o as [rc out| | |]; cbn [interrupted render_succeeded fs];
    try reflexivity;
    destruct (_ && video_valid min_video_size d); reflexivity.
Qed.

(** ** [render_with_retry] *)

Section Retry.

Variables (blender_path : string) (cfg : T).
Variables (object_paths all_objects : list string) (output_dir : string).
Variables (num_objects min_video_size max_retries timeout : Z).

Let run :=
  render_with_retry sp blender_path cfg object_paths all_objects output_dir
    num_objects min_video_size.

Let loop :=
  retry_loop sp blender_path cfg all_objects output_dir num_objects
    min_video_size max_retries timeout.

(** C10: with [max_retries = 0] the function returns [False] and leaves the
    world as it found it: the renderer is not launched (the launch log is
    unchanged) and no entry of the output directory is deleted. *)
Theorem render_with_retry_zero_retries (w : world T) :
  run 0 timeout w = (Ok false, w) /\
  calls (snd (run 0 timeout w)) = calls w /\
  fs (snd (run 0 timeout w)) = fs w.
Proof. subst run. done. Qed.

Lemma next_objects_ok attempt current_objs (w : world T) :
  0 <= num_objects ->
  exists objs w',
    next_objects all_objects num_objects max_retries attempt current_objs w
      = (Ok objs, w') /\
    fs w' = fs w /\ calls w' = calls w.
Proof.
  intros Hnum. unfold next_objects.
  destruct ((attempt <? max_retries - 1) && nonempty all_objects).
  - unfold with_rng.
    destruct (sample_spec all_objects
                (Z.min num_objects (Z.of_nat (length all_objects))) (rng w))
      as (xs & g' & Hs & _); [lia|].
    rewrite Hs. eauto.
  - unfold ret. eauto.
Qed.

(** How one pass of the loop can end: before anything is launched, when
    the directory cannot be cleaned or the configuration cannot be
    serialised; with the launch, when it is interrupted or accepted; after
    it, in the redraw or in the passes that follow. *)
Lemma retry_loop_inv attempt rest current_objs (w w' : world T) r :
  loop (attempt :: rest) current_objs w = (r, w') ->
  let cmd := Invocation blender_path cfg current_objs output_dir timeout in
  let x := sp (length (calls w)) cmd ∅ in
  let w2 := World (snd x) (rng w) (calls w ++ [cmd]) in
  (exists e, r = Raise e /\ calls w' = calls w /\ rng w' = rng w /\
             (files_only (fs w) -> json_error cfg = Some e)) \/
  (files_only (fs w) /\ json_error cfg = None /\
   ((interrupted (fst x) = true /\ r = Raise KeyboardInterrupt /\ w' = w2) \/
    (interrupted (fst x) = false /\ accepted min_video_size x = true /\
     r = Ok true /\ w' = w2) \/
    (interrupted (fst x) = false /\ accepted min_video_size x = false /\
     match next_objects all_objects num_objects max_retries attempt
             current_objs w2 with
     | (Raise e, w3) => r = Raise e /\ w' = w3
     | (Ok objs, w3) => loop rest objs w3 = (r, w')
     end))).
Proof.
  subst loop. intros H. rewrite retry_loop_step in H.
  destruct (clean w) as [[u|e] w1] eqn:Hc.
  - apply clean_inv in Hc as [Hfiles ->]. cbn [calls fs rng] in H.
    destruct (json_error cfg) as [e|] eqn:Hj.
    { injection H as <- <-. left. exists e. simpl. auto. }
    right. do 2 (split; [done|]). cbv zeta in H |- *.
    destruct (sp (length (calls w)) _ ∅) as [o d]. unfold accepted.
    cbn [fst snd].
    destruct (interrupted o); [injection H as <- <-; by left|].
    right. destruct (render_succeeded o && video_valid min_video_size d).
    { injection H as <- <-. by left. }
    right. do 2 (split; [done|]).
    destruct (next_objects _ _ _ _ _ _) as [[objs|e] w3]; [done|].
    by injection H as <- <-.
  - injection H as <- <-. left. exists e.
    pose proof Hc as Hf. apply clean_frame in Hf as [? ?].
    do 3 (split; [done|]). intros Hfiles.
    rewrite (clean_ok w Hfiles) in Hc. discriminate.
Qed.

(** Every pass launches the renderer at most once, and launches are only
    ever appended to the log. *)
Lemma retry_loop_launches attempts current_objs (w w' : world T) r :
  loop attempts current_objs w = (r, w') ->
  exists new,
    calls w' = (calls w ++ new)%list /\
    (length new <= length attempts)%nat /\
    (r = Ok false -> length new = length attempts) /\
    (r = Ok true -> new <> []).
Proof.
  revert current_objs w. induction attempts as [|a rest IH]; intros objs w.
  - subst loop. simpl. unfold ret. intros [= <- <-]. exists [].
    rewrite app_nil_r. done.
  - intros H. apply retry_loop_inv in H. cbv zeta in H.
    destruct H as [(e & -> & Hc & _) |
                   (_ & _ & [(_ & -> & ->) |
                             [(_ & _ & -> & ->) | (_ & _ & H)]])].
    + exists []. rewrite app_nil_r. split; [done|].
      split; [simpl; lia|]. split; discriminate.
    + eexists [_]. simpl. split; [done|]. split; [lia|]. split; discriminate.
    + eexists [_]. simpl. split; [done|]. split; [lia|]. split; done.
    + destruct (next_objects _ _ _ _ _ _) as [[objs'|e] w3] eqn:Hn;
        apply next_objects_frame in Hn as [Hn _]; simpl in Hn.
      * apply IH in H as (new & Hcalls & Hlen & Hfalse & _).
        eexists (_ :: new). rewrite Hcalls, Hn, <- app_assoc. simpl.
        split; [done|]. split; [lia|]. split; [|done].
        intros Hr. rewrite (Hfalse Hr). done.
      * destruct H as [-> ->]. eexists [_]. rewrite Hn.
        split; [done|]. split; [simpl; lia|]. split; discriminate.
Qed.

Lemma retry_loop_returns attempts current_objs (w : world T) :
  files_only (fs w) ->
  (forall n c, files_only (snd (sp n c ∅))) ->
  (forall n c, interrupted (fst (sp n c ∅)) = false) ->
  json_error cfg = None ->
  0 <= num_objects ->
  exists b w', loop attempts current_objs w = (Ok b, w').
Proof.
  intros Hfs Hsp Hint Hj Hnum. subst loop. revert current_objs w Hfs.
  induction attempts as [|a rest IH]; intros objs w Hfs.
  - simpl. unfold ret. eauto.
  - rewrite retry_loop_step, clean_ok, Hj by done. simpl fs. simpl calls.
    cbv zeta.
    match goal with
    | |- context [sp ?n ?c ∅] =>
        pose proof (Hsp n c) as Hd; pose proof (Hint n c) as Hi;
        destruct (sp n c ∅) as [o d]
    end.
    simpl in Hd, Hi. rewrite Hi.
    destruct (render_succeeded o && video_valid min_video_size d); [eauto|].
    match goal with
    | |- context [next_objects _ _ _ a objs ?w2] =>
        destruct (next_objects_ok a objs w2 Hnum)
          as (objs' & w3 & Hn & Hfs3 & _)
    end.
    rewrite Hn. apply IH. rewrite Hfs3. exact Hd.
Qed.

(** C6 (amended): when the configuration can be serialised, the output
    directory holds only regular files, the renderer leaves only regular
    files in the directory it was launched on and its launch is never
    interrupted by an exception outside [Exception], and [num_objects] is
    not negative, [render_with_retry] returns a boolean and does not
    raise, whatever else the renderer does. *)
Theorem render_with_retry_returns_bool (w : world T) :
  json_error cfg = None ->
  files_only (fs w) ->
  (forall n c, files_only (snd (sp n c ∅))) ->
  (forall n c, interrupted (fst (sp n c ∅)) = false) ->
  0 <= num_objects ->
  exists b w', run max_retries timeout w = (Ok b, w').
Proof. intros. subst run. by apply retry_loop_returns. Qed.

Lemma attempt_outcome_shift (w w3 : world T) c0 j c :
  calls w3 = (calls w ++ [c0])%list ->
  attempt_outcome sp w3 j c = attempt_outcome sp w (S j) c.
Proof.
  intros Hc. unfold attempt_outcome. rewrite Hc, length_app. simpl.
  f_equal. lia.
Qed.

(** The launches of the loop, one by one: a launch passes the gate exactly
    when it is the last one and the loop returned [True]; after a launch
    that did not pass it the loop goes on to the next attempt, if there is
    one, unless it raises; and once every attempt was made and the last
    one ended without passing the gate, the loop has returned [False]. *)
Lemma retry_loop_trace n i current_objs (w w' : world T) r :
  (n = 0%nat \/ Z.of_nat (i + n) = max_retries) ->
  loop (Z.of_nat <$> seq i n) current_objs w = (r, w') ->
  exists new,
    calls w' = (calls w ++ new)%list /\
    (length new <= n)%nat /\
    (forall j c, new !! j = Some c ->
       (accepted min_video_size (attempt_outcome sp w j c) = true <->
        r = Ok true /\ S j = length new)) /\
    (r = Ok true -> new <> []) /\
    (r = Ok false -> length new = n) /\
    (length new = n ->
     (forall c, last new = Some c ->
        interrupted (fst (attempt_outcome sp w (length new - 1) c)) = false /\
        accepted min_video_size (attempt_outcome sp w (length new - 1) c)
        = false) ->
     r = Ok false) /\
    (forall j c, new !! j = Some c ->
       accepted min_video_size (attempt_outcome sp w j c) = false ->
       (S j < n)%nat ->
       is_Some (new !! S j) \/ exists e, r = Raise e).
Proof.
  revert i current_objs w. induction n as [|n IH]; intros i objs w Hk.
  { subst loop. simpl. unfold ret. intros [= <- <-]. exists [].
    rewrite app_nil_r. split; [done|]. split; [done|].
    split; [intros j c Hj; by rewrite lookup_nil in Hj|].
    split; [discriminate|]. split; [done|]. split; [done|].
    intros j c Hj. by rewrite lookup_nil in Hj. }
  destruct Hk as [Hk|Hk]; [discriminate|].
  change (Z.of_nat <$> seq i (S n))
    with (Z.of_nat i :: (Z.of_nat <$> seq (S i) n)).
  intros H. apply retry_loop_inv in H. cbv zeta in H.
  set (cmd := Invocation blender_path cfg objs output_dir timeout) in *.
  assert (Hx : sp (length (calls w)) cmd ∅ = attempt_outcome sp w 0 cmd).
  { unfold attempt_outcome. by rewrite Nat.add_0_r. }
  rewrite Hx in H. clear Hx.
  assert (Hone : forall j c,
            [cmd] !! j = Some c -> j = 0%nat /\ c = cmd).
  { intros [|j] c Hj; [by injection Hj as <-|].
    simpl in Hj. by rewrite lookup_nil in Hj. }
  destruct H as [(e & -> & Hc & _) |
                 (_ & _ & [(Hint & -> & ->) |
                           [(Hint & Hacc & -> & ->) | (Hint & Hacc & H)]])].
  - exists []. rewrite app_nil_r. split; [done|]. split; [simpl; lia|].
    split; [intros j c Hj; by rewrite lookup_nil in Hj|].
    split; [discriminate|]. split; [discriminate|].
    split; [simpl; lia|].
    intros j c Hj. by rewrite lookup_nil in Hj.
  - (* the launch was interrupted *)
    assert (Hno : accepted min_video_size (attempt_outcome sp w 0 cmd)
                  = false).
    { unfold accepted. destruct (fst (attempt_outcome sp w 0 cmd));
        done. }
    exists [cmd]. split; [done|]. split; [simpl; lia|].
    split.
    { intros j c [-> ->]%Hone. rewrite Hno.
      split; [discriminate | intros [? _]; discriminate]. }
    split; [discriminate|]. split; [discriminate|].
    split.
    { intros _ Hlast. destruct (Hlast cmd eq_refl) as [Hi _].
      simpl in Hi. congruence. }
    intros j c _ _ _. right. eauto.
  - (* the launch was accepted *)
    exists [cmd]. split; [done|]. split; [simpl; lia|].
    split.
    { intros j c [-> ->]%Hone. rewrite Hacc. done. }
    split; [done|]. split; [discriminate|].
    split.
    { intros _ Hlast. destruct (Hlast cmd eq_refl) as [_ Ha].
      simpl in Ha. congruence. }
    intros j c [-> ->]%Hone Ha. congruence.
  - destruct (next_objects _ _ _ _ _ _) as [[objs'|e] w3] eqn:Hn.
    + (* the loop goes on *)
      pose proof Hn as Hf. apply next_objects_frame in Hf as [Hf _].
      simpl in Hf.
      pose proof H as Hnext.
      apply IH in H as (new & Hcalls & Hlen & Hgate & Htrue & Hfalse &
                        Hall & Hretry); [|right; lia].
      exists (cmd :: new). rewrite Hcalls, Hf, <- app_assoc.
      split; [done|]. split; [simpl; lia|].
      split.
      { intros [|j] c Hj.
        - injection Hj as <-. rewrite Hacc. split; [discriminate|].
          intros [Hr Hl]. exfalso. simpl in Hl.
          destruct new; [by apply Htrue|]. simpl in Hl. lia.

        - simpl in Hj. rewrite <- (attempt_outcome_shift w w3 cmd) by done.
          rewrite (Hgate j c Hj). simpl. split; intros [? ?]; split; auto. }
      split; [done|]. split; [intros Hr; simpl; by rewrite Hfalse|].
      split.
      { intros Hl Hlast. simpl in Hl.
        destruct n as [|n].
        { subst loop. simpl in Hnext. unfold ret in Hnext. congruence. }
        destruct new as [|c0 new0]; [simpl in Hl; lia|].
        apply Hall; [lia|]. intros c Hc.
        rewrite (attempt_outcome_shift w w3 cmd) by done.
        replace (S (length (c0 :: new0) - 1))
          with (length (cmd :: c0 :: new0) - 1)%nat by (simpl; lia).
        apply Hlast. exact Hc. }
      intros [|j] c Hj Ha Hlt.
      * destruct r as [[]|e].
        -- left. destruct new; [by destruct Htrue|]. simpl. eauto.
        -- left. destruct new; [|simpl; eauto].
           specialize (Hfalse eq_refl). simpl in Hfalse. lia.
        -- right. eauto.
      * simpl in Hj. simpl.
        rewrite <- (attempt_outcome_shift w w3 cmd) in Ha by done.
        apply (Hretry j c Hj Ha). lia.
    + (* the redraw raised *)
      destruct H as [-> ->].
      pose proof Hn as Hf. apply next_objects_frame in Hf as [Hf _].
      simpl in Hf.
      exists [cmd]. split; [done|]. split; [simpl; lia|].
      split.
      { intros j c [-> ->]%Hone. rewrite Hacc.
        split; [discriminate | intros [? _]; discriminate]. }
      split; [discriminate|]. split; [discriminate|].
      split.
      { intros Hl _. simpl in Hl. exfalso. unfold next_objects in Hn.
        destruct (Z.ltb_spec (Z.of_nat i) (max_retries - 1)); [lia|].
        simpl in Hn. discriminate. }
      intros j c _ _ _. right. eauto.
Qed.

Lemma range_seq : range max_retries = Z.of_nat <$> seq 0 (Z.to_nat max_retries).
Proof. reflexivity. Qed.

Lemma range_bound :
  Z.to_nat max_retries = 0%nat \/
  Z.of_nat (0 + Z.to_nat max_retries) = max_retries.
Proof. destruct (Z.to_nat max_retries) eqn:Hm; [by left | right; lia]. Qed.

(** C3: an attempt is accepted exactly when the launch returned true, the
    file [ground_truth.mp4] exists in the output directory and its size
    exceeds [min_video_size].  This holds of every attempt of a call: a
    launch passes this gate if and only if the call returns [True] and the
    launch is its last one.  After a launch that did not pass it, also one
    whose subprocess reported success, the renderer is launched again when
    an attempt remains, unless the call raises. *)
Theorem attempt_gate (w : world T) :
  let res := run max_retries timeout w in
  exists new,
    calls (snd res) = (calls w ++ new)%list /\
    (fst res = Ok true -> new <> []) /\
    forall j c,
      new !! j = Some c ->
      let x := attempt_outcome sp w j c in
      (accepted min_video_size x = true <->
         render_succeeded (fst x) = true /\
         exists e, snd x !! "ground_truth.mp4" = Some e /\
                   min_video_size < st_size e) /\
      (accepted min_video_size x = true <->
         fst res = Ok true /\ S j = length new) /\
      (accepted min_video_size x = false ->
       (S j < Z.to_nat max_retries)%nat ->
       is_Some (new !! S j) \/ exists e, fst res = Raise e).
Proof.
  intros res. subst res run. unfold render_with_retry. rewrite range_seq.
  destruct (retry_loop _ _ _ _ _ _ _ _ _ _ _ w) as [r w'] eqn:Hl.
  apply retry_loop_trace in Hl
    as (new & Hcalls & _ & Hgate & Htrue & _ & _ & Hretry);
    [|apply range_bound].
  exists new. split; [exact Hcalls|]. split; [exact Htrue|].
  intros j c Hj. cbv zeta. split; [|split].
  - unfold accepted. by rewrite andb_true_iff, video_valid_iff.

  - by apply Hgate.
  - by apply Hretry.
Qed.

(** The objects of every launch: the first launch of the loop uses the
    current objects, every later one a fresh draw from the pool. *)
Lemma retry_loop_draws k i current_objs (w w' : world T) r :
  (k = 0%nat \/ Z.of_nat (i + k) = max_retries) ->
  all_objects <> [] -> 0 <= num_objects ->
  loop (Z.of_nat <$> seq i k) current_objs w = (r, w') ->
  exists new,
    calls w' = (calls w ++ new)%list /\
    match new with
    | [] => True
    | c :: rest =>
        inv_objects c = current_objs /\
        Forall (fun c => fresh_draw all_objects num_objects (inv_objects c))
          rest
    end.
Proof.
  intros Hk Hpool Hnum. revert i current_objs w Hk.
  induction k as [|k IH]; intros i objs w Hk.
  - subst loop. simpl. unfold ret. intros [= <- <-]. exists [].
    by rewrite app_nil_r.
  - destruct Hk as [Hk|Hk]; [discriminate|].
    change (Z.of_nat <$> seq i (S k))
      with (Z.of_nat i :: (Z.of_nat <$> seq (S i) k)).
    intros H. apply retry_loop_inv in H. cbv zeta in H.
    destruct H as [(e & -> & Hc & _) |
                   (_ & _ & [(_ & -> & ->) |
                             [(_ & _ & -> & ->) | (_ & _ & H)]])].
    + exists []. by rewrite app_nil_r.
    + eexists [_]. simpl. done.
    + eexists [_]. simpl. done.
    + destruct (next_objects _ _ _ _ _ _) as [[objs'|e] w3] eqn:Hn.
      2:{ destruct H as [-> ->].
          apply next_objects_frame in Hn as [Hn _]. simpl in Hn.
          eexists [_]. simpl. by rewrite Hn. }
      pose proof Hn as Hf. apply next_objects_frame in Hf as [Hf _].
      simpl in Hf.
      destruct k as [|k].
      { subst loop. simpl in H. unfold ret in H. injection H as <- <-.
        eexists [_]. simpl. by rewrite Hf. }
      apply IH in H as (new & Hcalls & Hnew); [|right; lia].
      eexists (_ :: new). rewrite Hcalls, Hf, <- app_assoc.
      split; [done|]. split; [done|].
      destruct new as [|c rest]; [done|]. destruct Hnew as [Hobjs Hrest].
      constructor; [|done]. rewrite Hobjs.
      unfold next_objects in Hn.
      destruct (Z.ltb_spec (Z.of_nat i) (max_retries - 1)); [|lia].
      rewrite (nonempty_true _ Hpool) in Hn. simpl in Hn.
      unfold with_rng in Hn. cbn [rng] in Hn.
      destruct (sample_spec all_objects
                  (Z.min num_objects (Z.of_nat (length all_objects)))
                  (rng w))
        as (xs & g' & Hs & Hlen & Hperm); [lia|].
      rewrite Hs in Hn. injection Hn as <- _.
      split; [eauto|]. split; done.
Qed.

(** Successive draws of the clamped size succeed; each has that size and
    takes its elements at distinct positions of the pool. *)
Lemma redraws_spec (k : Z) (g : Rng) (n : nat) :
  k = Z.min num_objects (Z.of_nat (length all_objects)) ->
  0 <= k ->
  length (redraws all_objects k g n) = n /\
  Forall (fresh_draw all_objects num_objects) (redraws all_objects k g n).
Proof.
  intros -> Hk. revert g. induction n as [|n IH]; intros g; simpl.
  { split; [done | constructor]. }
  destruct (sample_spec all_objects
              (Z.min num_objects (Z.of_nat (length all_objects))) g)
    as (xs & g' & Hs & Hlen & Hperm); [lia|].
  rewrite Hs. destruct (IH g') as [Hl Hall]. simpl. split; [lia|].
  constructor; [|done]. split; [eauto|]. split; done.
Qed.

Lemma redraws_step (k : Z) (g g' : Rng) (objs : list string) (n : nat) :
  sample all_objects k g = (Ok objs, g') ->
  redraws all_objects k g (S n) = objs :: redraws all_objects k g' n /\
  redrawn all_objects k g (S n) = redrawn all_objects k g' n.
Proof. intros Hs. simpl. by rewrite Hs. Qed.

(** The objects of the launches of the loop are the current objects and
    then the successive draws from the pool, in this order; a loop that
    returns has drawn once after every launch but the last. *)
Lemma retry_loop_redraws n i current_objs (w w' : world T) r :
  let k := Z.min num_objects (Z.of_nat (length all_objects)) in
  (n = 0%nat \/ Z.of_nat (i + n) = max_retries) ->
  Z.of_nat (length current_objs) = k ->
  loop (Z.of_nat <$> seq i n) current_objs w = (r, w') ->
  exists new,
    calls w' = (calls w ++ new)%list /\
    (length new <= n)%nat /\
    inv_objects <$> new
      `prefix_of` current_objs :: redraws all_objects k (rng w) (n - 1) /\
    (r = Ok true -> new <> []) /\
    (r = Ok false -> length new = n) /\
    (forall b, r = Ok b ->
       rng w' = redrawn all_objects k (rng w) (length new - 1)).
Proof.
  intros k. revert i current_objs w. induction n as [|n IH];
    intros i objs w Hk Hcard.
  { subst loop. simpl. unfold ret. intros [= <- <-]. exists [].
    rewrite app_nil_r. split; [done|]. split; [done|].
    split; [apply prefix_nil|]. split; [discriminate|]. done. }
  destruct Hk as [Hk|Hk]; [discriminate|].
  change (Z.of_nat <$> seq i (S n))
    with (Z.of_nat i :: (Z.of_nat <$> seq (S i) n)).
  intros H. apply retry_loop_inv in H. cbv zeta in H.
  set (cmd := Invocation blender_path cfg objs output_dir timeout) in *.
  assert (Hfirst : forall l, inv_objects <$> [cmd] `prefix_of` objs :: l).
  { intros l. exists l. done. }
  destruct H as [(e & -> & Hc & _) |
                 (_ & _ & [(_ & -> & ->) |
                           [(_ & _ & -> & ->) | (_ & _ & H)]])].
  - exists []. rewrite app_nil_r. split; [done|]. split; [simpl; lia|].
    split; [apply prefix_nil|]. split; [discriminate|].
    split; discriminate.
  - exists [cmd]. split; [done|]. split; [simpl; lia|].
    split; [apply Hfirst|]. split; [discriminate|]. split; discriminate.
  - exists [cmd]. split; [done|]. split; [simpl; lia|].
    split; [apply Hfirst|]. split; [done|]. split; [discriminate|].
    intros b _. done.
  - unfold next_objects in H.
    destruct (Z.ltb_spec (Z.of_nat i) (max_retries - 1)) as [Hlt|Hge].
    + (* an attempt remains *)
      destruct n as [|n]; [lia|].
      destruct (decide (all_objects = [])) as [Hnil|Hpool].
      * (* nothing to draw from: the objects are kept *)
        assert (Hne : nonempty all_objects = false) by (by rewrite Hnil).
        rewrite Hne in H. simpl in H. unfold ret in H.
        assert (Hk0 : k = 0).
        { subst k. rewrite Hnil in *. simpl in *. lia. }
        assert (Hobjs : objs = []).
        { destruct objs; [done|]. simpl in Hcard. lia. }
        assert (Hs : forall g, sample all_objects k g = (Ok [], g)).
        { intros g. rewrite Hk0, Hnil. reflexivity. }
        apply IH in H as (new & Hcalls & Hlen & Hpre & Htrue & Hfalse & Hrng);
          [|right; lia|done].
        cbn [rng calls] in *.
        exists (cmd :: new). rewrite Hcalls, <- app_assoc.
        split; [done|]. split; [simpl; lia|].
        destruct (redraws_step k (rng w) (rng w) [] n (Hs _)) as [Hd Hg].
        split.
        { rewrite fmap_cons. replace (S (S n) - 1)%nat with (S n) by lia.
          rewrite Hd. apply prefix_cons.
          replace (S n - 1)%nat with n in Hpre by lia.
          by rewrite Hobjs in Hpre. }
        split; [done|]. split; [intros Hr; simpl; by rewrite Hfalse|].
        intros b Hb. rewrite (Hrng b Hb).
        assert (Hpos : (1 <= length new)%nat).
        { destruct b; [destruct new; [by destruct Htrue | simpl; lia]|].
          rewrite (Hfalse Hb). lia. }
        replace (length (cmd :: new) - 1)%nat
          with (S (length new - 1)) by (simpl; lia).
        by rewrite (proj2 (redraws_step k (rng w) (rng w) [] _ (Hs _))).
      * (* a fresh draw *)
        rewrite (nonempty_true _ Hpool) in H. simpl in H.
        unfold with_rng in H. cbn [rng fs calls] in H.
        destruct (sample_spec all_objects k (rng w))
          as (xs & g' & Hs & Hxs & _); [subst k; lia|].
        fold k in H. rewrite Hs in H.
        apply IH in H as (new & Hcalls & Hlen & Hpre & Htrue & Hfalse & Hrng);
          [|right; lia|lia].
        cbn [rng calls] in *.
        exists (cmd :: new). rewrite Hcalls, <- app_assoc.
        split; [done|]. split; [simpl; lia|].
        destruct (redraws_step k (rng w) g' xs n Hs) as [Hd Hg].
        split.
        { rewrite fmap_cons. replace (S (S n) - 1)%nat with (S n) by lia.
          rewrite Hd. apply prefix_cons.
          by replace (S n - 1)%nat with n in Hpre by lia. }
        split; [done|]. split; [intros Hr; simpl; by rewrite Hfalse|].
        intros b Hb. rewrite (Hrng b Hb).
        assert (Hpos : (1 <= length new)%nat).
        { destruct b; [destruct new; [by destruct Htrue | simpl; lia]|].
          rewrite (Hfalse Hb). lia. }
        replace (length (cmd :: new) - 1)%nat
          with (S (length new - 1)) by (simpl; lia).
        by rewrite (proj2 (redraws_step k (rng w) g' xs _ Hs)).
    + (* the last attempt: nothing is drawn *)
      assert (n = 0%nat) as -> by lia.
      simpl in H. subst loop. simpl in H. unfold ret in H.
      injection H as <- <-.
      exists [cmd]. split; [done|]. split; [simpl; lia|].
      split; [apply Hfirst|]. split; [discriminate|]. split; [done|].
      intros b _. done.
Qed.

(** C5: a call whose objects are as many as a draw takes,
    [min(num_objects, len(all_objects))], launches the renderer on these
    objects first and then, attempt after attempt, on the subsets that
    successive calls of [random.sample(all_objects, min(num_objects,
    len(all_objects)))] return from the state of the generator: each has
    that many objects, taken at distinct positions of the whole pool, and
    depends on the pool and the generator only, not on the objects of the
    attempts before it.  One subset is drawn after every failed attempt
    that leaves an attempt, and none after the last: a call that returns
    has advanced the generator by as many draws as it made launches, less
    one, and a call that returns [False] has used them all. *)
Theorem retry_redraws_from_pool (w : world T) :
  let k := Z.min num_objects (Z.of_nat (length all_objects)) in
  let res := run max_retries timeout w in
  let draws := redraws all_objects k (rng w) (Z.to_nat max_retries - 1) in
  Z.of_nat (length object_paths) = k ->
  length draws = (Z.to_nat max_retries - 1)%nat /\
  Forall (fresh_draw all_objects num_objects) draws /\
  exists new,
    calls (snd res) = (calls w ++ new)%list /\
    inv_objects <$> new `prefix_of` object_paths :: draws /\
    (fst res = Ok false -> length new = Z.to_nat max_retries) /\
    (forall b, fst res = Ok b ->
       rng (snd res) = redrawn all_objects k (rng w) (length new - 1)).
Proof.
  intros k res draws Hcard. subst res draws run.
  destruct (redraws_spec k (rng w) (Z.to_nat max_retries - 1) eq_refl)
    as [Hlen Hall]; [lia|].
  split; [done|]. split; [done|].
  unfold render_with_retry. rewrite range_seq.
  destruct (retry_loop _ _ _ _ _ _ _ _ _ _ _ w) as [r w'] eqn:Hl.
  apply retry_loop_redraws in Hl
    as (new & Hcalls & _ & Hpre & _ & Hfalse & Hrng);
    [|apply range_bound|done].
  exists new. done.
Qed.

(** Launch bound of one call: at most [max_retries] launches; [False] is
    returned only after all of them; and when all were made and the last
    one ended without passing the gate, [False] is what the call returned. *)
Lemma render_with_retry_launches (w : world T) :
  let res := run max_retries timeout w in
  exists new,
    calls (snd res) = (calls w ++ new)%list /\
    (length new <= Z.to_nat max_retries)%nat /\
    (fst res = Ok false -> length new = Z.to_nat max_retries) /\
    (length new = Z.to_nat max_retries ->
     (forall c, last new = Some c ->
        interrupted (fst (attempt_outcome sp w (length new - 1) c)) = false /\
        accepted min_video_size (attempt_outcome sp w (length new - 1) c)
        = false) ->
     fst res = Ok false).
Proof.
  intros res. subst res run. unfold render_with_retry. rewrite range_seq.
  destruct (retry_loop _ _ _ _ _ _ _ _ _ _ _ w) as [r w'] eqn:Hl.
  apply retry_loop_trace in Hl
    as (new & Hcalls & Hlen & _ & _ & Hfalse & Hall & _);
    [|apply range_bound].
  exists new. done.
Qed.

End Retry.

End RendererFacts.



(** ** [load_objects] *)

Section ObjectsFacts.

Import Objects.

Variable disk : filesystem.
Variable package_dir : string.
Variable objaverse_load_objects : list string -> gmap string string.

Let load := load_objects disk package_dir objaverse_load_objects.

Lemma filter_nil_iff {A} (P : A -> Prop) `{!forall x, Decision (P x)}
    (l : list A) :
  filter P l = [] <-> forall x, x ∈ l -> ~ P x.
Proof.
  split.
  - intros Hnil x Hx HP.
    assert (Hin : x ∈ filter P l) by (by apply list_elem_of_filter).
    rewrite Hnil in Hin. by apply elem_of_nil in Hin.
  - intros Hall. destruct (filter P l) as [|y ys] eqn:Hf; [done|].
    assert (Hin : y ∈ filter P l) by (rewrite Hf; by left).
    apply list_elem_of_filter in Hin as [HP Hin]. by destruct (Hall y).
Qed.

Lemma path_exists_iff (p : string) :
  path_exists disk p = true <-> exists_ disk p = Ok true.
Proof.
  unfold path_exists. destruct (exists_ disk p) as [[]|]; split; congruence.
Qed.

(** What [Path(p).exists()] answers, when it answers. *)
Lemma exists_cases (p : string) :
  match exists_ disk p with
  | Ok b => disk !! p <> Some NoStat /\ path_exists disk p = b
  | Raise e => e = PermissionError /\ disk !! p = Some NoStat
  end.
Proof.
  unfold path_exists, exists_. by destruct (disk !! p) as [[]|].
Qed.

(** The existence filter raises exactly when one of the paths cannot be
    examined, and otherwise keeps the paths that exist, in order. *)
Lemma existing_spec (l : list string) :
  match existing disk l with
  | Raise e =>
      e = PermissionError /\ exists p, p ∈ l /\ disk !! p = Some NoStat
  | Ok valid =>
      (forall p, p ∈ l -> disk !! p <> Some NoStat) /\
      valid = filter (fun p => path_exists disk p = true) l
  end.
Proof.
  induction l as [|p l IH]; simpl.
  { split; [|done]. intros p Hp. by apply elem_of_nil in Hp. }
  pose proof (exists_cases p) as Hp.
  destruct (exists_ disk p) as [b|e].
  - destruct Hp as [Hstat Hb].
    destruct (existing disk l) as [valid|e].
    + destruct IH as [Hall ->]. split.
      * intros q [->|Hq]%elem_of_cons; auto.
      * rewrite filter_cons. destruct b.
        -- by rewrite decide_True.
        -- rewrite decide_False; [done | by rewrite Hb].
    + destruct IH as [-> (q & Hq & Hstat')]. split; [done|].
      exists q. split; [by right | done].
  - destruct Hp as [-> Hstat]. split; [done|]. exists p.
    split; [by left | done].
Qed.

Lemma resolved_existing (m : gmap string string) (l : list string) :
  resolved disk m l
  = existing disk
      (omap (fun uid =>
               match m !! uid with
               | Some p => if truthy p then Some p else None
               | None => None
               end) l).
Proof.
  induction l as [|uid l IH]; [done|].
  cbn [resolved].
  match goal with
  | |- context [omap ?f (uid :: l)] =>
      change (omap f (uid :: l))
        with (match f uid with
              | Some y => y :: omap f l
              | None => omap f l
              end)
  end.
  cbv beta.
  destruct (m !! uid) as [p|]; [|exact IH].

  destruct (truthy p); [|exact IH].
  cbn [existing]. by rewrite IH.
Qed.

Lemma omap_Some_id {A} (l : list A) : omap Some l = l.
Proof.
  induction l as [|x l IH]; [done|].
  change (omap Some (x :: l)) with (x :: omap Some l). by rewrite IH.
Qed.

(** [load_objects], by what the source is and what the entries of the
    list stand for. *)
Lemma load_objects_unfold (object_list : option string) :
  load object_list
  = match disk !! list_path package_dir object_list with
    | None => Raise FileNotFoundError
    | Some (File raw) =>
        match stripped_lines raw with
        | [] => Raise ValueError
        | lines =>
            match existing disk (candidates objaverse_load_objects lines) with
            | Raise e => Raise e
            | Ok [] => Raise FileNotFoundError
            | Ok valid => Ok valid
            end
        end
    | Some Directory => Raise IsADirectoryError
    | Some Undecodable => Raise UnicodeDecodeError
    | Some NoOpen => Raise PermissionError
    | Some NoStat => Raise PermissionError
    end.
Proof.
  subst load. unfold load_objects, exists_, read_lines. cbv zeta.
  destruct (disk !! list_path package_dir object_list) as [[raw| | | |]|];
    try reflexivity.
  destruct (stripped_lines raw) as [|sample lines] eqn:Hl; [reflexivity|].
  unfold candidates, entry_path.
  destruct (is_path_format sample).
  - by rewrite omap_Some_id.
  - by rewrite resolved_existing.
Qed.

(** Every path [load_objects] returns exists, and it returns at least
    one. *)
Lemma load_objects_exist (object_list : option string) (valid : list string) :
  load object_list = Ok valid ->
  Forall (fun p => path_exists disk p = true) valid.
Proof.
  rewrite load_objects_unfold.
  destruct (disk !! list_path package_dir object_list) as [[raw| | | |]|];
    try discriminate.
  destruct (stripped_lines raw) as [|sample lines]; [discriminate|].
  pose proof (existing_spec
                (candidates objaverse_load_objects (sample :: lines))) as He.
  destruct (existing disk _) as [[|v vs]|e]; try discriminate.
  destruct He as [_ He]. intros [= <-]. rewrite He.
  apply Forall_forall. by intros p [Hp _]%list_elem_of_filter.
Qed.

Lemma load_objects_nonempty (object_list : option string)
    (valid : list string) :
  load object_list = Ok valid -> valid <> [].
Proof.
  rewrite load_objects_unfold.
  destruct (disk !! list_path package_dir object_list) as [[raw| | | |]|];
    try discriminate.
  destruct (stripped_lines raw) as [|sample lines]; [discriminate|].
  destruct (existing disk _) as [[|v vs]|e]; try discriminate.
  by intros [= <-].
Qed.

(** [Path(p).exists()] answered [True] for every path returned. *)
Lemma load_objects_verified (object_list : option string)
    (valid : list string) :
  load object_list = Ok valid ->
  Forall (fun p => exists_ disk p = Ok true) valid.
Proof.
  rewrite load_objects_unfold.
  destruct (disk !! list_path package_dir object_list) as [[raw| | | |]|];
    try discriminate.
  destruct (stripped_lines raw) as [|sample lines]; [discriminate|].
  pose proof (existing_spec
                (candidates objaverse_load_objects (sample :: lines))) as He.
  destruct (existing disk _) as [[|v vs]|e]; try discriminate.
  destruct He as [Hstat He]. intros [= <-]. rewrite He.
  apply Forall_forall. intros p [Hex Hp]%list_elem_of_filter.
  by apply path_exists_iff.
Qed.

Ltac crush :=
  repeat match goal with
         | H : _ \/ _ |- _ => destruct H as [H|H]
         | H : exists _, _ |- _ => destruct H as [? H]
         | H : _ /\ _ |- _ => destruct H as [? H]
         end;
  first [ done | congruence | eauto 7 ].

Ltac outcome :=
  first [ done
        | split; intros ?; crush
        | intros ? [= <-]; auto 7
        | intros; crush ].

(** C8 (amended): given the mapping the identifier resolver returns,
    [load_objects] fails in these cases and no other: with
    [FileNotFoundError] when the source does not exist or none of the
    paths its entries stand for exists; with [ValueError] when the source
    has no non-blank line; and with the error of the operating system or
    of the decoder when the source or an entry cannot be examined or read:
    [IsADirectoryError] for a source that is a directory,
    [UnicodeDecodeError] for a source that is not text, [PermissionError]
    for a source that cannot be examined or opened and for an entry that
    cannot be examined.  Otherwise it returns a non-empty list: the paths
    the entries stand for that exist, in the order of the entries. *)
Theorem load_objects_outcomes (object_list : option string) :
  let path := list_path package_dir object_list in
  let r := load object_list in
  let tested raw :=
    candidates objaverse_load_objects (stripped_lines raw) in
  (r = Raise FileNotFoundError <->
     disk !! path = None \/
     exists raw,
       disk !! path = Some (File raw) /\ stripped_lines raw <> [] /\
       forall p, p ∈ tested raw -> disk !! p = None) /\
  (r = Raise ValueError <->
     exists raw, disk !! path = Some (File raw) /\ stripped_lines raw = []) /\
  (r = Raise IsADirectoryError <-> disk !! path = Some Directory) /\
  (r = Raise UnicodeDecodeError <-> disk !! path = Some Undecodable) /\
  (r = Raise PermissionError <->
     disk !! path = Some NoStat \/ disk !! path = Some NoOpen \/
     exists raw,
       disk !! path = Some (File raw) /\ stripped_lines raw <> [] /\
       exists p, p ∈ tested raw /\ disk !! p = Some NoStat) /\
  (forall e, r = Raise e ->
     e = FileNotFoundError \/ e = ValueError \/ e = IsADirectoryError \/
     e = UnicodeDecodeError \/ e = PermissionError) /\
  (forall valid, r = Ok valid ->
     valid <> [] /\
     Forall (fun p => exists_ disk p = Ok true) valid /\
     exists raw,
       disk !! path = Some (File raw) /\
       valid = filter (fun p => path_exists disk p = true) (tested raw)).
Proof.
  intros path r tested. subst path r tested. cbv beta.
  rewrite load_objects_unfold.
  destruct (disk !! list_path package_dir object_list)
    as [[raw| | | |]|] eqn:Hd; [|split_and!; outcome..].
  destruct (stripped_lines raw) as [|sample lines] eqn:Hl.
  { split_and!; outcome. }
  rewrite <- Hl.
  assert (Hne : stripped_lines raw <> []) by (by rewrite Hl).
  pose proof (existing_spec
                (candidates objaverse_load_objects (stripped_lines raw)))
    as He.
  set (tested := candidates objaverse_load_objects (stripped_lines raw)) in *.
  destruct (existing disk tested) as [valid|e].
  - destruct He as [Hstat ->].
    assert (Hnone : filter (fun p => path_exists disk p = true) tested = []
                    <-> forall p, p ∈ tested -> disk !! p = None).
    { rewrite filter_nil_iff. split; intros H p Hp.
      - specialize (H p Hp). specialize (Hstat p Hp).
        unfold path_exists, exists_ in H.
        by destruct (disk !! p) as [[]|].
      - unfold path_exists, exists_. by rewrite (H p Hp). }
    assert (Hperm : ~ exists p, p ∈ tested /\ disk !! p = Some NoStat).
    { intros (p & Hp & Hs). by destruct (Hstat p Hp). }
    destruct (filter _ tested) as [|v vs] eqn:Hf.
    + split_and!.
      * split; [|done]. intros _. right. exists raw.
        do 2 (split; [done|]). by apply Hnone.

      * split; [done | by intros (raw' & [= <-] & ?)].
      * done.
      * done.
      * split; [done|].
        intros [? | [? | (raw' & [= <-] & _ & H)]]; done.
      * intros e [= <-]; auto.
      * done.
    + split_and!.
      * split; [done|].
        intros [? | (raw' & [= <-] & _ & Hall)]; [done|].
        apply Hnone in Hall. discriminate.
      * split; [done | by intros (raw' & [= <-] & ?)].
      * done.
      * done.
      * split; [done|].
        intros [? | [? | (raw' & [= <-] & _ & H)]]; done.
      * done.
      * intros valid [= <-]. split; [done|]. split; [|eauto].
        rewrite <- Hf. apply Forall_forall.
        intros p [Hex Hp]%list_elem_of_filter. by apply path_exists_iff.
  - destruct He as [-> (p & Hp & Hs)]. split_and!.
    + split; [done|].
      intros [? | (raw' & [= <-] & _ & Hall)]; [done|].
      rewrite (Hall p Hp) in Hs. discriminate.
    + split; [done | by intros (raw' & [= <-] & ?)].
    + done.
    + done.
    + split; [|done]. intros _. right. right. exists raw.
      do 2 (split; [done|]). by exists p.
    + intros e [= <-]; auto 6.
    + done.
Qed.

End ObjectsFacts.



(** ** The geometry gate of the importer *)

Section AssetFacts.

Import Objects BlenderRender Tasks.

Variable import_scene : string -> list bobject.

Lemma total_verts_length (objects : list bobject) :
  length (objects ≫= vertices) = total_verts objects.
Proof.
  induction objects as [|o objects IH]; [done|].
  rewrite bind_cons, length_app, IH. done.
Qed.

(** What [import_single_object] lets through is not degenerate. *)
Lemma import_single_object_gate (path : string) (target_size : Q)
    (objs : list bobject) :
  import_single_object import_scene path target_size = Ok objs ->
  objs <> [] ->
  non_degenerate import_scene path.
Proof.
  unfold import_single_object, non_degenerate.
  destruct (import_object import_scene path) as [objects|e];
    [|discriminate].
  destruct objects as [|o objects]; [by intros [= <-]|].
  set (os := o :: objects) in *.
  destruct (Nat.ltb_spec (total_verts os) 4) as [Hlt|Hge];
    [by intros [= <-]|].
  destruct (os ≫= vertices) as [|v vs] eqn:Hv.
  { pose proof (total_verts_length os) as Hlen. rewrite Hv in Hlen.
    cbn [length] in Hlen. lia. }

  destruct (Qltb (bbox_size v vs) (1 # 1000)) eqn:Hsz;
    [by intros [= <-]|].
  intros _ _. exists os, v, vs. do 3 (split; [done|]).
  unfold Qltb in Hsz. apply negb_false_iff in Hsz.
  by apply Qle_bool_iff in Hsz.
Qed.

End AssetFacts.


(** ** Job identifiers *)

Section JobIds.

Import Tasks.

Lemma decode_zeros (k : nat) (s : string) : decode (zeros k +:+ s) = decode s.
Proof.
  induction k as [|k IH]; [done|].
  change (zeros (S k) +:+ s)
    with (String (Ascii.ascii_of_nat 48) (zeros k +:+ s)).


  unfold decode in *. simpl.
  destruct (NilEmpty.uint_of_string (zeros k +:+ s)) as [d|];
    destruct (NilEmpty.uint_of_string s) as [d'|]; simpl in *;
    try discriminate; [|done].
  injection IH as IH. f_equal. exact IH.
Qed.

(** The padded decimal form of [i] reads back as [i]. *)
Lemma decode_format_06d (i : nat) : decode (format_06d i) = Some i.
Proof.
  unfold format_06d. rewrite decode_zeros. unfold decode.
  rewrite NilEmpty.usu. simpl. f_equal. apply DecimalNat.Unsigned.of_to.
Qed.

Lemma format_06d_inj (i j : nat) : format_06d i = format_06d j -> i = j.
Proof.
  intros H. apply (f_equal decode) in H.
  rewrite !decode_format_06d in H. by injection H.
Qed.

(** Distinct submission indices get distinct job identifiers. *)
Lemma job_id_inj (self : TaskGenerator) (i j : nat) :
  job_id self i = job_id self j -> i = j.
Proof.
  unfold job_id. intros H. apply format_06d_inj.
  by do 2 apply (inj (String.app _)) in H.
Qed.

End JobIds.

(** ** The task generators *)

Section TaskFacts.

Import Tasks.

Lemma choice_ok {A} (l : list A) (g : Rng) :
  l <> [] -> exists x g', choice l g = (Ok x, g') /\ x ∈ l.
Proof.
  intros Hl. unfold choice, randbelow. destruct l as [|a l]; [done|].
  cbv beta iota zeta.
  assert (Hj : (tape g (cursor g) mod length (a :: l) < length (a :: l))%nat)
    by (apply Nat.mod_upper_bound; simpl; lia).
  destruct (lookup_lt_is_Some_2 (a :: l) _ Hj) as [x Hx]. rewrite Hx.

  exists x, (MkRng (tape g) (S (cursor g))). split; [done|].
  by eapply list_elem_of_lookup_2.
Qed.

Lemma registered_prompts (m : task_module) : registered m -> PROMPTS m <> [].
Proof.
  unfold registered, TASK_REGISTRY. simpl.
  rewrite !elem_of_cons, elem_of_nil.
  intros [-> | [-> | [-> | [-> | []]]]]; done.
Qed.

(** C7: for a failed job result, whatever the configured resolution and the
    content of the job directory, [_result_to_pair] of a registered task
    module returns a [TaskPair] whose first and final images are the
    [Image.new("RGB", image_size, (0, 0, 0))] placeholder, so of exactly the
    configured size and black at every pixel, and whose
    [ground_truth_video] is absent; the pair carries the job identifier. *)
Theorem failed_result_placeholder (self : TaskGenerator)
    (result : job_result) (d : dir) (g : Rng) :
  registered (tm self) ->
  r_success result = false ->
  exists pair g',
    _result_to_pair self result d g = (Ok pair, g') /\
    first_image pair = Image_new "RGB" (image_size (config self)) (0, 0, 0) /\
    final_image pair = Image_new "RGB" (image_size (config self)) (0, 0, 0) /\
    size_of (first_image pair) = Some (image_size (config self)) /\
    size_of (final_image pair) = Some (image_size (config self)) /\
    (forall x y,
       0 <= x < fst (image_size (config self)) ->
       0 <= y < snd (image_size (config self)) ->
       getpixel (first_image pair) x y = Some (0, 0, 0) /\
       getpixel (final_image pair) x y = Some (0, 0, 0)) /\
    ground_truth_video pair = None /\
    task_id pair = r_task_id result /\
    prompt pair ∈ PROMPTS (tm self).
Proof.
  intros Hreg Hfail. unfold _result_to_pair. rewrite Hfail. simpl negb.
  cbv iota. unfold get_prompt.
  destruct (choice_ok (PROMPTS (tm self)) g (registered_prompts _ Hreg))
    as (p & g' & Hp & Hin).
  rewrite Hp. eexists _, g'. split; [reflexivity|]. simpl.
  do 4 (split; [done|]). split; [|done].
  intros x y Hx Hy. destruct (image_size (config self)) as [w h].
  simpl in *.
  assert (((0 <=? x) && (x <? w) && (0 <=? y) && (y <? h)) = true) as ->;
    [|done].
  rewrite !andb_true_iff, !Z.leb_le, !Z.ltb_lt. lia.
Qed.

(** ** One job *)

Lemma pick_objects_frame (m : task_module) (all_objs : list string)
    (w w' : world dict) r :
  pick_objects m all_objs w = (r, w') -> calls w' = calls w /\ fs w' = fs w.
Proof.
  unfold pick_objects. destruct (first_pick m); apply with_rng_frame.
Qed.

(** A job that returns reports the identifier it was given. *)
Lemma render_one_task_id (m : task_module) (sp : subprocess dict)
    (args : job_args) (w w' : world dict) (r : job_result) :
  _render_one m sp args w = (Ok r, w') -> r_task_id r = a_task_id args.
Proof.
  unfold _render_one, bind.
  destruct (pick_objects m (a_all_objs args) w) as [[objs|e] w1];
    [|discriminate].
  destruct (render_with_retry _ _ _ _ _ _ _ _ _ _ w1) as [[ok|e] w2];
    [|discriminate].
  unfold ret. by intros [= <- _].
Qed.

(** C2: [render_with_retry] launches the renderer at most [max_retries]
    times and returns [False] only after [max_retries] launches.  Once
    [max_retries] launches were made and the last of them ended (the
    process exited, timed out or raised an [Exception]) without passing
    the gate, the call has returned [False]: it has not raised, and it
    launches nothing more.  Nothing above it retries: a job runs
    [render_with_retry] once, so [_render_one] launches the renderer at
    most [retries] times as well. *)
Theorem retry_bound {T} `{!Serialisable T} (sp : subprocess T)
    (blender_path : string) (cfg : T)
    (object_paths all_objects : list string) (output_dir : string)
    (num_objects min_video_size max_retries timeout : Z) (w : world T)
    (m : task_module) (spj : subprocess dict) (args : job_args)
    (wj : world dict) :
  let res :=
    render_with_retry sp blender_path cfg object_paths all_objects
      output_dir num_objects min_video_size max_retries timeout w in
  (exists new,
     calls (snd res) = (calls w ++ new)%list /\
     (length new <= Z.to_nat max_retries)%nat /\
     (fst res = Ok false -> length new = Z.to_nat max_retries) /\
     (length new = Z.to_nat max_retries ->
      (forall c, last new = Some c ->
         interrupted (fst (attempt_outcome sp w (length new - 1) c)) = false /\
         accepted min_video_size (attempt_outcome sp w (length new - 1) c)
         = false) ->
      fst res = Ok false)) /\
  (exists new,
     calls (snd (_render_one m spj args wj)) = (calls wj ++ new)%list /\
     (length new <= Z.to_nat (a_retries args))%nat).
Proof.
  intros res. split.
  - apply render_with_retry_launches.
  - unfold _render_one, bind.
    destruct (pick_objects m (a_all_objs args) wj) as [[objs|e] w1] eqn:Hp;
      apply pick_objects_frame in Hp as [Hp _].
    2:{ exists []. rewrite app_nil_r. simpl. split; [done | lia]. }
    destruct (render_with_retry_launches spj (a_blender args)
                (a_task_cfg args) objs (a_all_objs args)
                (a_work_dir args +:+ "/" +:+ a_task_id args)
                (NUM_OBJECTS m) (a_min_sz args) (a_retries args)
                (a_timeout args) w1)
      as (new & Hcalls & Hlen & _).
    destruct (render_with_retry _ _ _ _ _ _ _ _ _ _ w1) as [[ok|e] w2];
      exists new; simpl in *; by rewrite Hcalls, Hp.
Qed.

(** ** The scheduler *)

Lemma open_image_ok (d : dir) (out name : string) e :
  d !! name = Some e -> is_dir e = false ->
  open_image d out name = Ok (Image_open (out +:+ "/" +:+ name) "RGB").
Proof. intros He Hd. unfold open_image. by rewrite He, Hd. Qed.

(** Converting the result of a job that succeeded and left its frames. *)
Lemma result_to_pair_success (self : TaskGenerator) (r : job_result)
    (d : dir) (g : Rng) :
  PROMPTS (tm self) <> [] -> r_success r = true -> has_frames d ->
  exists pair g',
    _result_to_pair self r d g = (Ok pair, g') /\
    task_id pair = r_task_id r /\
    is_Some (ground_truth_video pair).
Proof.
  intros Hp Hs (e1 & e2 & H1 & Hd1 & H2 & Hd2).
  unfold _result_to_pair, get_prompt. rewrite Hs. simpl negb. cbv iota.
  destruct (choice_ok (PROMPTS (tm self)) g Hp) as (p & g' & Hc & _).
  rewrite Hc, (open_image_ok _ _ _ _ H1 Hd1), (open_image_ok _ _ _ _ H2 Hd2).
  eexists _, g'. split; [reflexivity|]. simpl. eauto.
Qed.

(** The loop over the finished futures: when no job raised and every job
    that succeeded left its frames, every success adds its pair, in
    completion order, and every failure only counts. *)
Lemma collect_spec (self : TaskGenerator)
    (completed : list (result job_result * world dict))
    (pairs : list TaskPair) (ok fail : Z) (g : Rng) :
  PROMPTS (tm self) <> [] ->
  Forall (fun fut =>
            exists r, fst fut = Ok r /\
                      (r_success r = true -> has_frames (fs (snd fut))))
         completed ->
  exists new ok' fail' g',
    collect self completed pairs ok fail g
      = (Ok ((pairs ++ new)%list, ok', fail'), g') /\
    task_id <$> new = omap success_id completed /\
    Forall (fun p => is_Some (ground_truth_video p)) new /\
    ok' = ok + Z.of_nat (length new) /\
    ok' + fail' = ok + fail + Z.of_nat (length completed).
Proof.
  intros Hp Hall. revert pairs ok fail g.
  induction Hall as [|[r0 w] completed (r & Hr & Hframes) _ IH];
    intros pairs ok fail g.
  - exists [], ok, fail, g. rewrite app_nil_r. simpl.
    do 2 (split; [done|]). split; [constructor | lia].
  - simpl in Hr, Hframes. subst r0.
    change (omap success_id ((Ok r, w) :: completed))
      with (match success_id (Ok r, w) with
            | Some y => y :: omap success_id completed
            | None => omap success_id completed
            end).
    unfold success_id at 1. cbn [collect fst].

    destruct (r_success r) eqn:Hs.

    + destruct (result_to_pair_success self r (fs w) g Hp Hs (Hframes eq_refl))
        as (pair & g1 & Hpair & Hid & Hvid).
      rewrite Hpair.
      destruct (IH (pairs ++ [pair])%list (ok + 1) fail g1)
        as (new & ok' & fail' & g' & Hc & Hids & Hvids & Hok & Hsum).
      exists (pair :: new), ok', fail', g'. rewrite Hc, <- app_assoc.
      split; [done|]. rewrite fmap_cons, Hid, Hids.
      split; [done|]. split; [by constructor|]. cbn [length]. lia.


    + destruct (IH pairs ok (fail + 1) g)
        as (new & ok' & fail' & g' & Hc & Hids & Hvids & Hok & Hsum).
      exists new, ok', fail', g'. rewrite Hc.
      do 3 (split; [done|]). cbn [length]. lia.
Qed.


Lemma omap_filter_fmap {A B} (f : A -> option B) (P : A -> bool)
    (h : A -> B) (l : list A) :
  (forall x, f x = if P x then Some (h x) else None) ->
  omap f l = h <$> filter (fun x => P x = true) l.
Proof.
  intros Hf. induction l as [|x l IH]; [done|].
  change (omap f (x :: l))
    with (match f x with Some y => y :: omap f l | None => omap f l end).
  rewrite Hf, filter_cons, IH. destruct (P x) eqn:HP.
  - by rewrite decide_True.
  - by rewrite decide_False.
Qed.


Lemma omap_fmap_compose {A B C} (f : B -> option C) (h : A -> B)
    (l : list A) :
  omap f (h <$> l) = omap (f ∘ h) l.
Proof.
  induction l as [|x l IH]; [done|].
  change (omap f (h <$> x :: l))
    with (match f (h x) with
          | Some y => y :: omap f (h <$> l)
          | None => omap f (h <$> l)
          end).
  by rewrite IH.
Qed.


Lemma imap_seq_diag {B} (f : nat -> nat -> B) (n s : nat) :
  imap f (seq s n) = (fun j => f (j - s)%nat j) <$> seq s n.
Proof.
  revert s f. induction n as [|n IH]; intros s f; [done|].
  change (imap f (seq s (S n))) with (f 0%nat s :: imap (f ∘ S) (seq (S s) n)).
  change (seq s (S n)) with (s :: seq (S s) n).
  rewrite IH, fmap_cons. f_equal; [by rewrite Nat.sub_diag|].

  apply list_fmap_ext. intros i x Hx. apply lookup_seq in Hx as [-> _].
  simpl. f_equal. lia.
Qed.

(** The futures of a run are the jobs of the submission indices. *)
Lemma futures_by_index (self : TaskGenerator) (pool : nat -> worker)
    (n : nat) :
  imap (submit self pool)
    ((fun i => make_args self (job_id self i)) <$> seq 0 n)
  = (fun i => submit self pool i (make_args self (job_id self i)))
      <$> seq 0 n.
Proof.
  rewrite imap_fmap, imap_seq_diag. apply list_fmap_ext.
  intros i x _. simpl. by rewrite Nat.sub_0_r.
Qed.

Lemma success_id_job (self : TaskGenerator) (pool : nat -> worker) (i : nat) :
  success_id (submit self pool i (make_args self (job_id self i)))
  = if job_succeeded self pool i then Some (job_id self i) else None.
Proof.
  unfold success_id, job_succeeded.
  destruct (submit self pool i _) as [[r|e] w] eqn:Hs; [|done]. simpl.
  apply render_one_task_id in Hs. simpl in Hs. by rewrite Hs.
Qed.

(** C1 (amended): with at least one sample and one worker, when no job
    raises and every job that succeeded left its two keyframes,
    [generate_dataset] returns one [TaskPair] for each job that succeeded
    and none for a job that failed: the identifiers of the returned pairs
    are, up to the order of completion, those of the submitted jobs that
    succeeded, without duplicates; there are at most [num_samples] of
    them, and each refers to its video. *)
Theorem generate_dataset_successes (self : TaskGenerator)
    (pool : nat -> worker) (sched g : Rng) :
  let n := Z.to_nat (num_samples (config self)) in
  let fut i := submit self pool i (make_args self (job_id self i)) in
  registered (tm self) ->
  0 < num_samples (config self) ->
  0 < workers (config self) ->
  (forall i, (i < n)%nat ->
     exists r, fst (fut i) = Ok r /\
               (r_success r = true -> has_frames (fs (snd (fut i))))) ->
  exists pairs g',
    generate_dataset self pool sched g = (Ok pairs, g') /\
    task_id <$> pairs
      ≡ₚ job_id self
           <$> filter (fun i => job_succeeded self pool i = true) (seq 0 n) /\
    NoDup (task_id <$> pairs) /\
    (length pairs <= n)%nat /\
    Forall (fun p => is_Some (ground_truth_video p)) pairs.
Proof.
  intros n fut Hreg Hn Hw Hjobs.
  unfold generate_dataset, _parallel_render. fold n.
  rewrite decide_False by lia. rewrite futures_by_index. fold fut.
  set (futs := fut <$> seq 0 n).
  assert (Hperm : as_completed futs sched ≡ₚ futs)
    by apply sample_loop_all.
  destruct (collect_spec self (as_completed futs sched) [] 0 0 g
              (registered_prompts _ Hreg))
    as (new & ok' & fail' & g' & Hc & Hids & Hvids & _ & _).
  { rewrite Hperm. subst futs. apply Forall_fmap, Forall_seq.
    intros i Hi. apply Hjobs. lia. }
  rewrite Hc. exists new, g'. split; [done|].
  assert (Hnew : task_id <$> new
                 ≡ₚ job_id self
                      <$> filter (fun i => job_succeeded self pool i = true)
                            (seq 0 n)).
  { rewrite Hids, Hperm. subst futs. rewrite omap_fmap_compose.
    rewrite (omap_filter_fmap _ (job_succeeded self pool) (job_id self));
      [done|].
    intros i. apply success_id_job. }
  split; [done|]. split; [|split; [|done]].
  - rewrite Hnew.
    apply (@NoDup_fmap_2 _ _ (job_id self) (job_id_inj self)).
    apply NoDup_filter, NoDup_seq.
  - rewrite <- (length_fmap task_id), Hnew, length_fmap.
    etrans; [apply length_filter|]. by rewrite length_seq.
Qed.

End TaskFacts.

(** * The properties on the scenarios *)

Section OnScenarios.

Import Objects BlenderRender Tasks Scenarios.

Lemma files_only_insert (d : dir) (name : string) (e : entry) :
  is_dir e = false -> files_only d -> files_only (<[name := e]> d).
Proof.
  intros He Hd k e' Hk. destruct (decide (name = k)) as [->|Hne].
  - rewrite lookup_insert_eq in Hk. by injection Hk as <-.
  - rewrite lookup_insert_ne in Hk by done. by eapply Hd.
Qed.

Lemma files_only_rendered (size : Z) (d : dir) :
  files_only d -> files_only (rendered size d).
Proof.
  intros Hd. unfold rendered.
  do 4 (apply files_only_insert; [reflexivity|]). exact Hd.
Qed.


(** ** Strings and identifiers *)

Example strip_line :
  strip ("  /assets/flat.glb " +:+ newline) = "/assets/flat.glb" /\
  strip (" " +:+ newline) = "".
Proof. vm_compute. done. Qed.

Example sentinel_found :
  contains "RENDER_SUCCESS" success_output = true /\
  contains "RENDER_SUCCESS" "IMPORT_FAILED" = false.
Proof. vm_compute. done. Qed.

Example format_detection :
  is_path_format "/assets/chair.glb" = true /\
  is_path_format "chair.glb" = true /\
  is_path_format "8476c4170df24cf5bbe6967222d1a42d" = false.
Proof. vm_compute. done. Qed.

Example job_ids :
  job_id (shape_generator 3 2) 2 = "shape_extrapolation_000002" /\
  format_06d 0 = "000000" /\
  format_06d 4711 = "004711".

Proof. vm_compute. done. Qed.

(** ** The retry loop *)

(** Two undersized videos, then a full one: three launches, and the
    second launch happens to draw the objects of the first again. *)
Example third_time_lucky_run :
  let res :=
    render_with_retry third_time_lucky "/usr/bin/blender" orbit_cfg
      ["/assets/chair.glb"] pool3 "/tmp/job" 1 50000 3 600 fresh in
  fst res = Ok true /\
  inv_objects <$> calls (snd res)
  = [["/assets/chair.glb"]; ["/assets/chair.glb"]; ["/assets/lamp.glb"]].
Proof. vm_compute. done. Qed.

(** A renderer that reports success with a ten-byte video is launched
    [max_retries] times, and the call returns [False]. *)
Example undersized_run :
  let res :=
    render_with_retry always_undersized "/usr/bin/blender" orbit_cfg
      ["/assets/chair.glb"] pool3 "/tmp/job" 1 50000 3 600 fresh in
  fst res = Ok false /\ length (calls (snd res)) = 3%nat /\
  render_succeeded (Completed 0 success_output) = true.
Proof. vm_compute. done. Qed.

(** An interrupt during the second launch leaves the call. *)
Example interrupted_run :
  let sp n c d :=
    if (n <? 1)%nat then always_timeout n c d else always_interrupted n c d in
  let res :=
    render_with_retry sp "/usr/bin/blender" orbit_cfg
      ["/assets/chair.glb"] pool3 "/tmp/job" 1 50000 3 600 fresh in
  fst res = Raise KeyboardInterrupt /\ length (calls (snd res)) = 2%nat.
Proof. vm_compute. done. Qed.

(** C4, as stated, fails on a configuration that cannot be serialised:
    the call raises, and nothing is launched. *)
Lemma render_video_task_raises_on_unserialisable :
  render_video_task always_good "/usr/bin/blender" numpy_cfg
    ["/assets/chair.glb"] "/tmp/job" 600 fresh
  = (Raise TypeError, fresh) /\
  calls (fresh (T:=dict)) = [].
Proof. vm_compute. done. Qed.

(** On an empty pool nothing is redrawn: the objects of the failed attempt
    are kept. *)
Example retry_keeps_objects_on_empty_pool :
  inv_objects
    <$> calls (snd (render_with_retry always_timeout
                      "/usr/bin/blender" orbit_cfg ["/assets/chair.glb"] []
                      "/tmp/job" 1 50000 2 600 fresh))
  = [["/assets/chair.glb"]; ["/assets/chair.glb"]].
Proof. vm_compute. reflexivity. Qed.

(** C5, on the three-object pool and a renderer that always times out:
    the three launches use the given object and then the two draws. *)
Lemma retry_redraws_from_pool_witness :
  Z.of_nat (length ["/assets/chair.glb"])
  = Z.min 1 (Z.of_nat (length pool3)) /\
  redraws pool3 1 counting 2
  = [["/assets/chair.glb"]; ["/assets/lamp.glb"]] /\
  exists new,
    calls (snd (render_with_retry always_timeout
                  "/usr/bin/blender" orbit_cfg ["/assets/chair.glb"] pool3
                  "/tmp/job" 1 50000 3 600 fresh))
    = (calls (fresh (T:=dict)) ++ new)%list /\
    inv_objects <$> new
      `prefix_of` ["/assets/chair.glb"] :: redraws pool3 1 counting 2 /\
    length new = 3%nat.
Proof.
  split; [reflexivity|]. split; [vm_compute; reflexivity|].
  destruct (retry_redraws_from_pool always_timeout
              "/usr/bin/blender" orbit_cfg ["/assets/chair.glb"] pool3
              "/tmp/job" 1 50000 3 600 fresh eq_refl)
    as (_ & _ & new & Hcalls & Hpre & Hfalse & _).
  exists new. split; [exact Hcalls|]. split; [exact Hpre|].
  apply Hfalse. vm_compute. reflexivity.
Defined.

(** C6, as stated, fails on an output directory that holds a
    subdirectory: the cleaning step raises at the first attempt. *)
Lemma render_with_retry_raises_on_subdirectory :
  render_with_retry always_good "/usr/bin/blender" orbit_cfg
    ["/assets/chair.glb"] pool3 "/tmp/job" 1 50000 3 600 with_subdir
  = (Raise IsADirectoryError, with_subdir).
Proof. vm_compute. reflexivity. Qed.

(** C6 (amended), on a renderer that writes regular files only. *)
Lemma render_with_retry_returns_bool_witness :
  json_error orbit_cfg = None /\
  files_only (fs (fresh (T:=dict))) /\ 0 <= 1 /\
  exists b w',
    render_with_retry third_time_lucky "/usr/bin/blender" orbit_cfg
      ["/assets/chair.glb"] pool3 "/tmp/job" 1 50000 3 600 fresh
    = (Ok b, w').
Proof.
  split; [reflexivity|]. split; [apply files_only_empty|]. split; [lia|].
  apply (render_with_retry_returns_bool third_time_lucky).
  - reflexivity.
  - apply files_only_empty.
  - intros n c. unfold third_time_lucky.
    destruct (n <? 2)%nat; apply files_only_rendered, files_only_empty.
  - intros n c. unfold third_time_lucky. by destruct (n <? 2)%nat.
  - lia.
Defined.

(** ** The object list *)

Example load_objects_skips_missing :
  load_objects disk_paths "/pkg" no_resolver (Some "/data/objects.txt")
  = Ok ["/assets/chair.glb"; "/assets/flat.glb"].
Proof. vm_compute. reflexivity. Qed.

(** C8, as stated, fails: an object list with blank lines only raises
    [ValueError], and an object list that is a directory raises
    [IsADirectoryError]; neither is the not-found condition. *)
Lemma load_objects_other_failures :
  stripped_lines [" " +:+ newline; newline] = [] /\
  load_objects disk_blank "/pkg" no_resolver (Some "/data/objects.txt")
  = Raise ValueError /\
  load_objects disk_directory "/pkg" no_resolver (Some "/data/objects.txt")
  = Raise IsADirectoryError /\
  Raise (A:=list string) ValueError <> Raise FileNotFoundError /\
  Raise (A:=list string) IsADirectoryError <> Raise FileNotFoundError.
Proof.
  split; [vm_compute; reflexivity|].
  split; [vm_compute; reflexivity|].
  split; [vm_compute; reflexivity|].
  split; discriminate.
Qed.

(** C9, as stated, fails: the list [load_objects] returns has a member
    whose only mesh is a triangle, which the geometry gate rejects. *)
Lemma load_objects_keeps_degenerate_asset :
  load_objects disk_paths "/pkg" no_resolver (Some "/data/objects.txt")
  = Ok ["/assets/chair.glb"; "/assets/flat.glb"] /\
  import_single_object scene_of "/assets/flat.glb" 2 = Ok [] /\
  ~ non_degenerate scene_of "/assets/flat.glb".
Proof.
  split; [vm_compute; reflexivity|]. split; [vm_compute; reflexivity|].
  intros (objs & v & vs & Himp & Hverts & _).
  vm_compute in Himp. injection Himp as <-. vm_compute in Hverts. lia.
Qed.

(** ** The generators *)

(** C7, on a failed job of the shape-extrapolation generator. *)
Lemma failed_result_placeholder_witness :
  registered shape_extrapolation /\
  exists pair g',
    _result_to_pair (shape_generator 3 2)
      (JobResult "shape_extrapolation_000001"
         "/tmp/shape_extrap_0/shape_extrapolation_000001" false)
      ∅ counting = (Ok pair, g') /\
    first_image pair = Image_new "RGB" (1024, 1024) (0, 0, 0) /\
    final_image pair = Image_new "RGB" (1024, 1024) (0, 0, 0) /\
    ground_truth_video pair = None.
Proof.
  assert (Hreg : registered shape_extrapolation) by (by left).
  split; [exact Hreg|].
  destruct (failed_result_placeholder (shape_generator 3 2)
              (JobResult "shape_extrapolation_000001"
                 "/tmp/shape_extrap_0/shape_extrapolation_000001" false)
              ∅ counting Hreg eq_refl)
    as (pair & g' & Hrun & Hfirst & Hfinal & _ & _ & _ & Hvideo & _).
  exists pair, g'. done.
Defined.

(** The single-job path keeps a failed job as a placeholder pair. *)
Example generate_task_pair_placeholder :
  exists pair,
    fst (generate_task_pair (shape_generator 1 1) always_timeout
           "shape_extrapolation_000000" fresh) = Ok pair /\
    first_image pair = Image_new "RGB" (1024, 1024) (0, 0, 0) /\
    ground_truth_video pair = None.
Proof. eexists. vm_compute. done. Qed.

(** C1, as stated, fails: of three submitted jobs that all time out on
    every attempt, none yields a pair; the returned sequence is empty. *)
Lemma generate_dataset_drops_failed_jobs :
  num_samples (config (shape_generator 3 2)) = 3 /\
  fst (generate_dataset (shape_generator 3 2) pool_timeout constant counting)
  = Ok [] /\
  job_succeeded (shape_generator 3 2) pool_timeout 0 = false /\
  job_succeeded (shape_generator 3 2) pool_timeout 1 = false /\
  job_succeeded (shape_generator 3 2) pool_timeout 2 = false.
Proof. vm_compute. done. Qed.

(** [ProcessPoolExecutor] refuses an empty run. *)
Example generate_dataset_no_samples :
  fst (generate_dataset (shape_generator 0 2) pool_good constant counting)
  = Raise ValueError.
Proof. vm_compute. reflexivity. Qed.

(** C1 (amended), on three jobs of which the second times out. *)
Lemma generate_dataset_successes_witness :
  registered shape_extrapolation /\ 0 < 3 /\ 0 < 2 /\
  exists pairs g',
    generate_dataset (shape_generator 3 2) pool_mixed constant counting
    = (Ok pairs, g') /\
    task_id <$> pairs
      ≡ₚ job_id (shape_generator 3 2)
           <$> filter
                 (fun i => job_succeeded (shape_generator 3 2) pool_mixed i
                           = true)
                 (seq 0 3) /\
    NoDup (task_id <$> pairs) /\
    (length pairs <= 3)%nat /\
    Forall (fun p => is_Some (ground_truth_video p)) pairs.
Proof.
  assert (Hreg : registered shape_extrapolation) by (by left).
  split; [exact Hreg|]. split; [lia|]. split; [lia|].
  apply (generate_dataset_successes (shape_generator 3 2) pool_mixed
           constant counting Hreg); [simpl; lia | simpl; lia |].
  intros i Hi. change (Z.to_nat _) with 3%nat in Hi.
  destruct i as [|[|[|i]]]; [| | |lia];
    (eexists; split; [vm_compute; reflexivity|]);
    [intros _ | discriminate | intros _];
    exists (Entry false 2048), (Entry false 2048);
    vm_compute; done.
Defined.

End OnScenarios.


(** * Further properties of the code *)

(** ** [find_blender] *)

Section FindBlenderFacts.

Variable path_exists : string -> bool.
Variable which : option string.

Lemma filter_head {A} (P : A -> Prop) `{!forall x, Decision (P x)}
    (l : list A) (x : A) (rest : list A) :
  filter P l = x :: rest ->
  exists before after,
    l = (before ++ x :: after)%list /\ Forall (fun y => ~ P y) before /\ P x.
Proof.
  induction l as [|a l IH]; [done|].
  rewrite filter_cons. destruct (decide (P a)) as [Ha|Ha].
  - intros [= -> _]. exists [], l. split; [done|]. split; [constructor | done].
  - intros Hf. destruct (IH Hf) as (before & after & -> & Hb & Hx).
    exists (a :: before), after. split; [done|]. split; [by constructor|done].
Qed.

Lemma find_blender_unfold (blender_path : option string) :
  find_blender path_exists which blender_path
  = if usable_candidate path_exists blender_path
    then match blender_path with
         | Some p => Ok p
         | None => Raise FileNotFoundError
         end
    else match filter (fun c => usable_candidate path_exists c = true)
                 (blender_candidates which) with
         | Some p :: _ => Ok p
         | _ => Raise FileNotFoundError
         end.
Proof. reflexivity. Qed.

(** X1: [find_blender] returns a non-empty path that exists: the explicit
    path whenever that one is non-empty and exists, otherwise the first
    candidate, in the order of the list, that is non-empty and exists.  It
    raises, and then [FileNotFoundError], exactly when neither the
    explicit path nor any candidate is usable. *)
Theorem find_blender_first_existing (blender_path : option string) :
  let usable c := usable_candidate path_exists c = true in
  let r := find_blender path_exists which blender_path in
  (forall p, blender_path = Some p -> usable (Some p) -> r = Ok p) /\
  (forall p, r = Ok p ->
     truthy p = true /\ path_exists p = true /\
     (blender_path = Some p \/
      ~ usable blender_path /\
      exists before after,
        blender_candidates which = (before ++ Some p :: after)%list /\
        Forall (fun c => ~ usable c) before)) /\
  (r = Raise FileNotFoundError <->
     ~ usable blender_path /\
     Forall (fun c => ~ usable c) (blender_candidates which)) /\
  (forall e, r = Raise e -> e = FileNotFoundError).
Proof.
  intros usable r. subst r usable. rewrite find_blender_unfold.
  destruct (usable_candidate path_exists blender_path) eqn:Hb.
  - destruct blender_path as [p|]; [|discriminate].
    pose proof Hb as Hb'. simpl in Hb'. apply andb_true_iff in Hb' as [Ht He].
    split; [by intros q [= <-] _|]. split.
    { intros q [= <-]. split; [done|]. split; [done | by left]. }
    split; [|by intros e [=]]. split; [done | by intros [Hn _]].
  - split; [intros p -> Hu; congruence|].
    destruct (filter (fun c => usable_candidate path_exists c = true)
                (blender_candidates which)) as [|[p|] rest] eqn:Hf.
    + split; [done|]. split; [|by intros e [= <-]]. split; [|done].
      intros _. split; [done|]. apply Forall_forall. intros c Hc Huc.
      assert (Hin : c ∈ filter (fun c => usable_candidate path_exists c = true)
                          (blender_candidates which))
        by (by apply list_elem_of_filter).
      rewrite Hf in Hin. by apply elem_of_nil in Hin.
    + apply filter_head in Hf as (before & after & Hcand & Hbefore & Hp).
      pose proof Hp as Hp'. simpl in Hp'.
      apply andb_true_iff in Hp' as [Ht He].
      split.
      { intros q [= <-]. split; [done|]. split; [done|]. right.
        split; [congruence|]. by exists before, after. }
      split; [|by intros e [=]]. split; [done|]. intros [_ Hall].
      rewrite Hcand in Hall. apply Forall_app in Hall as [_ Hall].
      apply Forall_cons in Hall as [Hall _]. by destruct Hall.
    + apply filter_head in Hf as (before & after & _ & _ & Hp). discriminate.
Qed.

End FindBlenderFacts.

(** ** The task registry *)

Section RegistryFacts.

Import Tasks.

Lemma get_task_unfold (name : string) :
  get_task name
  = if decide ("shape_extrapolation" = name) then Ok shape_extrapolation
    else if decide ("occlusion_dynamics" = name) then Ok occlusion_dynamics
    else if decide ("depth_parallax" = name) then Ok depth_parallax
    else if decide ("zoom_consistency" = name) then Ok zoom_consistency
    else Raise ValueError.
Proof.
  unfold get_task, TASK_REGISTRY. cbn [list_find fst snd].
  repeat (destruct (decide _); [reflexivity|]). reflexivity.
Qed.

(** X2: [get_task] finds a module exactly under its registered name, and
    raises [ValueError] exactly for a name that is not in [TASK_NAMES];
    every registered module is found again under its own task type. *)
Theorem get_task_registered (name : string) :
  (forall m, get_task name = Ok m <-> (name, m) ∈ TASK_REGISTRY) /\
  (get_task name = Raise ValueError <-> name ∉ TASK_NAMES) /\
  (forall e, get_task name = Raise e -> e = ValueError) /\
  (forall m, registered m -> get_task (task_type m) = Ok m).
Proof.
  split; [|split; [|split]].
  - intros m. rewrite get_task_unfold. unfold TASK_REGISTRY.
    rewrite !elem_of_cons, elem_of_nil. split.
    + repeat (destruct (decide _) as [<-|?]); intros H; try discriminate;
        injection H as <-; tauto.
    + intros H. decompose [or] H; try done;
        match goal with
        | E : (_, _) = (_, _) |- _ => injection E as -> ->
        end; reflexivity.
  - rewrite get_task_unfold. unfold TASK_NAMES, TASK_REGISTRY.
    cbn [fmap list_fmap fst]. rewrite !not_elem_of_cons.
    repeat (destruct (decide _) as [<-|?]);
      (split; [try discriminate; intros _ | tauto]);
      repeat split; try done; apply not_elem_of_nil.
  - intros e. rewrite get_task_unfold.
    repeat (destruct (decide _); [discriminate|]). by intros [= <-].
  - intros m. unfold registered, TASK_REGISTRY. cbn [fmap list_fmap snd].
    rewrite !elem_of_cons, elem_of_nil.
    intros [-> | [-> | [-> | [-> | []]]]]; reflexivity.
Qed.

End RegistryFacts.

(** ** More on [load_objects] *)

Section ObjectListFacts.

Import Objects.

(** A white-space character at the head of a string is still there when
    the string is extended, and lies within the string. *)
Lemma space_width_app (u t : string) (k : nat) :
  space_width u = S k -> space_width (u +:+ t) = S k.
Proof.
  destruct u as [|a [|b [|c u]]]; [done| | |by intros H].
  - change (String a "" +:+ t) with (String a t). unfold space_width.
    destruct (isspace a); [done|discriminate].
  - change (String a (String b "") +:+ t) with (String a (String b t)).
    unfold space_width. destruct (isspace a); [done|].
    cbv zeta. destruct (_ && _)%nat; [done|discriminate].
Qed.

Lemma space_width_length (s : string) :
  (space_width s <= String.length s)%nat.
Proof.
  destruct s as [|a [|b [|c s]]]; unfold space_width;
    cbn [String.length]; [lia| | |].
  - destruct (isspace a); lia.
  - destruct (isspace a); [lia|]. cbv zeta. destruct (_ && _)%nat; lia.
  - destruct (isspace a); [lia|]. cbv zeta.
    destruct (_ && _)%nat; [lia|]. destruct (_ || _)%nat; lia.
Qed.

(** What [lstrip] leaves does not start with white space. *)
Lemma lstrip_from_width (skip : nat) (s : string) :
  space_width (lstrip_from skip s) = 0%nat.
Proof.
  revert skip. induction s as [|a s IH]; intros skip; [by destruct skip|].
  cbn [lstrip_from]. destruct skip as [|k]; [|apply IH].
  destruct (space_width (String a s)) eqn:Hw; [exact Hw | apply IH].
Qed.

Lemma lstrip_fixed (s : string) : space_width s = 0%nat -> lstrip s = s.
Proof.
  unfold lstrip. destruct s as [|a s]; [done|]. cbn [lstrip_from].
  by intros ->.
Qed.

(** White space followed by white space is white space. *)
Lemma lstrip_from_app (skip : nat) (u t : string) :
  (skip <= String.length u)%nat ->
  lstrip_from skip u = "" -> lstrip t = "" ->
  lstrip_from skip (u +:+ t) = "".
Proof.
  revert skip. induction u as [|a u IH]; intros skip Hs Hu Ht.
  - simpl in Hs. assert (skip = 0%nat) as -> by lia. exact Ht.
  - change (String a u +:+ t) with (String a (u +:+ t)).
    cbn [lstrip_from] in *. destruct skip as [|k].
    + destruct (space_width (String a u)) as [|k] eqn:Hw; [discriminate|].
      pose proof (space_width_app (String a u) t k Hw) as Hw'.
      change (String a u +:+ t) with (String a (u +:+ t)) in Hw'.
      rewrite Hw'. apply IH; [|done|done].
      pose proof (space_width_length (String a u)) as Hlen.
      rewrite Hw in Hlen. simpl in Hlen. lia.
    + apply IH; [simpl in Hs; lia | done | done].
Qed.

(** [rstrip] cuts white space off the end. *)
Lemma rstrip_split (s : string) :
  exists t, s = rstrip s +:+ t /\ lstrip t = "".
Proof.
  induction s as [|c s (t & Hs & Ht)]; [by exists ""|].
  cbn [rstrip]. destruct (lstrip (String c s)) eqn:Hl.
  - by exists (String c s).
  - exists t. split; [|done].
    change (String c (rstrip s) +:+ t) with (String c (rstrip s +:+ t)).
    by f_equal.
Qed.

Lemma rstrip_idemp (s : string) : rstrip (rstrip s) = rstrip s.
Proof.
  induction s as [|c s IH]; [done|]. cbn [rstrip].
  destruct (lstrip (String c s)) eqn:Hl; [done|]. cbn [rstrip].
  destruct (lstrip (String c (rstrip s))) eqn:Hl'; [|by rewrite IH].
  exfalso. destruct (rstrip_split s) as (t & Hs & Ht).
  assert (Hall : lstrip (String c (rstrip s) +:+ t) = "").
  { apply lstrip_from_app; [simpl; lia | exact Hl' | exact Ht]. }
  change (String c (rstrip s) +:+ t) with (String c (rstrip s +:+ t)) in Hall.
  rewrite <- Hs in Hall. congruence.
Qed.

Lemma rstrip_width (s : string) :
  space_width s = 0%nat -> space_width (rstrip s) = 0%nat.
Proof.
  intros Hw. destruct (rstrip_split s) as (t & Hs & _).
  destruct (space_width (rstrip s)) eqn:Hr; [done|].
  apply (space_width_app _ t) in Hr. rewrite <- Hs in Hr. congruence.
Qed.

(** Stripping twice is stripping once. *)
Lemma strip_idemp (s : string) : strip (strip s) = strip s.
Proof.
  unfold strip.
  rewrite (lstrip_fixed (rstrip (lstrip s)))
    by apply rstrip_width, lstrip_from_width.
  apply rstrip_idemp.
Qed.

(** The lines read from the list are trimmed and not blank. *)
Lemma stripped_lines_trimmed (raw : list string) (l : string) :
  l ∈ stripped_lines raw -> strip l = l /\ l <> "".
Proof.
  unfold stripped_lines. intros [Ht Hin]%list_elem_of_filter.
  apply list_elem_of_fmap in Hin as (s & -> & _).
  split; [apply strip_idemp | by destruct (strip s)].
Qed.

(** X3: when the first non-blank line of the object list is in the path
    format, [load_objects] does not consult the identifier resolver: its
    result is the same whatever the resolver answers, also for later
    lines that look like identifiers.  Every path it then returns is a
    line of the list, trimmed of surrounding white space (the Unicode
    white space [str.strip] removes) and not empty, that exists on the
    disk. *)
Theorem load_objects_path_format
    (disk : filesystem) (package_dir : string)
    (resolver resolver' : list string -> gmap string string)
    (source : option string) (raw : list string)
    (sample : string) (rest : list string) :
  disk !! list_path package_dir source = Some (File raw) ->
  stripped_lines raw = sample :: rest ->
  is_path_format sample = true ->
  load_objects disk package_dir resolver source
  = load_objects disk package_dir resolver' source /\
  forall valid,
    load_objects disk package_dir resolver source = Ok valid ->
    valid `sublist_of` sample :: rest /\
    Forall (fun p => p ∈ stripped_lines raw /\ strip p = p /\ p <> "" /\
                     path_exists disk p = true) valid.
Proof.
  intros Hd Hl Hfmt. rewrite !load_objects_unfold, Hd, Hl.
  assert (Hc : forall r, candidates r (sample :: rest) = sample :: rest).
  { intros r. unfold candidates, entry_path. rewrite Hfmt.
    apply omap_Some_id. }
  rewrite !Hc. split; [done|].
  intros valid Hv.
  pose proof (existing_spec disk (sample :: rest)) as He.
  destruct (existing disk (sample :: rest)) as [[|v vs]|e];
    try discriminate.
  destruct He as [_ He]. injection Hv as <-. rewrite He.
  split; [apply sublist_filter|].
  apply Forall_forall. intros p [Hex Hin]%list_elem_of_filter.
  pose proof Hin as Hin'. rewrite <- Hl in Hin'.
  destruct (stripped_lines_trimmed raw p Hin') as [Hs Hne]. auto.
Qed.



End ObjectListFacts.

(** ** The generator and its jobs *)

Section GeneratorFacts.

Import Objects Tasks.

Lemma find_blender_exists (path_exists : string -> bool)
    (which : option string) (blender_path : option string) (p : string) :
  find_blender path_exists which blender_path = Ok p -> path_exists p = true.
Proof.
  rewrite find_blender_unfold.
  destruct (usable_candidate path_exists blender_path) eqn:Hb.
  - destruct blender_path as [q|]; [|discriminate]. intros [= <-].
    simpl in Hb. by apply andb_true_iff in Hb as [_ ?].
  - destruct (filter _ (blender_candidates which)) as [|[q|] rest] eqn:Hf;
      [discriminate | | discriminate].
    intros [= <-]. apply filter_head in Hf as (_ & _ & _ & _ & Hq).
    simpl in Hq. by apply andb_true_iff in Hq as [_ ?].
Qed.

(** X4: a generator that [__init__] built has a Blender path that exists
    and a non-empty pool of existing objects, its scratch directory and
    its job configuration; [__init__] looks for Blender first, so it
    raises what [find_blender] raises whatever the object list is, and
    otherwise what [load_objects] raises. *)
Theorem generator_init_outcomes (m : task_module)
    (disk : filesystem) (package_dir : string)
    (resolver : list string -> gmap string string)
    (which : option string) (mkdtemp : string -> string)
    (cfg : TaskConfig) :
  match TaskGenerator_init m disk package_dir resolver which mkdtemp cfg with
  | Ok self =>
      tm self = m /\ config self = cfg /\
      path_exists disk (blender self) = true /\
      objects self <> [] /\
      Forall (fun p => path_exists disk p = true) (objects self) /\
      _work_dir self = mkdtemp (tmp_prefix m) /\
      _task_cfg self = _build_task_config m cfg
  | Raise e =>
      find_blender (path_exists disk) which (blender_path cfg) = Raise e \/
      (exists b,
         find_blender (path_exists disk) which (blender_path cfg) = Ok b /\
         load_objects disk package_dir resolver (object_list cfg) = Raise e)
  end.
Proof.
  unfold TaskGenerator_init.
  destruct (find_blender _ _ _) as [b|e] eqn:Hb; [|by left].
  destruct (load_objects _ _ _ _) as [objs|e] eqn:Hl; [|right; eauto].
  simpl. split; [done|]. split; [done|].
  split; [by eapply find_blender_exists|].
  split; [by eapply load_objects_nonempty|].
  split; [by eapply load_objects_exist|]. done.
Qed.

End GeneratorFacts.

(** ** What a job hands to the renderer *)

Section LaunchFacts.

Context {T : Type} `{!Serialisable T}.
Variable sp : subprocess T.
Variables (blender_path : string) (cfg : T).
Variables (all_objects : list string) (output_dir : string).
Variables (num_objects min_video_size max_retries timeout : Z).

(** Every launch of the loop carries the binary, the configuration, the
    output directory and the timeout of the call. *)
Lemma retry_loop_launch_fields attempts current_objs (w w' : world T) r :
  retry_loop sp blender_path cfg all_objects output_dir num_objects
    min_video_size max_retries timeout attempts current_objs w = (r, w') ->
  exists new,
    calls w' = (calls w ++ new)%list /\
    Forall (fun c => inv_blender c = blender_path /\ inv_config c = cfg /\
                     inv_output_dir c = output_dir /\
                     inv_timeout c = timeout) new.
Proof.
  revert current_objs w. induction attempts as [|a rest IH]; intros objs w.
  - simpl. unfold ret. intros [= <- <-]. exists []. by rewrite app_nil_r.
  - intros H. apply retry_loop_inv in H. cbv zeta in H.
    destruct H as [(e & -> & Hc & _) |
                   (_ & _ & [(_ & -> & ->) |
                             [(_ & _ & -> & ->) | (_ & _ & H)]])].
    + exists []. by rewrite app_nil_r.
    + eexists [_]. split; [done|]. by repeat constructor.
    + eexists [_]. split; [done|]. by repeat constructor.
    + destruct (next_objects _ _ _ _ _ _) as [[objs'|e] w3] eqn:Hn;
        apply next_objects_frame in Hn as [Hn _]; simpl in Hn.
      * apply IH in H as (new & Hcalls & Hall).
        eexists (_ :: new). rewrite Hcalls, Hn, <- app_assoc.
        split; [done|]. constructor; [done | exact Hall].
      * destruct H as [-> ->]. eexists [_]. rewrite Hn. split; [done|].
        by repeat constructor.
Qed.

(** The objects of every launch come from the current objects or from
    the pool. *)
Lemma retry_loop_objects attempts current_objs (w w' : world T) r :
  retry_loop sp blender_path cfg all_objects output_dir num_objects
    min_video_size max_retries timeout attempts current_objs w = (r, w') ->
  current_objs ⊆ all_objects ->
  exists new,
    calls w' = (calls w ++ new)%list /\
    Forall (fun c => inv_objects c ⊆ all_objects) new.
Proof.
  revert current_objs w. induction attempts as [|a rest IH];
    intros objs w H Hsub.
  - simpl in H. unfold ret in H. injection H as <- <-. exists [].
    by rewrite app_nil_r.
  - apply retry_loop_inv in H. cbv zeta in H.
    destruct H as [(e & -> & Hc & _) |
                   (_ & _ & [(_ & -> & ->) |
                             [(_ & _ & -> & ->) | (_ & _ & H)]])].
    + exists []. by rewrite app_nil_r.
    + eexists [_]. split; [done|]. by repeat constructor.
    + eexists [_]. split; [done|]. by repeat constructor.
    + destruct (next_objects _ _ _ _ _ _) as [[objs'|e] w3] eqn:Hn.
      * assert (Hsub' : objs' ⊆ all_objects).
        { unfold next_objects in Hn.
          destruct (_ && _); [|unfold ret in Hn; by injection Hn as <- _].
          unfold with_rng, sample in Hn.
          destruct (decide _) as [Hk|]; [|discriminate].
          destruct (sample_loop_spec
                      (Z.to_nat (Z.min num_objects
                                   (Z.of_nat (length all_objects))))
                      all_objects (rng (World (sp (length (calls w))
                        (Invocation blender_path cfg objs output_dir
                           timeout) ∅).2 (rng w)
                        (calls w ++ [Invocation blender_path cfg objs
                                       output_dir timeout]))))
            as [_ [rest' Hperm]]; [lia|].
          destruct (sample_loop _ _ _) as [xs g']. injection Hn as <- _.
          simpl in Hperm. intros x Hx. rewrite <- Hperm.
          apply elem_of_app. by left. }
        apply next_objects_frame in Hn as [Hn _]. simpl in Hn.
        apply IH in H as (new & Hcalls & Hall); [|done].
        eexists (_ :: new). rewrite Hcalls, Hn, <- app_assoc.
        split; [done|]. constructor; [done | exact Hall].
      * apply next_objects_frame in Hn as [Hn _]. simpl in Hn.
        destruct H as [-> ->]. eexists [_]. rewrite Hn. split; [done|].
        by repeat constructor.
Qed.

End LaunchFacts.

Section JobFacts.

Import Tasks.

Lemma fresh_draw_draw_of (pool : list string) (num : Z) (objs : list string) :
  fresh_draw pool num objs ->
  draw_of pool (Z.to_nat (Z.min num (Z.of_nat (length pool)))) objs.
Proof. intros (_ & Hlen & Hperm). by split. Qed.

(** The four modules draw their first objects as their later ones: one
    object by [random.choice] where [NUM_OBJECTS] is 1, and
    [min(NUM_OBJECTS, len(all_objs))] objects by [random.sample]
    otherwise. *)
Lemma pick_objects_draw (m : task_module) (pool : list string)
    (w : world dict) :
  registered m -> pool <> [] ->
  exists objs w',
    pick_objects m pool w = (Ok objs, w') /\
    draw_of pool (Z.to_nat (Z.min (NUM_OBJECTS m) (Z.of_nat (length pool))))
      objs /\
    calls w' = calls w /\ fs w' = fs w.
Proof.
  intros Hreg Hpool.
  assert (Hlen : (1 <= length pool)%nat) by (destruct pool; simpl; [done|lia]).
  assert (Hcase : (first_pick m = Choice /\ NUM_OBJECTS m = 1) \/
                  (first_pick m = Sample /\ 0 <= NUM_OBJECTS m)).
  { revert Hreg. unfold registered, TASK_REGISTRY. cbn [fmap list_fmap snd].
    rewrite !elem_of_cons, elem_of_nil.
    intros [-> | [-> | [-> | [-> | []]]]]; simpl; auto with lia. }
  unfold pick_objects, with_rng.
  destruct Hcase as [[-> Hnum] | [-> Hnum]].
  - destruct (choice_ok pool (rng w) Hpool) as (x & g' & Hc & Hin).
    rewrite Hc. eexists [x], _. split; [reflexivity|].
    split; [|done]. split; [rewrite Hnum; cbn [length]; lia|].
    apply elem_of_Permutation in Hin as [k Hk]. exists k. by rewrite Hk.
  - destruct (sample_spec pool
                (Z.min (NUM_OBJECTS m) (Z.of_nat (length pool))) (rng w))
      as (xs & g' & Hs & Hl & Hperm); [lia|].
    rewrite Hs. eexists xs, _. split; [reflexivity|]. simpl. done.
Qed.

(** X5: every launch a job of a registered module makes, with a non-empty
    pool, runs the generator's Blender binary on the generator's job
    configuration with its timeout, writes to the job's own directory
    [work_dir/job_id], and is handed [min(NUM_OBJECTS, len(objects))]
    objects taken at distinct positions of the pool; a job makes at most
    [max_retries] launches. *)
Theorem job_launches (self : TaskGenerator) (pool : nat -> worker) (i : nat) :
  registered (tm self) ->
  objects self <> [] ->
  Forall (fun c =>
            inv_blender c = blender self /\
            inv_config c = _task_cfg self /\
            inv_output_dir c = job_dir self i /\
            inv_timeout c = timeout (config self) /\
            draw_of (objects self)
              (Z.to_nat (Z.min (NUM_OBJECTS (tm self))
                           (Z.of_nat (length (objects self)))))
              (inv_objects c))
         (launches self pool i) /\
  (length (launches self pool i) <= Z.to_nat (max_retries (config self)))%nat.
Proof.
  intros Hreg Hpool. unfold launches, submit, _render_one, bind.
  set (w := w_world (pool i)).
  destruct (pick_objects_draw (tm self) (objects self) w Hreg Hpool)
    as (objs & w1 & Hpick & Hdraw & Hc1 & _).
  simpl a_all_objs. rewrite Hpick.
  unfold render_with_retry, range. simpl.
  match goal with
  | |- context [retry_loop ?s ?b ?c ?a ?o ?n ?mv ?mr ?t ?l objs w1] =>
      destruct (retry_loop s b c a o n mv mr t l objs w1) as [r w2] eqn:Hl
  end.
  pose proof Hl as Hfields. apply retry_loop_launch_fields in Hfields
    as (new & Hcalls & Hfields).
  pose proof Hl as Hcount. apply retry_loop_launches in Hcount
    as (new1 & Hcalls1 & Hcount & _).
  pose proof Hl as Hdraws. apply retry_loop_draws in Hdraws
    as (new2 & Hcalls2 & Hdraws); [| | done |].
  2:{ destruct (Z.to_nat (max_retries (config self))) eqn:Hm;
        [by left | right; lia]. }
  2:{ assert (registered (tm self)) as Hreg' by done. revert Hreg'.
      unfold registered, TASK_REGISTRY. cbn [fmap list_fmap snd].
      rewrite !elem_of_cons, elem_of_nil.
      intros [-> | [-> | [-> | [-> | []]]]]; simpl; lia. }
  rewrite Hcalls in Hcalls1, Hcalls2.
  apply app_inv_head in Hcalls1 as <-. apply app_inv_head in Hcalls2 as <-.
  rewrite length_fmap, length_seq in Hcount.
  assert (Hw2 : calls (snd (match r with
                            | Ok a => ret (JobResult (job_id self i)
                                (_work_dir self +:+ "/" +:+ job_id self i) a)
                                        w2
                            | Raise e => (Raise e, w2)
                            end)) = calls w2) by (by destruct r).
  rewrite Hw2, Hcalls, Hc1, drop_app_length. split; [|done].
  assert (Hobjs : Forall (fun c => draw_of (objects self)
                    (Z.to_nat (Z.min (NUM_OBJECTS (tm self))
                                 (Z.of_nat (length (objects self)))))
                    (inv_objects c)) new).
  { destruct new as [|c rest]; [constructor|].
    destruct Hdraws as [Hfirst Hrest]. constructor; [by rewrite Hfirst|].
    eapply Forall_impl; [exact Hrest|]. intros c'.
    apply fresh_draw_draw_of. }
  clear -Hfields Hobjs. induction Hfields as [|c new Hc _ IH];
    [constructor|].
  apply Forall_cons in Hobjs as [Ho Hobjs].
  constructor; [|by apply IH]. unfold job_dir. tauto.
Qed.

(** A job launches the renderer on its own directory only, whatever the
    module and the pool. *)
Lemma job_launch_dirs (self : TaskGenerator) (pool : nat -> worker) (i : nat) :
  Forall (fun c => inv_output_dir c = job_dir self i) (launches self pool i).
Proof.
  unfold launches, submit, _render_one, bind.
  set (w := w_world (pool i)).
  destruct (pick_objects _ _ w) as [[objs|e] w1] eqn:Hpick;
    apply pick_objects_frame in Hpick as [Hc1 _].
  2:{ simpl. rewrite Hc1, drop_all. constructor. }
  unfold render_with_retry. simpl.
  match goal with
  | |- context [retry_loop ?s ?b ?c ?a ?o ?n ?mv ?mr ?t ?l objs w1] =>
      destruct (retry_loop s b c a o n mv mr t l objs w1) as [r w2] eqn:Hl
  end.
  apply retry_loop_launch_fields in Hl as (new & Hcalls & Hfields).
  assert (Hw2 : calls (snd (match r with
                            | Ok a => ret (JobResult (job_id self i)
                                (_work_dir self +:+ "/" +:+ job_id self i) a)
                                        w2
                            | Raise e => (Raise e, w2)
                            end)) = calls w2) by (by destruct r).
  rewrite Hw2, Hcalls, Hc1, drop_app_length.
  eapply Forall_impl; [exact Hfields|]. intros c (_ & _ & Hdir & _).
  exact Hdir.
Qed.

Lemma job_dir_inj (self : TaskGenerator) (i j : nat) :
  job_dir self i = job_dir self j -> i = j.
Proof.
  unfold job_dir. intros H. apply (job_id_inj self).
  by do 2 apply (inj (String.app _)) in H.
Qed.

(** X6: two different jobs of a generator never launch the renderer on
    the same output directory: each launch of job [i] writes to
    [work_dir/job_id(i)], and these directories differ from job to job. *)
Theorem job_directories_exclusive (self : TaskGenerator)
    (pool : nat -> worker) (i j : nat) (ci cj : invocation dict) :
  i <> j ->
  ci ∈ launches self pool i ->
  cj ∈ launches self pool j ->
  inv_output_dir ci = job_dir self i /\
  inv_output_dir cj = job_dir self j /\
  inv_output_dir ci <> inv_output_dir cj.
Proof.
  intros Hij Hi Hj.
  pose proof (job_launch_dirs self pool i) as Hdi.
  pose proof (job_launch_dirs self pool j) as Hdj.
  rewrite Forall_forall in Hdi, Hdj.
  rewrite (Hdi ci Hi), (Hdj cj Hj). do 2 (split; [done|]).
  intros Heq. by apply Hij, (job_dir_inj self).
Qed.

(** The loop returns [True] only on a directory with a valid video. *)
Lemma retry_loop_true_valid {T} `{!Serialisable T} (sp : subprocess T)
    blender_path cfg
    all_objects output_dir num_objects min_video_size max_retries timeout
    attempts current_objs (w w' : world T) :
  retry_loop sp blender_path cfg all_objects output_dir num_objects
    min_video_size max_retries timeout attempts current_objs w
    = (Ok true, w') ->
  video_valid min_video_size (fs w') = true.
Proof.
  revert current_objs w. induction attempts as [|a rest IH]; intros objs w.
  - simpl. unfold ret. discriminate.
  - intros H. apply retry_loop_inv in H. cbv zeta in H.
    destruct H as [(e & He & _) |
                   (_ & _ & [(_ & He & _) |
                             [(_ & Hacc & _ & ->) | (_ & _ & H)]])];
      try discriminate.
    + unfold accepted in Hacc. by apply andb_true_iff in Hacc as [_ ?].
    + destruct (next_objects _ _ _ _ _ _) as [[objs'|e] w3];
        [by eapply IH | by destruct H].
Qed.

(** X7: a job reports success only when, as it ends, its directory holds
    [ground_truth.mp4] with more than [min_video_size] bytes; whatever it
    reports, the result carries the identifier and the directory of the
    job. *)
Theorem job_success_means_valid_video (self : TaskGenerator)
    (pool : nat -> worker) (i : nat) (r : job_result) (w' : world dict) :
  submit self pool i (make_args self (job_id self i)) = (Ok r, w') ->
  r_task_id r = job_id self i /\
  r_output_dir r = job_dir self i /\
  (r_success r = true ->
   exists e, fs w' !! "ground_truth.mp4" = Some e /\
             min_video_size (config self) < st_size e).

Proof.
  unfold submit, _render_one, bind.
  destruct (pick_objects _ _ _) as [[objs|e] w1]; [|discriminate].
  destruct (render_with_retry _ _ _ _ _ _ _ _ _ _ w1) as [[ok|e] w2] eqn:Hr;
    [|discriminate].
  unfold ret. intros [= <- <-]. simpl. do 2 (split; [done|]).
  intros ->. apply retry_loop_true_valid in Hr. simpl in Hr.
  unfold video_valid in Hr.
  destruct (fs w2 !! "ground_truth.mp4") as [e|]; [|discriminate].
  exists e. apply Z.ltb_lt in Hr. eauto.
Qed.

Lemma registered_num_objects (m : task_module) :
  registered m -> 0 <= NUM_OBJECTS m.
Proof.
  unfold registered, TASK_REGISTRY. cbn [fmap list_fmap snd].
  rewrite !elem_of_cons, elem_of_nil.
  intros [-> | [-> | [-> | [-> | []]]]]; simpl; lia.
Qed.

(** X8: a job of a registered module on a non-empty pool raises only
    what creating its directory raises.  When [out.mkdir] returns, the
    job configuration can be serialised, the job directory holds only
    regular files and the renderer leaves only regular files, and no
    launch is interrupted by an exception outside [Exception], the job
    returns a result, successful or not, whatever else the renderer does
    (time out, crash, report success without a video). *)
Theorem job_returns_result (self : TaskGenerator) (pool : nat -> worker)
    (i : nat) (mkdir : string -> result unit) :
  let job :=
    _render_one_mkdir mkdir (tm self) (w_sp (pool i))
      (make_args self (job_id self i)) (w_world (pool i)) in
  registered (tm self) ->
  objects self <> [] ->
  json_error (_task_cfg self) = None ->
  files_only (fs (w_world (pool i))) ->
  (forall n c, files_only (snd (w_sp (pool i) n c ∅))) ->
  (forall n c, interrupted (fst (w_sp (pool i) n c ∅)) = false) ->
  match mkdir (job_dir self i) with
  | Raise e => job = (Raise e, w_world (pool i))
  | Ok _ => exists r w', job = (Ok r, w')
  end.
Proof.
  intros job Hreg Hpool Hjson Hfs Hsp Hint. subst job.
  unfold _render_one_mkdir. cbn [a_work_dir a_task_id make_args].
  fold (job_dir self i). destruct (mkdir (job_dir self i)); [|done].
  unfold _render_one, bind.
  destruct (pick_objects_draw (tm self) (objects self) (w_world (pool i))
              Hreg Hpool) as (objs & w1 & Hpick & _ & _ & Hfs1).
  simpl a_all_objs. rewrite Hpick. unfold render_with_retry.
  match goal with
  | |- context [retry_loop ?s ?b ?c ?a ?o ?n ?mv ?mr ?t ?l objs w1] =>
      destruct (retry_loop_returns s b c a o n mv mr t l objs w1)
        as (ok & w2 & Hl)
  end.
  - by rewrite Hfs1.
  - exact Hsp.
  - exact Hint.
  - exact Hjson.
  - by apply registered_num_objects.
  - rewrite Hl. unfold ret. eauto.
Qed.

(** Without a pool nothing is redrawn: every launch gets the objects the
    call was given. *)
Lemma retry_loop_empty_pool {T} `{!Serialisable T} (sp : subprocess T)
    blender_path cfg
    output_dir num_objects min_video_size max_retries timeout
    attempts current_objs (w w' : world T) r :
  retry_loop sp blender_path cfg [] output_dir num_objects
    min_video_size max_retries timeout attempts current_objs w = (r, w') ->
  exists new,
    calls w' = (calls w ++ new)%list /\
    Forall (fun c => inv_objects c = current_objs) new.
Proof.
  revert w. induction attempts as [|a rest IH]; intros w.
  - simpl. unfold ret. intros [= <- <-]. exists []. by rewrite app_nil_r.
  - intros H. apply retry_loop_inv in H. cbv zeta in H.
    destruct H as [(e & -> & Hc & _) |
                   (_ & _ & [(_ & -> & ->) |
                             [(_ & _ & -> & ->) | (_ & _ & H)]])].
    + exists []. by rewrite app_nil_r.
    + eexists [_]. split; [done|]. by repeat constructor.
    + eexists [_]. split; [done|]. by repeat constructor.
    + unfold next_objects in H. rewrite andb_false_r in H.
      unfold ret at 1 in H.
      apply IH in H as (new & Hcalls & Hall). simpl in Hcalls.
      eexists (_ :: new). rewrite Hcalls, <- app_assoc.
      split; [done|]. by constructor.
Qed.

(** X9: on an empty pool a job of a module that draws its first object
    with [random.choice] raises [IndexError] before any launch and leaves
    its worker as it found it, while a job of a module that draws with
    [random.sample] launches the renderer with an empty object list on
    every attempt. *)
Theorem job_on_empty_pool (self : TaskGenerator) (pool : nat -> worker)
    (i : nat) :
  objects self = [] ->
  (first_pick (tm self) = Choice ->
   submit self pool i (make_args self (job_id self i))
   = (Raise IndexError, w_world (pool i))) /\
  (first_pick (tm self) = Sample -> 0 <= NUM_OBJECTS (tm self) ->
   Forall (fun c => inv_objects c = []) (launches self pool i)).
Proof.
  intros Hpool. split.
  - intros Hpick. unfold submit, _render_one, bind, pick_objects.
    rewrite Hpick. unfold with_rng. simpl. rewrite Hpool. simpl.
    by destruct (w_world (pool i)).
  - intros Hpick Hnum. unfold launches, submit, _render_one, bind.
    unfold pick_objects. rewrite Hpick. cbn [a_all_objs make_args].
    rewrite !Hpool. unfold with_rng, sample. simpl length.
    rewrite decide_True by lia.
    replace (Z.to_nat (Z.min (NUM_OBJECTS (tm self)) (Z.of_nat 0)))
      with 0%nat by lia.
    simpl sample_loop. cbv iota beta. unfold render_with_retry.
    match goal with
    | |- context [retry_loop ?s ?b ?c [] ?o ?n ?mv ?mr ?t ?l [] ?w1] =>
        destruct (retry_loop s b c [] o n mv mr t l [] w1) as [r w2] eqn:Hl
    end.
    apply retry_loop_empty_pool in Hl as (new & Hcalls & Hall).
    assert (Hw2 : calls (snd (match r with
                              | Ok a => ret (JobResult
                                  (a_task_id (make_args self (job_id self i)))
                                  (a_work_dir (make_args self (job_id self i))
                                   +:+ "/" +:+
                                   a_task_id (make_args self (job_id self i)))
                                  a) w2
                              | Raise e => (Raise e, w2)
                              end)) = calls w2) by (by destruct r).
    rewrite Hw2, Hcalls. simpl calls. by rewrite drop_app_length.
Qed.

(** What the first draw returns is taken from the pool. *)
Lemma pick_objects_subset (m : task_module) (pool objs : list string)
    (w w' : world dict) :
  pick_objects m pool w = (Ok objs, w') -> objs ⊆ pool.
Proof.
  unfold pick_objects, with_rng. destruct (first_pick m).
  - unfold choice. destruct pool as [|a pool]; [discriminate|].
    destruct (randbelow _ _) as [j g'].
    destruct ((a :: pool) !! j) as [x|] eqn:Hx; [|discriminate].
    intros [= <- _]. intros y ->%list_elem_of_singleton.
    by eapply list_elem_of_lookup_2.
  - unfold sample. destruct (decide _) as [Hk|]; [|discriminate].
    destruct (sample_loop_spec
                (Z.to_nat (Z.min (NUM_OBJECTS m) (Z.of_nat (length pool))))
                pool (rng w)) as [_ [rest Hperm]]; [lia|].
    destruct (sample_loop _ _ _) as [xs g']. intros [= <- _].
    simpl in Hperm. intros x Hx. rewrite <- Hperm. apply elem_of_app.
    by left.
Qed.

(** Every object a job hands to the renderer, at the first attempt and at
    every retry, is taken from the pool of the generator. *)
Lemma job_launch_objects (self : TaskGenerator) (pool : nat -> worker)
    (i : nat) :
  Forall (fun c => inv_objects c ⊆ objects self) (launches self pool i).
Proof.
  unfold launches, submit, _render_one, bind.
  set (w := w_world (pool i)).
  destruct (pick_objects _ _ w) as [[objs|e] w1] eqn:Hpick.
  2:{ apply pick_objects_frame in Hpick as [Hc1 _].
      simpl. rewrite Hc1, drop_all. constructor. }
  pose proof Hpick as Hsub. apply pick_objects_subset in Hsub.
  apply pick_objects_frame in Hpick as [Hc1 _].
  unfold render_with_retry. simpl.
  match goal with
  | |- context [retry_loop ?s ?b ?c ?a ?o ?n ?mv ?mr ?t ?l objs w1] =>
      destruct (retry_loop s b c a o n mv mr t l objs w1) as [r w2] eqn:Hl
  end.
  apply retry_loop_objects in Hl as (new & Hcalls & Hall); [|exact Hsub].
  assert (Hw2 : calls (snd (match r with
                            | Ok a => ret (JobResult (job_id self i)
                                (_work_dir self +:+ "/" +:+ job_id self i) a)
                                        w2
                            | Raise e => (Raise e, w2)
                            end)) = calls w2) by (by destruct r).
  by rewrite Hw2, Hcalls, Hc1, drop_app_length.
Qed.

(** C9 (amended): every member of the list [load_objects] returns is a
    path for which [Path.exists()] answered true when the list was loaded,
    and the list is not empty; [load_objects] does not look at the
    geometry, so nothing is said about the vertices or the bounding box of
    a member.  The generator loads the list once, when it is built, and
    every object that any of its jobs hands to the renderer, at the first
    attempt and at every retry, is a member of that list. *)
Theorem asset_list_members
    (disk : Objects.filesystem) (package_dir : string)
    (objaverse_load_objects : list string -> gmap string string)
    (source : option string) (valid : list string) :
  Objects.load_objects disk package_dir objaverse_load_objects source
    = Ok valid ->
  valid <> [] /\
  (forall p, p ∈ valid -> Objects.exists_ disk p = Ok true) /\
  (forall m which mkdtemp cfg self,
     object_list cfg = source ->
     TaskGenerator_init m disk package_dir objaverse_load_objects which
       mkdtemp cfg = Ok self ->
     objects self = valid /\
     forall pool i c p,
       c ∈ launches self pool i -> p ∈ inv_objects c ->
       p ∈ valid /\ Objects.exists_ disk p = Ok true).
Proof.
  intros Hload.
  pose proof (load_objects_verified _ _ _ _ _ Hload) as Hver.
  rewrite Forall_forall in Hver.
  split; [by eapply load_objects_nonempty|]. split; [exact Hver|].
  intros m which mkdtemp cfg self Hol. unfold TaskGenerator_init.
  destruct (find_blender _ _ _) as [b|e]; [|discriminate].
  rewrite Hol, Hload. intros [= <-]. split; [done|].
  intros pool i c p Hc Hp.
  pose proof (job_launch_objects
                (MkTaskGenerator m cfg b valid (mkdtemp (tmp_prefix m))
                   (_build_task_config m cfg)) pool i) as Hall.
  rewrite Forall_forall in Hall. specialize (Hall c Hc p Hp).
  simpl in Hall. auto.
Qed.

End JobFacts.

(** ** The two ways to a dataset entry *)

Section DatasetFacts.

Import Tasks.

(** What [_result_to_pair] returns when it returns: the identifier of the
    result; for a failure, no video; for a success, the video of the job
    directory, whose frames then exist as regular files. *)
Lemma result_to_pair_ok (self : TaskGenerator) (r : job_result) (d : dir)
    (g g' : Rng) (pair : TaskPair) :
  _result_to_pair self r d g = (Ok pair, g') ->
  task_id pair = r_task_id r /\
  pair_domain pair = domain (config self) /\
  prompt pair ∈ PROMPTS (tm self) /\
  if r_success r
  then ground_truth_video pair
       = Some (r_output_dir r +:+ "/ground_truth.mp4") /\
       first_image pair
       = Image_open (r_output_dir r +:+ "/" +:+ "first_frame.png") "RGB" /\
       final_image pair
       = Image_open (r_output_dir r +:+ "/" +:+ "final_frame.png") "RGB" /\
       has_frames d
  else ground_truth_video pair = None /\
       first_image pair
       = Image_new "RGB" (image_size (config self)) (0, 0, 0) /\
       final_image pair
       = Image_new "RGB" (image_size (config self)) (0, 0, 0).
Proof.
  unfold _result_to_pair, get_prompt.
  assert (Hchoice : forall p g1,
            choice (PROMPTS (tm self)) g = (Ok p, g1) ->
            p ∈ PROMPTS (tm self)).
  { intros p g1. unfold choice. destruct (PROMPTS (tm self)) as [|a l] eqn:Hp;
      [discriminate|].
    unfold randbelow. cbv beta iota zeta.
    destruct ((a :: l) !! _) as [x|] eqn:Hx; [|discriminate].
    intros [= <- _]. by eapply list_elem_of_lookup_2. }
  destruct (r_success r); simpl negb; cbv iota.
  - destruct (choice _ g) as [[p|e] g1] eqn:Hc; [|discriminate].
    unfold open_image.
    destruct (d !! "first_frame.png") as [e1|] eqn:H1; [|discriminate].
    destruct (is_dir e1) eqn:Hd1; [discriminate|].
    destruct (d !! "final_frame.png") as [e2|] eqn:H2; [|discriminate].
    destruct (is_dir e2) eqn:Hd2; [discriminate|].
    intros [= <- _]. simpl. do 2 (split; [done|]).
    split; [by eapply Hchoice|]. do 3 (split; [done|]).
    by exists e1, e2.
  - destruct (choice _ g) as [[p|e] g1] eqn:Hc; [|discriminate].
    intros [= <- _]. simpl. do 2 (split; [done|]).
    split; [by eapply Hchoice | done].
Qed.

(** X10: the single-job path never drops a job.  When the job returns and
    [generate_task_pair] returns, the pair carries the identifier that
    was asked for; for a job that failed it is the black placeholder
    without a video, for a job that succeeded it refers to the video and
    the two frames of the job directory.  For a registered module a failed
    job always gives its placeholder. *)
Theorem generate_task_pair_keeps_job (self : TaskGenerator)
    (sp : subprocess dict) (id : string) (w w1 : world dict)
    (r : job_result) :
  _render_one (tm self) sp (make_args self id) w = (Ok r, w1) ->
  (forall pair w',
     generate_task_pair self sp id w = (Ok pair, w') ->
     task_id pair = id /\
     (ground_truth_video pair = None <-> r_success r = false) /\
     (r_success r = false ->
      first_image pair = Image_new "RGB" (image_size (config self)) (0, 0, 0)
      /\ final_image pair
         = Image_new "RGB" (image_size (config self)) (0, 0, 0)) /\
     r_output_dir r = _work_dir self +:+ "/" +:+ id /\
     (r_success r = true ->
      ground_truth_video pair
      = Some (r_output_dir r +:+ "/ground_truth.mp4"))) /\

  (registered (tm self) -> r_success r = false ->
   exists pair w', generate_task_pair self sp id w = (Ok pair, w')).
Proof.
  intros Hjob. pose proof (render_one_task_id _ _ _ _ _ _ Hjob) as Hid.
  simpl in Hid.
  assert (Hdir : r_output_dir r = _work_dir self +:+ "/" +:+ id).
  { revert Hjob. unfold _render_one, bind.
    destruct (pick_objects _ _ w) as [[objs|e] w0]; [|discriminate].
    destruct (render_with_retry _ _ _ _ _ _ _ _ _ _ w0) as [[ok|e] w2];
      [|discriminate].
    unfold ret. by intros [= <- _]. }
  unfold generate_task_pair, bind. rewrite Hjob. split.
  - intros pair w'.
    destruct (_result_to_pair self r (fs w1) (rng w1)) as [[p|e] g'] eqn:Hp;
      [|discriminate].
    intros [= <- _]. apply result_to_pair_ok in Hp
      as (Htid & _ & _ & Hcase).
    split; [congruence|].
    destruct (r_success r).
    + destruct Hcase as (Hv & _). rewrite Hv.
      split; [split; discriminate|]. split; [discriminate|]. done.
    + destruct Hcase as (Hv & Hf & Hl). split; [done|]. split; [done|].
      split; [done | discriminate].
  - intros Hreg Hfail. unfold _result_to_pair, get_prompt. rewrite Hfail.
    simpl negb. cbv iota.
    destruct (choice_ok (PROMPTS (tm self)) (rng w1)
                (registered_prompts _ Hreg)) as (p & g' & Hc & _).
    rewrite Hc. eauto.
Qed.

(** The loop over the finished futures, when it ends without raising. *)
Lemma collect_ok (self : TaskGenerator)
    (completed : list (result job_result * world dict))
    (pairs ps : list TaskPair) (ok fail ok' fail' : Z) (g g' : Rng) :
  collect self completed pairs ok fail g = (Ok (ps, ok', fail'), g') ->
  exists new,
    ps = (pairs ++ new)%list /\
    task_id <$> new = omap success_id completed /\
    Forall (fun p => is_Some (ground_truth_video p)) new /\
    Forall (fun fut =>
              exists r, fst fut = Ok r /\
                        (r_success r = true -> has_frames (fs (snd fut))))
           completed /\
    ok' = ok + Z.of_nat (length new) /\
    ok' + fail' = ok + fail + Z.of_nat (length completed).
Proof.
  revert pairs ok fail g.
  induction completed as [|[[r|e] w] completed IH]; intros pairs ok fail g.
  - simpl. intros [= <- <- <- <-]. exists []. rewrite app_nil_r.
    do 2 (split; [done|]). do 2 (split; [constructor|]). simpl. lia.
  - change (omap success_id ((Ok r, w) :: completed))
      with (match success_id (Ok r, w) with
            | Some y => y :: omap success_id completed
            | None => omap success_id completed
            end).
    unfold success_id at 1. cbn [collect fst].
    destruct (r_success r) eqn:Hs.
    + destruct (_result_to_pair self r (fs w) g) as [[p|e] g1] eqn:Hp;
        [|discriminate].
      intros Hc. apply IH in Hc
        as (new & -> & Hids & Hvids & Hall & Hok & Hsum).
      apply result_to_pair_ok in Hp as (Hid & _ & _ & Hcase).
      rewrite Hs in Hcase. destruct Hcase as (Hv & _ & _ & Hframes).
      exists (p :: new). rewrite <- app_assoc. split; [done|].
      rewrite fmap_cons, Hid, Hids. split; [done|].
      split; [constructor; [by rewrite Hv | done]|].
      split; [constructor; [by exists r | done]|].
      cbn [length]. lia.
    + intros Hc. apply IH in Hc
        as (new & -> & Hids & Hvids & Hall & Hok & Hsum).
      exists new. do 3 (split; [done|]).
      split; [constructor; [|done]|cbn [length]; lia].
      exists r. split; [done|]. simpl. congruence.
  - simpl. discriminate.
Qed.

(** X11: [generate_dataset] returns a list only when there was at least
    one sample and one worker, no job raised, and every job that
    succeeded left both keyframes; one job that raises makes the whole
    run raise.  The list then holds no placeholder: every pair refers to
    a video, the identifiers are those of the jobs that succeeded, each
    once, and there are at most [num_samples] pairs. *)
Theorem generate_dataset_returns_only_if (self : TaskGenerator)
    (pool : nat -> worker) (sched g g' : Rng) (pairs : list TaskPair) :
  let n := Z.to_nat (num_samples (config self)) in
  let fut i := submit self pool i (make_args self (job_id self i)) in
  generate_dataset self pool sched g = (Ok pairs, g') ->
  0 < num_samples (config self) /\
  0 < workers (config self) /\
  (forall i, (i < n)%nat ->
     exists r, fst (fut i) = Ok r /\
               (r_success r = true -> has_frames (fs (snd (fut i))))) /\
  Forall (fun p => is_Some (ground_truth_video p)) pairs /\
  task_id <$> pairs
    ≡ₚ job_id self
         <$> filter (fun i => job_succeeded self pool i = true) (seq 0 n) /\
  NoDup (task_id <$> pairs) /\
  (length pairs <= n)%nat.
Proof.
  intros n fut. unfold generate_dataset, _parallel_render. fold n.
  destruct (decide (Z.min (workers (config self)) (num_samples (config self))
                    <= 0)) as [|Hpos]; [discriminate|].
  rewrite futures_by_index. fold fut. set (futs := fut <$> seq 0 n).
  destruct (collect self (as_completed futs sched) [] 0 0 g)
    as [[[[ps ok'] fail']|e] g1] eqn:Hc; [|discriminate].
  intros [= <- <-].
  apply collect_ok in Hc as (new & -> & Hids & Hvids & Hall & _ & _).
  assert (Hperm : as_completed futs sched ≡ₚ futs) by apply sample_loop_all.
  simpl app.
  assert (Hnew : task_id <$> new
                 ≡ₚ job_id self
                      <$> filter (fun i => job_succeeded self pool i = true)
                            (seq 0 n)).
  { rewrite Hids, Hperm. subst futs. rewrite omap_fmap_compose.
    rewrite (omap_filter_fmap _ (job_succeeded self pool) (job_id self));
      [done|].
    intros i. apply success_id_job. }
  split; [lia|]. split; [lia|]. split.
  { rewrite Hperm in Hall. subst futs.
    rewrite Forall_forall in Hall. intros i Hi. apply (Hall (fut i)).
    apply list_elem_of_fmap. exists i. split; [done|].
    apply elem_of_seq. lia. }
  split; [done|]. split; [done|]. split.
  - rewrite Hnew.
    apply (@NoDup_fmap_2 _ _ (job_id self) (job_id_inj self)).
    apply NoDup_filter, NoDup_seq.
  - rewrite <- (length_fmap task_id), Hnew, length_fmap.
    etrans; [apply length_filter|]. by rewrite length_seq.
Qed.

(** X12: a run with no sample to make, or with no worker, raises
    [ValueError] from the executor before any job is submitted, and
    leaves the generator of the prompts untouched. *)
Theorem generate_dataset_empty_run (self : TaskGenerator)
    (pool : nat -> worker) (sched g : Rng) :
  num_samples (config self) <= 0 \/ workers (config self) <= 0 ->
  generate_dataset self pool sched g = (Raise ValueError, g).
Proof.
  intros H. unfold generate_dataset, _parallel_render.
  by rewrite decide_True by lia.
Qed.

End DatasetFacts.

(** ** Importing a single object *)

Section ImportFacts.

Import BlenderRender.

Variable import_scene : string -> list bobject.

Lemma Qltb_false_le (a b : Q) : Qltb a b = false -> (b <= a)%Q.
Proof.
  unfold Qltb. intros H. apply negb_false_iff in H.
  by apply Qle_bool_iff in H.
Qed.

Lemma Qltb_true_lt (a b : Q) : Qltb a b = true -> (a < b)%Q.
Proof.
  unfold Qltb. intros H. apply negb_true_iff in H.
  apply Qnot_le_lt. intros Hle. apply Qle_bool_iff in Hle. congruence.
Qed.

Lemma Qltb_lt_true (a b : Q) : (a < b)%Q -> Qltb a b = true.
Proof.
  intros Hlt. destruct (Qltb a b) eqn:H; [done|].
  apply Qltb_false_le in H. by apply Qle_not_lt in H.
Qed.

(** X13: [import_single_object] raises only [ValueError], and only for a
    path that ends in none of [.glb], [.gltf], [.obj].  Otherwise it
    returns the empty list exactly when the asset is degenerate (no mesh,
    fewer than four vertices, or a bounding box narrower than 0.001).
    Else it returns the imported meshes, one for one and in order, each
    with its location lowered by the centre of the bounding box of all
    vertices and its scale multiplied by [target_size / size], [size]
    being the largest side of that box, at least 0.001 (coordinates taken
    as rationals, so never NaN). *)
Theorem import_single_object_outcomes (path : string) (target_size : Q) :
  match import_single_object import_scene path target_size with
  | Raise e =>
      e = ValueError /\
      endswith path ".glb" = false /\ endswith path ".gltf" = false /\
      endswith path ".obj" = false
  | Ok [] => ~ non_degenerate import_scene path
  | Ok objs =>
      non_degenerate import_scene path /\
      exists originals v vs,
        import_object import_scene path = Ok originals /\
        originals ≫= vertices = v :: vs /\
        (1 # 1000 <= bbox_size v vs)%Q /\
        Forall2
          (fun o o' =>
             obj_type o' = "MESH" /\
             (forall j,
                coord (location o') j
                = (coord (location o) j - coord (bbox_center v vs) j)%Q) /\
             (forall j,
                coord (scale o') j
                = (coord (scale o) j * (target_size / bbox_size v vs))%Q))
          originals objs
  end.
Proof.
  unfold import_single_object.
  destruct (import_object import_scene path) as [objects|e] eqn:Himp.
  2:{ revert Himp. unfold import_object.
      destruct (endswith path ".glb"); [discriminate|].
      destruct (endswith path ".gltf"); [discriminate|].
      destruct (endswith path ".obj"); [discriminate|].
      by intros [= <-]. }
  assert (Hmesh : Forall (fun o => obj_type o = "MESH") objects).
  { revert Himp. unfold import_object.
    destruct (_ || _ || _); [|discriminate]. intros [= <-].
    apply Forall_forall. by intros o [? _]%list_elem_of_filter. }
  destruct objects as [|o objects].
  { intros (objs & v & vs & Hi & Hv & _). rewrite Himp in Hi.
    injection Hi as <-. simpl in Hv. lia. }
  set (os := o :: objects) in *.
  destruct (Nat.ltb_spec (total_verts os) 4) as [Hlt|Hge].
  { intros (objs & v & vs & Hi & Hv & _). rewrite Himp in Hi.
    injection Hi as <-. lia. }
  destruct (os ≫= vertices) as [|v vs] eqn:Hverts.
  { pose proof (total_verts_length os) as Hlen. rewrite Hverts in Hlen.
    cbn [length] in Hlen. lia. }
  destruct (Qltb (bbox_size v vs) (1 # 1000)) eqn:Hsz.
  { intros (objs & v' & vs' & Hi & _ & Hv' & Hle). rewrite Himp in Hi.
    injection Hi as <-. rewrite Hverts in Hv'. injection Hv' as <- <-.
    apply Qltb_true_lt in Hsz. by apply Qle_not_lt in Hle. }
  apply Qltb_false_le in Hsz.
  assert (Hpos : (0 < bbox_size v vs)%Q).
  { eapply Qlt_le_trans; [|exact Hsz]. reflexivity. }
  rewrite (Qltb_lt_true _ _ Hpos).
  change (recenter (bbox_center v vs) (target_size / bbox_size v vs) <$> os)
    with (recenter (bbox_center v vs) (target_size / bbox_size v vs) o
          :: (recenter (bbox_center v vs) (target_size / bbox_size v vs)
                <$> objects)).
  split.
  { exists os, v, vs. done. }
  exists os, v, vs. do 3 (split; [done|]).
  change (Forall2
            (fun o o' =>
               obj_type o' = "MESH" /\
               (forall j,
                  coord (location o') j
                  = (coord (location o) j - coord (bbox_center v vs) j)%Q) /\
               (forall j,
                  coord (scale o') j
                  = (coord (scale o) j * (target_size / bbox_size v vs))%Q))
            os
            (recenter (bbox_center v vs) (target_size / bbox_size v vs)
               <$> os)).
  apply Forall2_fmap_r, Forall_Forall2_diag.
  eapply Forall_impl; [exact Hmesh|].
  intros o' Ho'. unfold recenter.
  destruct o' as [ty vts [[lx ly] lz] [[sx sy] sz]]. simpl in Ho' |- *.
  split; [exact Ho'|].
  split; intros [|[|j]]; reflexivity.


Qed.

End ImportFacts.

(** ** Importing and placing several objects *)

Section PlaceFacts.

Import BlenderRender.

Variable import_scene : string -> list bobject.

(** X14: the parent [import_and_place_objects] creates for the meshes of
    path [i] is named [Object_i] and has the same scale on the three
    axes: 1 when the meshes have no vertex or a bounding box of size
    zero, and otherwise the factor that makes the bounding box
    [scales[i]] wide, or 1.5 wide when [scales] has no entry [i].
    Creating it raises only [IndexError], exactly when [positions[i]]
    exists and has fewer than three components (coordinates taken as
    rationals). *)
Theorem place_parent_outcomes (positions : list (list Q)) (scales : list Q)
    (i : nat) (objects : list bobject) :
  match place_parent positions scales i objects with
  | Raise e =>
      e = IndexError /\
      exists pos, positions !! i = Some pos /\ (length pos < 3)%nat
  | Ok parent =>
      e_name parent = "Object_" +:+ decimal i /\
      (forall pos, positions !! i = Some pos -> (3 <= length pos)%nat) /\
      exists sf,
        e_scale parent = (sf, sf, sf) /\
        match filter (fun o => obj_type o = "MESH") objects ≫= vertices with
        | [] => sf = 1%Q
        | v :: vs =>
            if Qltb 0 (bbox_size v vs)
            then (bbox_size v vs * sf == default (3 # 2) (scales !! i))%Q
            else sf = 1%Q
        end
  end.
Proof.
  unfold place_parent. cbv zeta.
  set (placed :=
         match filter (fun o => obj_type o = "MESH") objects ≫= vertices with
         | [] => _
         | v :: vs => _
         end).
  assert (Hscale : exists sf,
            snd placed = (sf, sf, sf) /\
            match filter (fun o => obj_type o = "MESH") objects ≫= vertices
            with
            | [] => sf = 1%Q
            | v :: vs =>
                if Qltb 0 (bbox_size v vs)
                then (bbox_size v vs * sf
                      == default (3 # 2) (scales !! i))%Q
                else sf = 1%Q
            end).
  { subst placed.
    destruct (filter _ objects ≫= vertices) as [|v vs]; [by exists 1%Q|].
    destruct (Qltb 0 (bbox_size v vs)) eqn:Hpos; [|by exists 1%Q].
    eexists. split; [reflexivity|]. apply Qmult_div_r.
    apply Qltb_true_lt in Hpos. intros Hz. rewrite Hz in Hpos.
    by apply Qlt_irrefl in Hpos. }
  destruct placed as [loc scl]. simpl in Hscale.
  destruct (positions !! i) as [pos|] eqn:Hp.
  - destruct pos as [|x [|y [|z pos]]];
      try (split; [done|]; eexists; split; [done|]; simpl; lia).
    simpl. split; [done|]. split; [|done].
    intros pos' [= <-]. simpl. lia.
  - simpl. split; [done|]. split; [done|]. done.
Qed.

Lemma place_parent_name (positions : list (list Q)) (scales : list Q)
    (i : nat) (objects : list bobject) (parent : empty_object) :
  place_parent positions scales i objects = Ok parent ->
  e_name parent = "Object_" +:+ decimal i.
Proof.
  unfold place_parent. cbv zeta.
  match goal with
  | |- context [let '(loc, scl) := ?p in _] => destruct p as [loc scl]
  end.
  destruct (positions !! i) as [[|x [|y [|z pos]]]|]; try discriminate;
    by intros [= <-].
Qed.

Lemma omap_length_le {A B : Type}
 (f : A -> option B) (l : list A) :
  (length (omap f l) <= length l)%nat.
Proof.
  induction l as [|x l IH]; [done|].
  change (omap f (x :: l))
    with (match f x with Some y => y :: omap f l | None => omap f l end).
  destruct (f x); simpl; lia.
Qed.

Lemma place_from_groups (positions
 : list (list Q)) (scales : list Q)
    (paths : list string) (i : nat)
    (groups : list (empty_object * list bobject)) :
  place_from import_scene positions scales i paths = Ok groups ->
  (fun g => (e_name (fst g), snd g)) <$> groups
  = omap (fun ip =>
            match import_object import_scene (snd ip) with
            | Ok (o :: os) => Some ("Object_" +:+ decimal (fst ip), o :: os)
            | _ => None
            end)
         (imap (fun j p => ((i + j)%nat, p)) paths) /\
  Forall (fun p => is_ok (import_object import_scene p) = true) paths.
Proof.
  revert i groups. induction paths as [|path rest IH]; intros i groups.
  - simpl. intros [= <-]. split; [done | constructor].
  - cbn [place_from].
    change (imap (fun j p => ((i + j)%nat, p)) (path :: rest))
      with (((i + 0)%nat, path)
            :: imap ((fun j p => ((i + j)%nat, p)) ∘ S) rest).
    rewrite (imap_ext _ (fun j p => ((S i + j)%nat, p)))
      by (intros; simpl; f_equal; lia).
    match goal with
    | |- context [omap ?f (?x :: ?l)] =>
        change (omap f (x :: l))
          with (match f x with
                | Some y => y :: omap f l
                | None => omap f l
                end)
    end.
    cbn [fst snd]. rewrite Nat.add_0_r.
    destruct (import_object import_scene path) as [[|o os]|e] eqn:Himp;
      [| |discriminate].
    + intros H. apply IH in H as [Hg Hall]. split; [done|].
      constructor; [by rewrite Himp | done].
    + destruct (place_parent positions scales i (o :: os)) as [parent|e]
        eqn:Hparent; [|discriminate].
      apply place_parent_name in Hparent as Hname.
      destruct (place_from import_scene positions scales (S i) rest)
        as [gs|e] eqn:Hrest; [|discriminate].
      intros [= <-]. destruct (IH (S i) gs Hrest) as [Hg Hall].
      split; [|constructor; [by rewrite Himp | done]].
      rewrite fmap_cons, Hg. simpl. by rewrite Hname.
Qed.

(** X15: [import_and_place_objects] makes one group for every path whose
    import gives at least one mesh, in the order of the paths, and names
    its parent after the index of the path in the list, so a path without
    meshes is skipped but keeps its index.  No geometry is tested: a mesh
    with a single vertex is placed as well.  It returns only when every
    path has a supported format. *)
Theorem import_and_place_objects_groups (paths : list string)
    (positions : list (list Q)) (scales : list Q)
    (groups : list (empty_object * list bobject)) :
  import_and_place_objects import_scene paths positions scales = Ok groups ->
  (fun g => (e_name (fst g), snd g)) <$> groups
  = omap (fun ip =>
            match import_object import_scene (snd ip) with
            | Ok (o :: os) => Some ("Object_" +:+ decimal (fst ip), o :: os)
            | _ => None
            end)
         (imap (fun j p => (j, p)) paths) /\
  Forall (fun p => is_ok (import_object import_scene p) = true) paths /\
  (length groups <= length paths)%nat.
Proof.
  intros H. apply place_from_groups in H as [Hg Hall].
  split; [exact Hg|]. split; [exact Hall|].
  rewrite <- (length_fmap (fun g => (e_name (fst g), snd g))), Hg.
  etrans; [apply omap_length_le|]. by rewrite length_imap.
Qed.

End PlaceFacts.

(** * The further properties on the scenarios *)

Section FurtherOnScenarios.

Import Objects BlenderRender Tasks Scenarios.

(** C9 (amended), on the disk whose list names a missing asset. *)
Lemma asset_list_members_witness :
  load_objects disk_paths "/pkg" no_resolver (Some "/data/objects.txt")
  = Ok ["/assets/chair.glb"; "/assets/flat.glb"] /\
  exists_ disk_paths "/assets/flat.glb" = Ok true.
Proof.
  assert (Hload : load_objects disk_paths "/pkg" no_resolver
                    (Some "/data/objects.txt")
                  = Ok ["/assets/chair.glb"; "/assets/flat.glb"])
    by (vm_compute; reflexivity).
  split; [exact Hload|].
  destruct (asset_list_members disk_paths "/pkg" no_resolver
              (Some "/data/objects.txt") _ Hload) as (_ & Hex & _).
  apply Hex. right. left.
Defined.

(** [str.strip] removes Unicode white space as well. *)
Example strip_unicode_space :
  strip (nbsp +:+ " /assets/chair.glb" +:+ nbsp +:+ newline)
  = "/assets/chair.glb" /\
  strip (nbsp +:+ newline) = "".
Proof. vm_compute. done. Qed.

(** Errors of the decoder and of the operating system leave
    [load_objects] as they are. *)
Example load_objects_os_errors :
  load_objects disk_binary "/pkg" no_resolver (Some "/data/objects.txt")
  = Raise UnicodeDecodeError /\
  load_objects disk_denied "/pkg" no_resolver (Some "/data/objects.txt")
  = Raise PermissionError.
Proof. vm_compute. done. Qed.

(** X3, on the disk whose first line is a path behind a no-break space. *)
Lemma load_objects_path_format_witness :
  disk_nbsp !! list_path "/pkg" (Some "/data/objects.txt")
  = Some (File [ nbsp +:+ "/assets/chair.glb" +:+ newline;
                 "8476c4170df24cf5bbe6967222d1a42d" +:+ nbsp +:+ newline ]) /\
  stripped_lines [ nbsp +:+ "/assets/chair.glb" +:+ newline;
                   "8476c4170df24cf5bbe6967222d1a42d" +:+ nbsp +:+ newline ]
  = ["/assets/chair.glb"; "8476c4170df24cf5bbe6967222d1a42d"] /\
  is_path_format "/assets/chair.glb" = true /\
  load_objects disk_nbsp "/pkg" no_resolver (Some "/data/objects.txt")
  = load_objects disk_nbsp "/pkg" one_resolver (Some "/data/objects.txt") /\
  load_objects disk_nbsp "/pkg" one_resolver (Some "/data/objects.txt")
  = Ok ["/assets/chair.glb"].
Proof.
  split; [vm_compute; reflexivity|]. split; [vm_compute; reflexivity|].
  split; [vm_compute; reflexivity|]. split; [|vm_compute; reflexivity].
  apply (load_objects_path_format disk_nbsp "/pkg" no_resolver one_resolver
           (Some "/data/objects.txt")
           [ nbsp +:+ "/assets/chair.glb" +:+ newline;
             "8476c4170df24cf5bbe6967222d1a42d" +:+ nbsp +:+ newline ]
           "/assets/chair.glb" ["8476c4170df24cf5bbe6967222d1a42d"]);
    vm_compute; reflexivity.
Defined.

(** X5, on the second job of three, whose renderer always times out. *)
Lemma job_launches_witness :
  registered shape_extrapolation /\ pool3 <> [] /\
  (length (launches (shape_generator 3 2) pool_timeout 1) <= 3)%nat.
Proof.
  assert (Hreg : registered shape_extrapolation) by (by left).
  split; [exact Hreg|]. split; [discriminate|].
  apply (job_launches (shape_generator 3 2) pool_timeout 1 Hreg).
  discriminate.
Defined.

(** X6, on the first launches of the first two jobs. *)
Lemma job_directories_exclusive_witness :
  0%nat <> 1%nat /\
  inv_output_dir
    (Invocation "/usr/bin/blender"
       (_task_cfg (shape_generator 3 2)) ["/assets/chair.glb"]
       "/tmp/shape_extrap_0/shape_extrapolation_000000" 600)
  <> inv_output_dir
       (Invocation "/usr/bin/blender"
          (_task_cfg (shape_generator 3 2)) ["/assets/chair.glb"]
          "/tmp/shape_extrap_0/shape_extrapolation_000001" 600).
Proof.
  split; [discriminate|].
  apply (job_directories_exclusive (shape_generator 3 2) pool_timeout 0 1).
  - discriminate.
  - vm_compute. constructor.
  - vm_compute. constructor.
Defined.

(** X7, on a job whose renderer writes a full artifact set. *)
Lemma job_success_means_valid_video_witness :
  fst (submit (shape_generator 3 2) pool_good 0
         (make_args (shape_generator 3 2)
            (job_id (shape_generator 3 2) 0)))
  = Ok (JobResult "shape_extrapolation_000000"
          "/tmp/shape_extrap_0/shape_extrapolation_000000" true) /\
  exists e,
    fs (snd (submit (shape_generator 3 2) pool_good 0
               (make_args (shape_generator 3 2)
                  (job_id (shape_generator 3 2) 0))))
    !! "ground_truth.mp4" = Some e /\
    50000 < st_size e.
Proof.
  split; [vm_compute; reflexivity|].
  destruct (job_success_means_valid_video (shape_generator 3 2) pool_good 0
              (JobResult "shape_extrapolation_000000"
                 "/tmp/shape_extrap_0/shape_extrapolation_000000" true)
              (snd (submit (shape_generator 3 2) pool_good 0
                      (make_args (shape_generator 3 2)
                         (job_id (shape_generator 3 2) 0)))))
    as (_ & _ & Hvideo); [vm_compute; reflexivity|].
  apply Hvideo. reflexivity.
Defined.

(** X8, on a job whose renderer always times out. *)
Lemma job_returns_result_witness :
  registered shape_extrapolation /\ pool3 <> [] /\
  json_error (_task_cfg (shape_generator 3 2)) = None /\
  files_only (fs (w_world (pool_timeout 1))) /\
  exists r w',
    _render_one_mkdir (fun _ => Ok tt) shape_extrapolation always_timeout
      (make_args (shape_generator 3 2) (job_id (shape_generator 3 2) 1))
      fresh
    = (Ok r, w').
Proof.
  assert (Hreg : registered shape_extrapolation) by (by left).
  assert (Hpool : pool3 <> []) by discriminate.
  assert (Hjson : json_error (_task_cfg (shape_generator 3 2)) = None)
    by reflexivity.
  assert (Hfs : files_only (fs (w_world (pool_timeout 1))))
    by apply files_only_empty.
  do 4 (split; [assumption|]).
  exact (job_returns_result (shape_generator 3 2) pool_timeout 1
           (fun _ => Ok tt) Hreg Hpool Hjson Hfs
           (fun n c => files_only_empty) (fun n c => eq_refl)).
Defined.

(** X9, on generators without objects. *)
Lemma job_on_empty_pool_witness :
  objects (generator_on shape_extrapolation [] 3 2) = [] /\
  submit (generator_on shape_extrapolation [] 3 2) pool_good 0
    (make_args (generator_on shape_extrapolation [] 3 2)
       (job_id (generator_on shape_extrapolation [] 3 2) 0))
  = (Raise IndexError, w_world (pool_good 0)) /\
  Forall (fun c => inv_objects c = [])
    (launches (generator_on occlusion_dynamics [] 3 2) pool_timeout 0) /\
  length (launches (generator_on occlusion_dynamics [] 3 2) pool_timeout 0)
  = 3%nat.
Proof.
  split; [reflexivity|]. split.
  - apply (job_on_empty_pool (generator_on shape_extrapolation [] 3 2)
             pool_good 0); reflexivity.
  - split; [|vm_compute; reflexivity].
    apply (job_on_empty_pool (generator_on occlusion_dynamics [] 3 2)
             pool_timeout 0); [reflexivity | reflexivity | simpl; lia].
Defined.

(** X10, on a job whose renderer always times out. *)
Lemma generate_task_pair_keeps_job_witness :
  fst (_render_one shape_extrapolation always_timeout
         (make_args (shape_generator 1 1) "shape_extrapolation_000000")
         fresh)
  = Ok (JobResult "shape_extrapolation_000000"
          "/tmp/shape_extrap_0/shape_extrapolation_000000" false) /\
  exists pair w',
    generate_task_pair (shape_generator 1 1) always_timeout
      "shape_extrapolation_000000" fresh = (Ok pair, w').
Proof.
  split; [vm_compute; reflexivity|].
  destruct (generate_task_pair_keeps_job (shape_generator 1 1)
              always_timeout "shape_extrapolation_000000" fresh
              (snd (_render_one shape_extrapolation always_timeout
                      (make_args (shape_generator 1 1)
                         "shape_extrapolation_000000") fresh))
              (JobResult "shape_extrapolation_000000"
                 "/tmp/shape_extrap_0/shape_extrapolation_000000" false))
    as [_ Hplaceholder]; [vm_compute; reflexivity|].
  apply Hplaceholder; [by left | reflexivity].
Defined.

(** X11, on three jobs of which the second times out. *)
Lemma generate_dataset_returns_only_if_witness :
  is_ok (fst (generate_dataset (shape_generator 3 2) pool_mixed constant
                counting)) = true /\
  exists pairs g',
    generate_dataset (shape_generator 3 2) pool_mixed constant counting
    = (Ok pairs, g') /\
    Forall (fun p => is_Some (ground_truth_video p)) pairs /\
    NoDup (task_id <$> pairs) /\
    (length pairs <= 3)%nat.
Proof.
  split; [vm_compute; reflexivity|].
  destruct (generate_dataset (shape_generator 3 2) pool_mixed constant
              counting) as [[pairs|e] g'] eqn:Hrun;
    [|vm_compute in Hrun; discriminate].
  exists pairs, g'. split; [reflexivity|].
  destruct (generate_dataset_returns_only_if (shape_generator 3 2)
              pool_mixed constant counting g' pairs Hrun)
    as (_ & _ & _ & Hvideo & _ & Hnodup & Hlen).
  split; [exact Hvideo|]. split; [exact Hnodup | exact Hlen].
Defined.

(** X12, on a run of no sample. *)
Lemma generate_dataset_empty_run_witness :
  (num_samples (config (shape_generator 0 2)) <= 0 \/
   workers (config (shape_generator 0 2)) <= 0) /\
  generate_dataset (shape_generator 0 2) pool_good constant counting
  = (Raise ValueError, counting).
Proof.
  assert (H : num_samples (config (shape_generator 0 2)) <= 0 \/
              workers (config (shape_generator 0 2)) <= 0)
    by (left; simpl; lia).
  split; [exact H|].
  apply (generate_dataset_empty_run (shape_generator 0 2) pool_good
           constant counting H).
Defined.

(** X15, on three paths of which the second holds no mesh and the third a
    single triangle. *)
Lemma import_and_place_objects_groups_witness :
  is_ok (import_and_place_objects scene_with_gap
           ["/assets/chair.glb"; "/assets/lights.glb"; "/assets/flat.glb"]
           [[(4 # 5)%Q; 0%Q; 0%Q]; [(- 4 # 5)%Q; 0%Q; 0%Q]]
           [(3 # 2)%Q; (3 # 2)%Q]) = true /\
  exists groups,
    import_and_place_objects scene_with_gap
      ["/assets/chair.glb"; "/assets/lights.glb"; "/assets/flat.glb"]
      [[(4 # 5)%Q; 0%Q; 0%Q]; [(- 4 # 5)%Q; 0%Q; 0%Q]]
      [(3 # 2)%Q; (3 # 2)%Q] = Ok groups /\
    (fun g => (e_name (fst g), snd g)) <$> groups
    = [ ("Object_0", scene_of "/assets/chair.glb");
        ("Object_2", scene_of "/assets/flat.glb") ].
Proof.
  split; [vm_compute; reflexivity|].
  destruct (import_and_place_objects scene_with_gap
              ["/assets/chair.glb"; "/assets/lights.glb"; "/assets/flat.glb"]
              [[(4 # 5)%Q; 0%Q; 0%Q]; [(- 4 # 5)%Q; 0%Q; 0%Q]]
              [(3 # 2)%Q; (3 # 2)%Q]) as [groups|e] eqn:Hrun;
    [|vm_compute in Hrun; discriminate].
  exists groups. split; [reflexivity|].
  destruct (import_and_place_objects_groups scene_with_gap _ _ _ _ Hrun)
    as (Hgroups & _ & _).
  rewrite Hgroups. vm_compute. reflexivity.
Defined.

End FurtherOnScenarios.
